(** * Tone curve module of darktable: curve parameters, pixel transform,
      coefficient refit and the interactive curve editor.

    A shallow embedding of [src/common/database.c]: the tone curve
    operation the file holds, with the properties its specification states
    about it and further properties of the code, and the functions that
    open the database of the library.

    C [float] is IEEE binary32 and C [double] is IEEE binary64; both are
    embedded with the executable specification of the standard library
    ([SpecFloat], round to nearest even), so that every definition below can
    be evaluated on concrete pixels and pointer events. *)

From Stdlib Require Import ZArith Bool Lia.
From Stdlib Require Import Floats.SpecFloat.
From stdpp Require Import base list strings.

Local Open Scope Z_scope.

(** ** Floating point layer *)

Module F32.
(** C [float]: 24 bits of precision, infinities at exponent 128. *)
Definition prec : Z := 24.
Definition emax : Z := 128.

Definition add : spec_float -> spec_float -> spec_float := SFadd prec emax.
Definition sub : spec_float -> spec_float -> spec_float := SFsub prec emax.
Definition mul : spec_float -> spec_float -> spec_float := SFmul prec emax.
Definition div : spec_float -> spec_float -> spec_float := SFdiv prec emax.

(** [(float)z] for an integer [z]. *)
Definition of_int (z : Z) : spec_float := binary_normalize prec emax z 0 false.
End F32.

Module F64.
(** C [double]: 53 bits of precision, infinities at exponent 1024. *)
Definition prec : Z := 53.
Definition emax : Z := 1024.

Definition sub : spec_float -> spec_float -> spec_float := SFsub prec emax.
Definition div : spec_float -> spec_float -> spec_float := SFdiv prec emax.

(** [(double)z] for an integer [z]. *)
Definition of_int (z : Z) : spec_float := binary_normalize prec emax z 0 false.
End F64.

(** The two C types share one carrier; the name records the format a value
    is meant to be in. *)
Definition float : Type := spec_float.
Definition double : Type := spec_float.

(** Comparisons are those of IEEE 754: every comparison with a NaN is
    false.  They do not depend on the format. *)
Definition flt (a b : spec_float) : bool := SFltb a b.   (* a <  b *)
Definition fle (a b : spec_float) : bool := SFleb a b.   (* a <= b *)
Definition fgt (a b : spec_float) : bool := SFltb b a.   (* a >  b *)
Definition fge (a b : spec_float) : bool := SFleb b a.   (* a >= b *)

Definition is_nan (a : spec_float) : bool :=
  match a with S754_nan => true | _ => false end.

(** Conversions between the two formats.  Widening is exact, narrowing
    rounds to nearest even. *)
Definition convert (prec emax : Z) (a : spec_float) : spec_float :=
  match a with
  | S754_finite s m e =>
      binary_normalize prec emax (cond_Zopp s (Zpos m)) e s
  | _ => a
  end.

Definition double_of_float (a : float) : double := convert F64.prec F64.emax a.
Definition float_of_double (a : double) : float := convert F32.prec F32.emax a.

(** [(int)x]: truncation toward zero.  C leaves the conversion undefined
    when the truncated value does not fit an [int] (and for NaN and the
    infinities); the embedding returns [INT_MIN] there, as the conversion
    instruction of x86 does. *)
Definition INT_MIN : Z := -2147483648.
Definition INT_MAX : Z := 2147483647.

Definition to_int (a : float) : Z :=
  match a with
  | S754_zero _ => 0
  | S754_finite s m e =>
      let mag := match e with
                 | Zneg p => Z.shiftr (Zpos m) (Zpos p)
                 | _ => Zpos m * 2 ^ e
                 end in
      let v := cond_Zopp s mag in
      if (INT_MIN <=? v) && (v <=? INT_MAX) then v else INT_MIN
  | _ => INT_MIN
  end.

(** glib's [CLAMP], [MAX] and [MIN] macros, on [int] and on floating point
    operands. *)
Definition CLAMP (x low high : Z) : Z :=
  if x >? high then high else if x <? low then low else x.

Definition fCLAMP (x low high : spec_float) : spec_float :=
  if fgt x high then high else if flt x low then low else x.

Definition fMAX (a b : spec_float) : spec_float := if fgt a b then a else b.
Definition fMIN (a b : spec_float) : spec_float := if flt a b then a else b.

(** Literals of the source.  A decimal literal denotes the nearest
    binary32 value, which is the correctly rounded quotient of two small
    integers. *)
Definition f0 : float := S754_zero false.
Definition f1 : float := F32.of_int 1.
Definition f0_5 : float := F32.div (F32.of_int 1) (F32.of_int 2).
Definition f0_01 : float := F32.div (F32.of_int 1) (F32.of_int 100).
Definition f0_001 : float := F32.div (F32.of_int 1) (F32.of_int 1000).
Definition f0_04 : float := F32.div (F32.of_int 4) (F32.of_int 100).
Definition f0_7 : float := F32.div (F32.of_int 7) (F32.of_int 10).
Definition f0_8 : float := F32.div (F32.of_int 8) (F32.of_int 10).
Definition f0_9 : float := F32.div (F32.of_int 9) (F32.of_int 10).
Definition f100 : float := F32.of_int 100.
Definition f128 : float := F32.of_int 128.
Definition f256 : float := F32.of_int 256.

(** ** Data model

    The header that declares the types of the module (iop/tonecurve.h) is
    not among the sources.  The records below hold the fields the code
    uses: for the parameters, in the order of the compound literal that
    initialises them (the node arrays of the three channels, the node
    counts, the curve types, the autoscale flag, the preset).  A node
    array has 20 places, the bound the editor checks before it inserts. *)

(** [tonecurve_channel_t]: the three channels of the Lab triple. *)
Inductive tonecurve_channel_t : Type := ch_L | ch_a | ch_b.

Definition channel_eqb (c1 c2 : tonecurve_channel_t) : bool :=
  match c1, c2 with
  | ch_L, ch_L | ch_a, ch_a | ch_b, ch_b => true
  | _, _ => false
  end.

(** An array indexed by channel ([T v[3]], [ch_max = 3]). *)
Record chan3 (A : Type) : Type := Chan3 { at_L : A; at_a : A; at_b : A }.
Arguments Chan3 {A} _ _ _.
Arguments at_L {A} _.
Arguments at_a {A} _.
Arguments at_b {A} _.

Definition sel3 {A : Type} (v : chan3 A) (ch : tonecurve_channel_t) : A :=
  match ch with ch_L => at_L v | ch_a => at_a v | ch_b => at_b v end.

Definition upd3 {A : Type} (v : chan3 A) (ch : tonecurve_channel_t) (x : A) : chan3 A :=
  match ch with
  | ch_L => Chan3 x (at_a v) (at_b v)
  | ch_a => Chan3 (at_L v) x (at_b v)
  | ch_b => Chan3 (at_L v) (at_a v) x
  end.

(** The spline families of the curve library. *)
Inductive curve_type_t : Type := CUBIC_SPLINE | CATMULL_ROM | MONOTONE_HERMITE.

(** [dt_iop_tonecurve_node_t]. *)
Record dt_iop_tonecurve_node_t : Type := Node { x : float; y : float }.

Definition node0 : dt_iop_tonecurve_node_t := Node f0 f0.

(** Capacity of a channel's node array ([tonecurve[3][20]]). *)
Definition MAXNODES : Z := 20.

(** C arrays are lists read and written at an [int] index.  An access
    outside the array is undefined in C; the embedding reads the default
    and drops the write. *)
Definition aget {A : Type} (d : A) (a : list A) (i : Z) : A :=
  if i <? 0 then d else nth (Z.to_nat i) a d.

Definition aset {A : Type} (a : list A) (i : Z) (v : A) : list A :=
  if i <? 0 then a else <[Z.to_nat i := v]> a.

Definition nget (a : list dt_iop_tonecurve_node_t) (i : Z) : dt_iop_tonecurve_node_t :=
  aget node0 a i.

(** [t[i].x = v;] and [t[i].y = v;] *)
Definition set_x (t : list dt_iop_tonecurve_node_t) (i : Z) (v : float)
    : list dt_iop_tonecurve_node_t :=
  aset t i (Node v (y (nget t i))).

Definition set_y (t : list dt_iop_tonecurve_node_t) (i : Z) (v : float)
    : list dt_iop_tonecurve_node_t :=
  aset t i (Node (x (nget t i)) v).

(** An initialiser that names only the first elements of an array leaves
    the others zero. *)
Definition array_init {A : Type} (d : A) (n : nat) (l : list A) : list A :=
  firstn n (l ++ repeat d n).

(** [dt_iop_tonecurve_params_t], version 3 of the parameters. *)
Record dt_iop_tonecurve_params_t : Type := Params {
  tonecurve : chan3 (list dt_iop_tonecurve_node_t);
  tonecurve_nodes : chan3 Z;
  tonecurve_type : chan3 curve_type_t;
  tonecurve_autoscale_ab : Z;
  tonecurve_preset : Z
}.

(** [dt_iop_tonecurve_1_params_t], version 1: six nodes, one curve. *)
Record dt_iop_tonecurve_1_params_t : Type := Params1 {
  tonecurve_x : list float;
  tonecurve_y : list float;
  tonecurve_preset_1 : Z
}.

(** ** Migration of version 1 parameters *)

(** [for (int k=0; k<6; k++) n->tonecurve[ch_L][k].x = o->tonecurve_x[k];] *)
Fixpoint copy_x (cnt : nat) (k : Z) (src : list float)
    (t : list dt_iop_tonecurve_node_t) : list dt_iop_tonecurve_node_t :=
  match cnt with
  | O => t
  | S cnt' =>
      copy_x cnt' (k + 1) src (set_x t k (aget f0 src k))
  end.

(** [for (int k=0; k<6; k++) n->tonecurve[ch_L][k].y = o->tonecurve_y[k];] *)
Fixpoint copy_y (cnt : nat) (k : Z) (src : list float)
    (t : list dt_iop_tonecurve_node_t) : list dt_iop_tonecurve_node_t :=
  match cnt with
  | O => t
  | S cnt' =>
      copy_y cnt' (k + 1) src (set_y t k (aget f0 src k))
  end.

(** The compound literal both [legacy_params] and [init] start from. *)
Definition default_params : dt_iop_tonecurve_params_t :=
  {| tonecurve :=
       Chan3 (array_init node0 20 [Node f0 f0; Node f1 f1])
             (array_init node0 20 [Node f0 f0; Node f0_5 f0_5; Node f1 f1])
             (array_init node0 20 [Node f0 f0; Node f0_5 f0_5; Node f1 f1]);
     tonecurve_nodes := Chan3 2 3 3;
     tonecurve_type := Chan3 MONOTONE_HERMITE MONOTONE_HERMITE MONOTONE_HERMITE;
     tonecurve_autoscale_ab := 1;
     tonecurve_preset := 0 |}.

(** [legacy_params]: the new parameters after the call (they are written
    through the [new_params] pointer) and the returned status. *)
Definition legacy_params (old_params : dt_iop_tonecurve_1_params_t) (old_version : Z)
    (new_params : dt_iop_tonecurve_params_t) (new_version : Z)
    : dt_iop_tonecurve_params_t * Z :=
  if (old_version =? 1) && (new_version =? 3) then
    let o := old_params in
    let n := default_params in
    let tL := copy_x 6 0 (tonecurve_x o) (sel3 (tonecurve n) ch_L) in
    let tL := copy_y 6 0 (tonecurve_y o) tL in
    let n := {| tonecurve := upd3 (tonecurve n) ch_L tL;
                tonecurve_nodes := upd3 (tonecurve_nodes n) ch_L 6;
                tonecurve_type := upd3 (tonecurve_type n) ch_L CUBIC_SPLINE;
                tonecurve_autoscale_ab := 1;
                tonecurve_preset := tonecurve_preset_1 o |} in
    (n, 0)
  else (new_params, 1).


(** ** The pixel pipeline: committed data, refit and transform *)

(** The region of interest; only the extent is read here. *)
Record dt_iop_roi_t : Type := Roi { width : Z; height : Z }.

(** [for (k = 0; k < n; k++) a[k] = f(a[k]);] replaces each of the first
    [n] elements by its image. *)
Definition map_range {A : Type} (n : nat) (f : A -> A) (a : list A) : list A :=
  map f (firstn n a) ++ skipn n a.

(** Number of entries of a lookup table ([0x10000]). *)
Definition TABLE_SIZE : nat := Z.to_nat 65536.

(** [for (k = 0; k < n; k++) a[k] = f(k);] on an array of [n] elements,
    started at index [k]. *)
Fixpoint tabulate {A : Type} (n : nat) (k : Z) (f : Z -> A) : list A :=
  match n with
  | O => []
  | S n' => f k :: tabulate n' (k + 1) f
  end.

Definition type_eqb (t1 t2 : curve_type_t) : bool :=
  match t1, t2 with
  | CUBIC_SPLINE, CUBIC_SPLINE
  | CATMULL_ROM, CATMULL_ROM
  | MONOTONE_HERMITE, MONOTONE_HERMITE => true
  | _, _ => false
  end.

Section Pipeline.

(** The curve library ([dt_draw_curve_*], draw.h) and the exponential fit
    and its evaluation ([dt_iop_estimate_exp], [dt_iop_eval_exp],
    imageop.h) live outside this file.  They are parameters of the
    development: a curve handle is a value, and a call that changes the
    curve returns the new one.  [dt_draw_curve_calc_values] gets the old
    contents of the destination array and returns its new contents. *)
Variable dt_draw_curve_t : Type.
Variable dt_draw_curve_new : float -> float -> curve_type_t -> dt_draw_curve_t.
Variable dt_draw_curve_add_point :
  dt_draw_curve_t -> float -> float -> dt_draw_curve_t.
Variable dt_draw_curve_set_point :
  dt_draw_curve_t -> Z -> float -> float -> dt_draw_curve_t.
Variable dt_draw_curve_calc_values :
  dt_draw_curve_t -> float -> float -> Z -> list float ->
  dt_draw_curve_t * list float.
Variable dt_iop_estimate_exp :
  list float -> list float -> Z -> list float -> list float.
Variable dt_iop_eval_exp : list float -> float -> float.

(** [dt_iop_tonecurve_data_t]: what a pipeline piece holds. *)
Record dt_iop_tonecurve_data_t : Type := Data {
  curve : chan3 dt_draw_curve_t;
  curve_nodes : chan3 Z;
  curve_type : chan3 curve_type_t;
  table : chan3 (list float);            (* float table[3][0x10000] *)
  unbounded_coeffs : list float;         (* float unbounded_coeffs[3] *)
  autoscale_ab : Z
}.

(** *** [commit_params] *)

(** [for (k = 0; k < nodes; k++) dt_draw_curve_add_point(c, t[k].x, t[k].y);] *)
Fixpoint add_points (cnt : nat) (k : Z) (t : list dt_iop_tonecurve_node_t)
    (c : dt_draw_curve_t) : dt_draw_curve_t :=
  match cnt with
  | O => c
  | S cnt' =>
      add_points cnt' (k + 1) t
        (dt_draw_curve_add_point c (x (nget t k)) (y (nget t k)))
  end.

(** [for (k = 0; k < nodes; k++) dt_draw_curve_set_point(c, k, t[k].x, t[k].y);] *)
Fixpoint set_points (cnt : nat) (k : Z) (t : list dt_iop_tonecurve_node_t)
    (c : dt_draw_curve_t) : dt_draw_curve_t :=
  match cnt with
  | O => c
  | S cnt' =>
      set_points cnt' (k + 1) t
        (dt_draw_curve_set_point c k (x (nget t k)) (y (nget t k)))
  end.

(** One turn of the loop over the channels. *)
Definition commit_channel (p : dt_iop_tonecurve_params_t)
    (d : dt_iop_tonecurve_data_t) (ch : tonecurve_channel_t)
    : dt_iop_tonecurve_data_t :=
  let t := sel3 (tonecurve p) ch in
  let n := sel3 (tonecurve_nodes p) ch in
  let d :=
    if negb (type_eqb (sel3 (curve_type d) ch) (sel3 (tonecurve_type p) ch))
       || negb (sel3 (curve_nodes d) ch =? n)
    then
      let c := dt_draw_curve_new f0 f1 (sel3 (tonecurve_type p) ch) in
      {| curve := upd3 (curve d) ch (add_points (Z.to_nat n) 0 t c);
         curve_nodes := upd3 (curve_nodes d) ch n;
         curve_type := upd3 (curve_type d) ch (sel3 (tonecurve_type p) ch);
         table := table d;
         unbounded_coeffs := unbounded_coeffs d;
         autoscale_ab := autoscale_ab d |}
    else
      {| curve := upd3 (curve d) ch (set_points (Z.to_nat n) 0 t (sel3 (curve d) ch));
         curve_nodes := curve_nodes d;
         curve_type := curve_type d;
         table := table d;
         unbounded_coeffs := unbounded_coeffs d;
         autoscale_ab := autoscale_ab d |} in
  let '(c, tab) :=
    dt_draw_curve_calc_values (sel3 (curve d) ch) f0 f1 65536 (sel3 (table d) ch) in
  {| curve := upd3 (curve d) ch c;
     curve_nodes := curve_nodes d;
     curve_type := curve_type d;
     table := upd3 (table d) ch tab;
     unbounded_coeffs := unbounded_coeffs d;
     autoscale_ab := autoscale_ab d |}.

(** The sample positions of the refit and the table index of a
    position: [CLAMP((int)(x*0x10000ul), 0, 0xffff)]. *)
Definition fit_positions (xm : float) : list float :=
  [F32.mul f0_7 xm; F32.mul f0_8 xm; F32.mul f0_9 xm; F32.mul f1 xm].

Definition fit_index (pos : float) : Z :=
  CLAMP (to_int (F32.mul pos (F32.of_int 65536))) 0 65535.

Definition commit_params (p : dt_iop_tonecurve_params_t)
    (d : dt_iop_tonecurve_data_t) : dt_iop_tonecurve_data_t :=
  let d := commit_channel p d ch_L in
  let d := commit_channel p d ch_a in
  let d := commit_channel p d ch_b in
  let tL := map_range TABLE_SIZE (fun v => F32.mul v f100) (sel3 (table d) ch_L) in
  let ta := map_range TABLE_SIZE (fun v => F32.sub (F32.mul v f256) f128) (sel3 (table d) ch_a) in
  let tb := map_range TABLE_SIZE (fun v => F32.sub (F32.mul v f256) f128) (sel3 (table d) ch_b) in
  let tabs := Chan3 tL ta tb in
  let xm := x (nget (sel3 (tonecurve p) ch_L) (sel3 (tonecurve_nodes p) ch_L - 1)) in
  let xs := fit_positions xm in
  let ys := map (fun pos => aget f0 tL (fit_index pos)) xs in
  {| curve := curve d;
     curve_nodes := curve_nodes d;
     curve_type := curve_type d;
     table := tabs;
     unbounded_coeffs := dt_iop_estimate_exp xs ys 4 (unbounded_coeffs d);
     autoscale_ab := tonecurve_autoscale_ab p |}.

(** *** [init_pipe] *)

(** The identity tables a fresh piece starts with:
    [table[ch_L][k] = 100.0f*k/0x10000] and
    [table[ch_a][k] = table[ch_b][k] = 256.0f*k/0x10000 - 128.0f]. *)
Definition init_table_L : list float :=
  tabulate TABLE_SIZE 0
    (fun k => F32.div (F32.mul f100 (F32.of_int k)) (F32.of_int 65536)).

Definition init_table_ab : list float :=
  tabulate TABLE_SIZE 0
    (fun k => F32.sub (F32.div (F32.mul f256 (F32.of_int k)) (F32.of_int 65536)) f128).

(** [init_pipe] allocates the data and fills everything but the
    coefficients, whose initial contents [coeffs] are whatever the
    allocation holds. *)
Definition init_pipe (default_params : dt_iop_tonecurve_params_t)
    (coeffs : list float) : dt_iop_tonecurve_data_t :=
  let mk ch :=
    add_points (Z.to_nat (sel3 (tonecurve_nodes default_params) ch)) 0
      (sel3 (tonecurve default_params) ch)
      (dt_draw_curve_new f0 f1 (sel3 (tonecurve_type default_params) ch)) in
  {| curve := Chan3 (mk ch_L) (mk ch_a) (mk ch_b);
     curve_nodes := tonecurve_nodes default_params;
     curve_type := tonecurve_type default_params;
     table := Chan3 init_table_L init_table_ab init_table_ab;
     unbounded_coeffs := coeffs;
     autoscale_ab := 1 |}.

(** *** [process] *)

(** The memory the transform works on: the data of the piece, the input
    buffer [i] and the output buffer [o] (two distinct buffers). *)
Record memory : Type := Mem {
  m_data : dt_iop_tonecurve_data_t;
  m_in : list float;
  m_out : list float
}.

Definition store (m : memory) (off : Z) (v : float) : memory :=
  {| m_data := m_data m; m_in := m_in m; m_out := aset (m_out m) off v |}.

(** [CLAMP((int)(v*0xfffful), 0, 0xffff)] *)
Definition table_index (v : float) : Z :=
  CLAMP (to_int (F32.mul v (F32.of_int 65535))) 0 65535.

(** The body of the loop over the pixels of a row; [in_] and [out] are
    the offsets of the two pixel pointers in their buffers. *)
Definition process_pixel (xm low_approximation : float) (m : memory)
    (in_ out : Z) : memory :=
  let d := m_data m in
  let L_in := F32.div (aget f0 (m_in m) (in_ + 0)) f100 in
  let m := store m (out + 0)
             (if flt L_in xm
              then aget f0 (sel3 (table d) ch_L) (table_index L_in)
              else dt_iop_eval_exp (unbounded_coeffs d) L_in) in
  let m :=
    if autoscale_ab d =? 0 then
      let a_in := F32.div (F32.add (aget f0 (m_in m) (in_ + 1)) f128) f256 in
      let b_in := F32.div (F32.add (aget f0 (m_in m) (in_ + 2)) f128) f256 in
      let m := store m (out + 1) (aget f0 (sel3 (table d) ch_a) (table_index a_in)) in
      store m (out + 2) (aget f0 (sel3 (table d) ch_b) (table_index b_in))
    else if fgt L_in f0_01 then
      let m := store m (out + 1)
                 (F32.div (F32.mul (aget f0 (m_in m) (in_ + 1)) (aget f0 (m_out m) (out + 0)))
                          (aget f0 (m_in m) (in_ + 0))) in
      store m (out + 2)
        (F32.div (F32.mul (aget f0 (m_in m) (in_ + 2)) (aget f0 (m_out m) (out + 0)))
                 (aget f0 (m_in m) (in_ + 0)))
    else
      let m := store m (out + 0) (F32.mul (aget f0 (m_in m) (in_ + 0)) low_approximation) in
      let m := store m (out + 1) (F32.mul (aget f0 (m_in m) (in_ + 1)) low_approximation) in
      store m (out + 2) (F32.mul (aget f0 (m_in m) (in_ + 2)) low_approximation) in
  store m (out + 3) (aget f0 (m_in m) (in_ + 3)).

(** The four floats the loop body leaves in the output pixel, as a
    function of the four floats of the input pixel.  [process_pixel] is
    proved to write exactly these. *)
Definition pixel_out (d : dt_iop_tonecurve_data_t) (xm low_approximation : float)
    (i0 i1 i2 i3 : float) : list float :=
  let L_in := F32.div i0 f100 in
  let o0 := if flt L_in xm
            then aget f0 (sel3 (table d) ch_L) (table_index L_in)
            else dt_iop_eval_exp (unbounded_coeffs d) L_in in
  if autoscale_ab d =? 0 then
    [o0;
     aget f0 (sel3 (table d) ch_a) (table_index (F32.div (F32.add i1 f128) f256));
     aget f0 (sel3 (table d) ch_b) (table_index (F32.div (F32.add i2 f128) f256));
     i3]
  else if fgt L_in f0_01 then
    [o0; F32.div (F32.mul i1 o0) i0; F32.div (F32.mul i2 o0) i0; i3]
  else
    [F32.mul i0 low_approximation; F32.mul i1 low_approximation;
     F32.mul i2 low_approximation; i3].

(** The floats of the pixel at offset [off] of a buffer. *)
Definition pixel_at (buf : list float) (off : Z) (c : Z) : float :=
  aget f0 buf (off + c).

(** What a run of stores leaves untouched. *)
Definition frame (m m' : memory) : Prop :=
  m_data m' = m_data m /\ m_in m' = m_in m /\
  length (m_out m') = length (m_out m).

(** [for (j = 0; j < width; j++, in += ch, out += ch)] *)
Fixpoint process_row (cnt : nat) (ch : Z) (xm low_approximation : float)
    (m : memory) (in_ out : Z) : memory :=
  match cnt with
  | O => m
  | S cnt' =>
      process_row cnt' ch xm low_approximation
        (process_pixel xm low_approximation m in_ out) (in_ + ch) (out + ch)
  end.

(** The value [low_approximation] has in every row. *)
Definition low_approximation_of (d : dt_iop_tonecurve_data_t) : float :=
  aget f0 (sel3 (table d) ch_L) (to_int (F32.mul f0_01 (F32.of_int 65535))).

(** [for (k = 0; k < roi_out->height; k++)]; the rows write disjoint
    parts of the output, so the order in which the parallel loop runs
    them does not matter and the embedding takes them in sequence. *)
Fixpoint process_rows (cnt : nat) (k : Z) (ch : Z) (roi_out : dt_iop_roi_t)
    (xm : float) (m : memory) : memory :=
  match cnt with
  | O => m
  | S cnt' =>
      let in_ := k * ch * width roi_out in
      let out := k * ch * width roi_out in
      let low_approximation :=
        aget f0 (sel3 (table (m_data m)) ch_L)
             (to_int (F32.mul f0_01 (F32.of_int 65535))) in
      process_rows cnt' (k + 1) ch roi_out xm
        (process_row (Z.to_nat (width roi_out)) ch xm low_approximation m in_ out)
  end.

(** [process]: [colors] is [piece->colors], the number of floats per
    pixel. *)
Definition process (colors : Z) (roi_out : dt_iop_roi_t) (m : memory) : memory :=
  let ch := colors in
  let xm := F32.div f1 (aget f0 (unbounded_coeffs (m_data m)) 0) in
  process_rows (Z.to_nat (height roi_out)) 0 ch roi_out xm m.

End Pipeline.

Arguments Data {dt_draw_curve_t} _ _ _ _ _ _.
Arguments curve {dt_draw_curve_t} _.
Arguments curve_nodes {dt_draw_curve_t} _.
Arguments curve_type {dt_draw_curve_t} _.
Arguments table {dt_draw_curve_t} _.
Arguments unbounded_coeffs {dt_draw_curve_t} _.
Arguments autoscale_ab {dt_draw_curve_t} _.
Arguments Mem {dt_draw_curve_t} _ _ _.
Arguments m_data {dt_draw_curve_t} _.
Arguments m_in {dt_draw_curve_t} _.
Arguments m_out {dt_draw_curve_t} _.
Arguments store {dt_draw_curve_t} _ _ _.
Arguments process_pixel {dt_draw_curve_t} _ _ _ _ _ _.
Arguments process_row {dt_draw_curve_t} _ _ _ _ _ _ _ _.
Arguments process_rows {dt_draw_curve_t} _ _ _ _ _ _ _.
Arguments process {dt_draw_curve_t} _ _ _ _.
Arguments pixel_out {dt_draw_curve_t} _ _ _ _ _ _ _ _.
Arguments frame {dt_draw_curve_t} _ _.
Arguments low_approximation_of {dt_draw_curve_t} _.
Arguments init_pipe {dt_draw_curve_t} _ _ _ _.
Arguments commit_channel {dt_draw_curve_t} _ _ _ _ _ _ _.
Arguments commit_params {dt_draw_curve_t} _ _ _ _ _ _ _.

(** ** The curve editor *)

(** What the handlers read of the widget and of the events.  The pointer
    position of an event is a pair of [double]s; [state] holds the
    modifier and button bits. *)
Record GtkAllocation : Type := Allocation { allocation_width : Z; allocation_height : Z }.

Record GdkEventMotion : Type := EventMotion {
  event_x : double;
  event_y : double;
  event_state : Z
}.

Definition GDK_BUTTON1_MASK : Z := 256.

Inductive GdkScrollDirection : Type :=
  GDK_SCROLL_UP | GDK_SCROLL_DOWN | GDK_SCROLL_LEFT | GDK_SCROLL_RIGHT.

Definition DT_GUI_CURVE_EDITOR_INSET : Z := 1.

(** The part of [dt_iop_tonecurve_gui_data_t] the handlers use: the
    channel tab, the last pointer position in the frame of the drawing
    area (taken to be two [double]s, as the coordinates of an event are)
    and the selected node, with -1 for no node and -2 for no node and no
    insertion. *)
Record dt_iop_tonecurve_gui_data_t : Type := GuiData {
  channel : tonecurve_channel_t;
  mouse_x : double;
  mouse_y : double;
  selected : Z
}.

(** The part of [dt_iop_module_t] the handlers use. *)
Record dt_iop_module_t : Type := Module_ {
  params : dt_iop_tonecurve_params_t;
  gui_data : dt_iop_tonecurve_gui_data_t
}.

(** [for (k = selected; k < nodes-1; k++) { t[k].x = t[k+1].x; t[k].y = t[k+1].y; }] *)
Fixpoint shift_down (cnt : nat) (k : Z) (t : list dt_iop_tonecurve_node_t)
    : list dt_iop_tonecurve_node_t :=
  match cnt with
  | O => t
  | S cnt' =>
      let t := set_x t k (x (nget t (k + 1))) in
      let t := set_y t k (y (nget t (k + 1))) in
      shift_down cnt' (k + 1) t
  end.

(** [for (i = nodes; i > selected; i--) { t[i].x = t[i-1].x; t[i].y = t[i-1].y; }] *)
Fixpoint shift_up (cnt : nat) (i : Z) (t : list dt_iop_tonecurve_node_t)
    : list dt_iop_tonecurve_node_t :=
  match cnt with
  | O => t
  | S cnt' =>
      let t := set_x t i (x (nget t (i - 1))) in
      let t := set_y t i (y (nget t (i - 1))) in
      shift_up cnt' (i - 1) t
  end.

(** [for (k = 1; k < nodes; k++) if (t[k].x > mx) { selected = k; break; }];
    the result is the value of [selected] after the loop. *)
Fixpoint find_gt (cnt : nat) (k : Z) (t : list dt_iop_tonecurve_node_t)
    (mx : float) (sel : Z) : Z :=
  match cnt with
  | O => sel
  | S cnt' =>
      if fgt (x (nget t k)) mx then k else find_gt cnt' (k + 1) t mx sel
  end.

(** The hit test: the loop over the nodes that keeps the nearest node
    within the squared radius [min]. *)
Fixpoint nearest_loop (cnt : nat) (k : Z) (t : list dt_iop_tonecurve_node_t)
    (mx my : float) (min : float) (nearest : Z) : Z :=
  match cnt with
  | O => nearest
  | S cnt' =>
      let dy := F32.sub my (y (nget t k)) in
      let dx := F32.sub mx (x (nget t k)) in
      let dist := F32.add (F32.mul dy dy) (F32.mul dx dx) in
      if flt dist min
      then nearest_loop cnt' (k + 1) t mx my dist k
      else nearest_loop cnt' (k + 1) t mx my min nearest
  end.

Definition nearest_node (t : list dt_iop_tonecurve_node_t) (nodes : Z)
    (mx my : float) : Z :=
  nearest_loop (Z.to_nat nodes) 0 t mx my (F32.mul f0_04 f0_04) (-1).

(** The test of the deletion: the dragged node [sel], now at [mx], has
    reached or passed the x of a neighbour.
    [(sel > 0 && t[sel-1].x >= mx) || (sel < nodes-1 && t[sel+1].x <= mx)] *)
Definition order_violated (t : list dt_iop_tonecurve_node_t) (nodes sel : Z)
    (mx : float) : bool :=
  ((sel >? 0) && fge (x (nget t (sel - 1))) mx)
  || ((sel <? nodes - 1) && fle (x (nget t (sel + 1))) mx).

(** The place of a new node: the value of [selected], [sel0] before,
    after
    [if (t[0].x > mx) selected = 0; else for (k = 1; ...) ...;
     if (selected == -1) selected = nodes;] *)
Definition insert_place (t : list dt_iop_tonecurve_node_t) (nodes : Z)
    (mx : float) (sel0 : Z) : Z :=
  let sel := if fgt (x (nget t 0)) mx then 0
             else find_gt (Z.to_nat (nodes - 1)) 1 t mx sel0 in
  if sel =? -1 then nodes else sel.

(** The pointer position in the frame of the drawing area,
    [CLAMP(event->x - inset, 0, width)], and its normalised form
    [mx = mouse_x/(float)width], [my = 1.0f - mouse_y/(float)height]. *)
Definition area_width (widget : GtkAllocation) : Z :=
  allocation_width widget - 2 * DT_GUI_CURVE_EDITOR_INSET.

Definition area_height (widget : GtkAllocation) : Z :=
  allocation_height widget - 2 * DT_GUI_CURVE_EDITOR_INSET.

Definition pointer_x (widget : GtkAllocation) (event : GdkEventMotion) : double :=
  fCLAMP (F64.sub (event_x event) (F64.of_int DT_GUI_CURVE_EDITOR_INSET))
         (F64.of_int 0) (F64.of_int (area_width widget)).

Definition pointer_y (widget : GtkAllocation) (event : GdkEventMotion) : double :=
  fCLAMP (F64.sub (event_y event) (F64.of_int DT_GUI_CURVE_EDITOR_INSET))
         (F64.of_int 0) (F64.of_int (area_height widget)).

Definition norm_x (widget : GtkAllocation) (event : GdkEventMotion) : float :=
  float_of_double
    (F64.div (pointer_x widget event)
             (double_of_float (F32.of_int (area_width widget)))).

Definition norm_y (widget : GtkAllocation) (event : GdkEventMotion) : float :=
  float_of_double
    (F64.sub (double_of_float f1)
       (F64.div (pointer_y widget event)
                (double_of_float (F32.of_int (area_height widget))))).

(** [autoscale_ab && ch != ch_L]: the chroma curves are locked. *)
Definition chroma_locked (p : dt_iop_tonecurve_params_t)
    (c : dt_iop_tonecurve_gui_data_t) : bool :=
  negb (tonecurve_autoscale_ab p =? 0) && negb (channel_eqb (channel c) ch_L).

Definition button1 (event : GdkEventMotion) : bool :=
  negb (Z.land (event_state event) GDK_BUTTON1_MASK =? 0).

(** [dt_iop_tonecurve_motion_notify]: the module after the handler ran.
    The handler also asks the host for a redraw and, after a change of the
    curve, for a new history item; both are the host's business.  The
    [int]s of the handler (node counts, indices, the extent of the drawing
    area) stay far from the limits of the type, so they are integers
    here. *)
Definition dt_iop_tonecurve_motion_notify (self : dt_iop_module_t)
    (widget : GtkAllocation) (event : GdkEventMotion) : dt_iop_module_t :=
  let c := gui_data self in
  let p := params self in
  let ch := channel c in
  let nodes := sel3 (tonecurve_nodes p) ch in
  let tonecurve_ch := sel3 (tonecurve p) ch in
  if chroma_locked p c then self
  else
    let c := {| channel := channel c;
                mouse_x := pointer_x widget event;
                mouse_y := pointer_y widget event;
                selected := selected c |} in
    let mx := norm_x widget event in
    let my := norm_y widget event in
    if button1 event then
      if selected c >=? 0 then
        let t := set_x tonecurve_ch (selected c) mx in
        let t := set_y t (selected c) my in
        if (nodes >? 2) && order_violated t nodes (selected c) mx
        then
          let t := shift_down (Z.to_nat (nodes - 1 - selected c)) (selected c) t in
          {| params := {| tonecurve := upd3 (tonecurve p) ch t;
                          tonecurve_nodes := upd3 (tonecurve_nodes p) ch (nodes - 1);
                          tonecurve_type := tonecurve_type p;
                          tonecurve_autoscale_ab := tonecurve_autoscale_ab p;
                          tonecurve_preset := tonecurve_preset p |};
             gui_data := {| channel := channel c; mouse_x := mouse_x c;
                            mouse_y := mouse_y c; selected := -2 |} |}
        else
          {| params := {| tonecurve := upd3 (tonecurve p) ch t;
                          tonecurve_nodes := tonecurve_nodes p;
                          tonecurve_type := tonecurve_type p;
                          tonecurve_autoscale_ab := tonecurve_autoscale_ab p;
                          tonecurve_preset := tonecurve_preset p |};
             gui_data := c |}
      else if (nodes <? 20) && (selected c >=? -1) then
        let sel := insert_place tonecurve_ch nodes mx (selected c) in
        let t := shift_up (Z.to_nat (nodes - sel)) nodes tonecurve_ch in
        let t := set_x t sel mx in
        let t := set_y t sel my in
        {| params := {| tonecurve := upd3 (tonecurve p) ch t;
                        tonecurve_nodes := upd3 (tonecurve_nodes p) ch (nodes + 1);
                        tonecurve_type := tonecurve_type p;
                        tonecurve_autoscale_ab := tonecurve_autoscale_ab p;
                        tonecurve_preset := tonecurve_preset p |};
           gui_data := {| channel := channel c; mouse_x := mouse_x c;
                          mouse_y := mouse_y c; selected := sel |} |}
      else {| params := p; gui_data := c |}
    else
      {| params := p;
         gui_data := {| channel := channel c; mouse_x := mouse_x c;
                        mouse_y := mouse_y c;
                        selected := nearest_node tonecurve_ch nodes mx my |} |}.

(** [scrolled]: the wheel moves the selected node up or down. *)
Definition scrolled (self : dt_iop_module_t) (direction : GdkScrollDirection)
    : dt_iop_module_t :=
  let c := gui_data self in
  let p := params self in
  let ch := channel c in
  let tonecurve_ch := sel3 (tonecurve p) ch in
  if chroma_locked p c then self
  else if selected c >=? 0 then
    let t := tonecurve_ch in
    let t := match direction with
             | GDK_SCROLL_UP =>
                 set_y t (selected c)
                   (fMAX f0 (F32.add (y (nget t (selected c))) f0_001))
             | _ => t
             end in
    let t := match direction with
             | GDK_SCROLL_DOWN =>
                 set_y t (selected c)
                   (fMIN f1 (F32.sub (y (nget t (selected c))) f0_001))
             | _ => t
             end in
    {| params := {| tonecurve := upd3 (tonecurve p) ch t;
                    tonecurve_nodes := tonecurve_nodes p;
                    tonecurve_type := tonecurve_type p;
                    tonecurve_autoscale_ab := tonecurve_autoscale_ab p;
                    tonecurve_preset := tonecurve_preset p |};
       gui_data := c |}
  else self.

(** A run of pointer moves over one widget. *)
Definition motion_run (self : dt_iop_module_t) (widget : GtkAllocation)
    (events : list GdkEventMotion) : dt_iop_module_t :=
  fold_left (fun s ev => dt_iop_tonecurve_motion_notify s widget ev) events self.

(** *** The ordering invariant of the editor *)

Definition feq (a b : spec_float) : bool := SFeqb a b.   (* a == b *)

(** [increasing_from cnt i t]: the x of the nodes [i], ..., [i + cnt] of
    [t] increase strictly. *)
Fixpoint increasing_from (cnt : nat) (i : Z) (t : list dt_iop_tonecurve_node_t)
    : bool :=
  match cnt with
  | O => true
  | S cnt' =>
      flt (x (nget t i)) (x (nget t (i + 1))) && increasing_from cnt' (i + 1) t
  end.

(** The first [nodes] nodes of [t] have strictly increasing x. *)
Definition strictly_increasing (t : list dt_iop_tonecurve_node_t) (nodes : Z) : bool :=
  increasing_from (Z.to_nat (nodes - 1)) 0 t.

(** No node among the first [cnt] from [k] on has its x equal to [mx]. *)
Fixpoint fresh_from (cnt : nat) (k : Z) (t : list dt_iop_tonecurve_node_t)
    (mx : float) : bool :=
  match cnt with
  | O => true
  | S cnt' => negb (feq (x (nget t k)) mx) && fresh_from cnt' (k + 1) t mx
  end.

Definition fresh_x (t : list dt_iop_tonecurve_node_t) (nodes : Z) (mx : float) : bool :=
  fresh_from (Z.to_nat nodes) 0 t mx.

(** A channel in good shape: an array of 20 nodes of which between 2 and
    20 are in use, with strictly increasing x. *)
Definition curve_ok (t : list dt_iop_tonecurve_node_t) (nodes : Z) : bool :=
  (Z.of_nat (length t) =? MAXNODES) && (2 <=? nodes) && (nodes <=? MAXNODES)
  && strictly_increasing t nodes.

Definition channel_ok (p : dt_iop_tonecurve_params_t) (ch : tonecurve_channel_t) : bool :=
  curve_ok (sel3 (tonecurve p) ch) (sel3 (tonecurve_nodes p) ch).

(** The editor in good shape: every channel is, and the selection, if
    any, is a node of the channel of the current tab. *)
Definition editor_ok (self : dt_iop_module_t) : bool :=
  channel_ok (params self) ch_L && channel_ok (params self) ch_a
  && channel_ok (params self) ch_b
  && (selected (gui_data self)
      <? sel3 (tonecurve_nodes (params self)) (channel (gui_data self))).

(** Every channel is in good shape. *)
Definition curves_ok (p : dt_iop_tonecurve_params_t) : bool :=
  channel_ok p ch_L && channel_ok p ch_a && channel_ok p ch_b.

(** The pointer moves under which the order is kept: a node dragged in a
    channel of no more than 2 nodes does not reach or pass the x of its
    neighbour (in a channel of more than 2 nodes it may: it is deleted
    then), a node is inserted only at an x no node of the channel has, and
    the normalised x of the pointer is a number in both cases. *)
Definition drag_admissible (self : dt_iop_module_t) (widget : GtkAllocation)
    (event : GdkEventMotion) : bool :=
  let c := gui_data self in
  let p := params self in
  let nodes := sel3 (tonecurve_nodes p) (channel c) in
  let t := sel3 (tonecurve p) (channel c) in
  let mx := norm_x widget event in
  if chroma_locked p c then true
  else if button1 event then
    if selected c >=? 0 then
      negb (is_nan mx)
      && ((nodes >? 2) || negb (order_violated t nodes (selected c) mx))
    else if (nodes <? 20) && (selected c >=? -1)
    then negb (is_nan mx) && fresh_x t nodes mx
    else true
  else true.

Fixpoint admissible_run (self : dt_iop_module_t) (widget : GtkAllocation)
    (events : list GdkEventMotion) : bool :=
  match events with
  | [] => true
  | ev :: rest =>
      drag_admissible self widget ev
      && admissible_run (dt_iop_tonecurve_motion_notify self widget ev) widget rest
  end.

(** ** Concrete inputs *)

(** Version 1 parameters: the six nodes of the linear preset. *)
Definition example_old_params : dt_iop_tonecurve_1_params_t :=
  let l := [f0; F32.div (F32.of_int 8) (F32.of_int 100);
            F32.div (F32.of_int 4) (F32.of_int 10);
            F32.div (F32.of_int 6) (F32.of_int 10);
            F32.div (F32.of_int 92) (F32.of_int 100); f1] in
  {| tonecurve_x := l; tonecurve_y := l; tonecurve_preset_1 := 7 |}.

(** *** A concrete piece and region

    A piece fresh from [init_pipe], with a curve library that keeps no
    state and the coefficients of the identity curve (1/x0 = 1, y0 = 100,
    exponent 1), and a region of one row of three pixels: the first has
    L = 50, the second L = 0.5, below the autoscale threshold, and the
    third L = 1, which is the threshold itself (1/100 rounds to [0.01f]). *)

(** The model y = c1 * (x * c0)^c2 at the exponent 1 of the identity. *)
Definition example_eval_exp (coeff : list float) (v : float) : float :=
  F32.mul (aget f0 coeff 1) (F32.mul v (aget f0 coeff 0)).

Definition example_data : dt_iop_tonecurve_data_t unit :=
  init_pipe (fun _ _ _ => tt) (fun _ _ _ => tt) default_params [f1; f100; f1].

Definition example_in : list float :=
  [F32.of_int 50; F32.of_int 10; F32.of_int (-10); f1;
   f0_5; F32.of_int 3; F32.of_int 4; f1;
   f1; F32.of_int 3; F32.of_int 4; f1].

Definition example_memory : memory unit :=
  {| m_data := example_data; m_in := example_in; m_out := repeat f0 12 |}.

Definition example_roi : dt_iop_roi_t := {| width := 3; height := 1 |}.

(** Stand-ins for the curve library and the fit, to run [commit_params]:
    curves without state, a sampler that leaves the array as it is, and
    the coefficients (1/x0, y0, 1) of the last sample (x0, y0). *)
Definition example_calc_values (c : unit) (lo hi : float) (res : Z)
    (ys : list float) : unit * list float := (c, ys).

Definition example_estimate_exp (xs ys : list float) (num : Z)
    (coeff : list float) : list float :=
  [F32.div f1 (aget f0 xs (num - 1)); aget f0 ys (num - 1); f1].

Definition example_commit (p : dt_iop_tonecurve_params_t)
    (d : dt_iop_tonecurve_data_t unit) : dt_iop_tonecurve_data_t unit :=
  commit_params (fun _ _ _ => tt) (fun _ _ _ => tt) (fun _ _ _ _ => tt)
    example_calc_values example_estimate_exp p d.

(** *** Concrete editor states

    The default parameters with a given autoscale flag, tab and
    selection, in a drawing area of 256 by 256 pixels (the widget is 258
    by 258, the inset 1), and a pointer move to a pixel of the widget. *)
Definition example_module (ch : tonecurve_channel_t) (autoscale : Z) (sel : Z)
    : dt_iop_module_t :=
  {| params := {| tonecurve := tonecurve default_params;
                  tonecurve_nodes := tonecurve_nodes default_params;
                  tonecurve_type := tonecurve_type default_params;
                  tonecurve_autoscale_ab := autoscale;
                  tonecurve_preset := 0 |};
     gui_data := {| channel := ch; mouse_x := F64.of_int (-1);
                    mouse_y := F64.of_int (-1); selected := sel |} |}.

Definition example_widget : GtkAllocation := Allocation 258 258.

Definition example_move (px py : Z) (state : Z) : GdkEventMotion :=
  EventMotion (F64.of_int px) (F64.of_int py) state.

(** A gesture on the luminance tab, whose curve has two nodes: hover over
    the last node and drag it to the left, in order; release and press
    elsewhere, which inserts a node; drag the new node around and then onto
    the x of the last node, which deletes it; keep moving with the button
    held; release, and press again elsewhere. *)
Definition example_gesture : list GdkEventMotion :=
  [example_move 257 1 0; example_move 231 50 256;
   example_move 65 200 0; example_move 65 200 256; example_move 100 100 256;
   example_move 231 100 256; example_move 240 100 256;
   example_move 129 129 0; example_move 129 129 256].

(** Hovering over the first node of the luminance curve, at the bottom
    left corner, and dragging it to the right edge. *)
Definition example_drag_right : list GdkEventMotion :=
  [example_move 1 257 0; example_move 257 129 256].

(** A drawing area of no width: the widget is as wide as the two insets,
    and the normalised x of every pointer position is 0/0. *)
Definition example_narrow_widget : GtkAllocation := Allocation 2 258.

(** *** A piece whose threshold is not the x of the last node

    The last node of the two node luminance curve is dragged to pixel 123
    of the drawing area, x = 122/256, with autoscale off, and the
    parameters are committed with the stand-ins above, whose fit stores
    the reciprocal of its last position: the threshold of the transform
    is then 1/(1/x), one unit in the last place above x.  The pixel has
    L = 47.65625, so that L/100 is x. *)
Definition example_short_curve : dt_iop_module_t :=
  motion_run (example_module ch_L 0 (-1)) example_widget
    [example_move 257 1 0; example_move 123 129 256].

Definition example_short_memory : memory unit :=
  {| m_data := example_commit (params example_short_curve) example_data;
     m_in := [F32.div (F32.of_int 1525) (F32.of_int 32); f0; f0; f1];
     m_out := repeat f0 4 |}.

Definition example_pixel_roi : dt_iop_roi_t := {| width := 1; height := 1 |}.

(** ** The other handlers of the editor *)

(** What [dt_iop_tonecurve_button_press] reads of its event. *)
Inductive GdkEventType : Type :=
  GDK_BUTTON_PRESS | GDK_2BUTTON_PRESS | GDK_3BUTTON_PRESS | GDK_BUTTON_RELEASE.

Record GdkEventButton : Type := EventButton {
  event_button : Z;
  event_type : GdkEventType
}.

Definition is_2button_press (ty : GdkEventType) : bool :=
  match ty with GDK_2BUTTON_PRESS => true | _ => false end.

(** [for (k = 0; k < d->tonecurve_nodes[ch]; k++)
       { p[ch][k].x = d[ch][k].x; p[ch][k].y = d[ch][k].y; }] *)
Fixpoint reset_nodes (cnt : nat) (k : Z) (src t : list dt_iop_tonecurve_node_t)
    : list dt_iop_tonecurve_node_t :=
  match cnt with
  | O => t
  | S cnt' =>
      let t := set_x t k (x (nget src k)) in
      let t := set_y t k (y (nget src k)) in
      reset_nodes cnt' (k + 1) src t
  end.

(** [dt_iop_tonecurve_button_press]: the module after the handler ran and
    the value it returns.  [factory_params] is [self->factory_params]. *)
Definition dt_iop_tonecurve_button_press (self : dt_iop_module_t)
    (factory_params : dt_iop_tonecurve_params_t) (event : GdkEventButton)
    : dt_iop_module_t * bool :=
  let p := params self in
  let d := factory_params in
  let c := gui_data self in
  let ch := channel c in
  if (event_button event =? 1) && is_2button_press (event_type event) then
    if negb (chroma_locked p c) then
      let n := sel3 (tonecurve_nodes d) ch in
      let t := reset_nodes (Z.to_nat n) 0 (sel3 (tonecurve d) ch)
                 (sel3 (tonecurve p) ch) in
      ({| params := {| tonecurve := upd3 (tonecurve p) ch t;
                       tonecurve_nodes := upd3 (tonecurve_nodes p) ch n;
                       tonecurve_type :=
                         upd3 (tonecurve_type p) ch (sel3 (tonecurve_type d) ch);
                       tonecurve_autoscale_ab := tonecurve_autoscale_ab p;
                       tonecurve_preset := tonecurve_preset p |};
          gui_data := {| channel := channel c; mouse_x := mouse_x c;
                         mouse_y := mouse_y c; selected := -2 |} |}, true)
    else (self, true)
  else (self, false).

(** [tab_switch]: [reset] is the flag [self->dt->gui->reset], [page] the
    page of the notebook, one per channel. *)
Definition tab_switch (self : dt_iop_module_t) (reset : bool)
    (page : tonecurve_channel_t) : dt_iop_module_t :=
  if reset then self
  else {| params := params self;
          gui_data := {| channel := page;
                         mouse_x := mouse_x (gui_data self);
                         mouse_y := mouse_y (gui_data self);
                         selected := selected (gui_data self) |} |}.

(** [autoscale_ab_callback]: [combobox] is what
    [dt_bauhaus_combobox_get] returns for the combo box of the scale of
    the chroma curves. *)
Definition autoscale_ab_callback (self : dt_iop_module_t) (reset : bool)
    (combobox : Z) : dt_iop_module_t :=
  if reset then self
  else {| params := {| tonecurve := tonecurve (params self);
                       tonecurve_nodes := tonecurve_nodes (params self);
                       tonecurve_type := tonecurve_type (params self);
                       tonecurve_autoscale_ab := 1 - combobox;
                       tonecurve_preset := tonecurve_preset (params self) |};
          gui_data := gui_data self |}.

(** What [gui_init] puts in the fields of the editor: the luminance tab,
    the pointer at (-1, -1), no selection. *)
Definition gui_init_data : dt_iop_tonecurve_gui_data_t :=
  {| channel := ch_L; mouse_x := F64.of_int (-1); mouse_y := F64.of_int (-1);
     selected := -1 |}.

(** The events of the editor and a run of them. *)
Inductive editor_event : Type :=
| EvMotion (widget : GtkAllocation) (event : GdkEventMotion)
| EvScroll (direction : GdkScrollDirection)
| EvButton (event : GdkEventButton)
| EvTab (reset : bool) (page : tonecurve_channel_t)
| EvAutoscale (reset : bool) (combobox : Z).

Definition editor_step (factory_params : dt_iop_tonecurve_params_t)
    (self : dt_iop_module_t) (ev : editor_event) : dt_iop_module_t :=
  match ev with
  | EvMotion widget event => dt_iop_tonecurve_motion_notify self widget event
  | EvScroll direction => scrolled self direction
  | EvButton event => fst (dt_iop_tonecurve_button_press self factory_params event)
  | EvTab reset page => tab_switch self reset page
  | EvAutoscale reset combobox => autoscale_ab_callback self reset combobox
  end.

Definition editor_run (factory_params : dt_iop_tonecurve_params_t)
    (self : dt_iop_module_t) (events : list editor_event) : dt_iop_module_t :=
  fold_left (editor_step factory_params) events self.

Definition is_tab_switch (ev : editor_event) : bool :=
  match ev with EvTab _ _ => true | _ => false end.

(** Every channel is an array of 20 places of which between 2 and 20 are
    in use. *)
Definition shape_ok (p : dt_iop_tonecurve_params_t) : bool :=
  forallb (fun ch =>
             (Z.of_nat (length (sel3 (tonecurve p) ch)) =? MAXNODES)
             && (2 <=? sel3 (tonecurve_nodes p) ch)
             && (sel3 (tonecurve_nodes p) ch <=? MAXNODES))
          [ch_L; ch_a; ch_b].

(** The channels have that shape and the selection is -2, -1 or a place
    of the array. *)
Definition shape_inv (self : dt_iop_module_t) : bool :=
  shape_ok (params self)
  && (-2 <=? selected (gui_data self))
  && (selected (gui_data self) <? MAXNODES).

(** The squared distance of the hit test. *)
Definition hit_distance (t : list dt_iop_tonecurve_node_t) (mx my : float) (k : Z)
    : float :=
  let dy := F32.sub my (y (nget t k)) in
  let dx := F32.sub mx (x (nget t k)) in
  F32.add (F32.mul dy dy) (F32.mul dx dx).

Definition hit_radius2 : float := F32.mul f0_04 f0_04.

(** A double click of button 1, and the luminance curve after the drag
    that left its two nodes at the same x. *)
Definition example_double_click : GdkEventButton :=
  {| event_button := 1; event_type := GDK_2BUTTON_PRESS |}.

Definition example_disordered : dt_iop_module_t :=
  motion_run (example_module ch_L 1 (-1)) example_widget example_drag_right.

(** A run over all the handlers: a hover over node 1 of the chroma curve
    a, a drag, the wheel, a double click, a change of tab and of the
    scale of the chroma curves. *)
Definition example_events : list editor_event :=
  [ EvAutoscale false 1;
    EvMotion example_widget (example_move 129 129 0);
    EvMotion example_widget (example_move 140 120 GDK_BUTTON1_MASK);
    EvScroll GDK_SCROLL_UP;
    EvMotion example_widget (example_move 30 200 0);
    EvMotion example_widget (example_move 30 200 GDK_BUTTON1_MASK);
    EvButton example_double_click;
    EvTab false ch_L;
    EvAutoscale false 0;
    EvMotion example_widget (example_move 200 60 GDK_BUTTON1_MASK) ].

(** The run up to the change of tab. *)
Definition example_events_on_tab : list editor_event := firstn 7 example_events.

(** Two channels are the same or not. *)
Definition channel_eq_dec (c1 c2 : tonecurve_channel_t) : {c1 = c2} + {c1 <> c2}.
Proof. decide equality. Defined.

(** *** More concrete pieces

    The piece of [example_memory] with autoscale off, and a buffer of
    two pixels of five floats each, over an output buffer of twelve ones;
    its second pixel is the first pixel of [example_in]. *)
Definition example_memory_ab : memory unit :=
  {| m_data := {| curve := curve example_data;
                  curve_nodes := curve_nodes example_data;
                  curve_type := curve_type example_data;
                  table := table example_data;
                  unbounded_coeffs := unbounded_coeffs example_data;
                  autoscale_ab := 0 |};
     m_in := example_in; m_out := repeat f0 12 |}.

Definition example_in_5 : list float :=
  [f0_5; F32.of_int 3; F32.of_int 4; f1; F32.of_int 9;
   F32.of_int 50; F32.of_int 10; F32.of_int (-10); f1; F32.of_int 9].

Definition example_memory_5 : memory unit :=
  {| m_data := example_data; m_in := example_in_5; m_out := repeat f1 12 |}.

Definition example_roi_5 : dt_iop_roi_t := {| width := 2; height := 1 |}.

(** *** The curve a channel is sampled from *)

Section CurveToSample.

Variable dt_draw_curve_t : Type.
Variable dt_draw_curve_new : float -> float -> curve_type_t -> dt_draw_curve_t.
Variable dt_draw_curve_add_point :
  dt_draw_curve_t -> float -> float -> dt_draw_curve_t.
Variable dt_draw_curve_set_point :
  dt_draw_curve_t -> Z -> float -> float -> dt_draw_curve_t.

(** The two branches of [commit_params] for a channel: the old curve with
    its points set anew when type and count are those of the parameters,
    a new curve with the points added otherwise. *)
Definition curve_to_sample (p : dt_iop_tonecurve_params_t)
    (d : dt_iop_tonecurve_data_t dt_draw_curve_t) (ch : tonecurve_channel_t)
    : dt_draw_curve_t :=
  let t := sel3 (tonecurve p) ch in
  let n := sel3 (tonecurve_nodes p) ch in
  if negb (type_eqb (sel3 (curve_type d) ch) (sel3 (tonecurve_type p) ch))
     || negb (sel3 (curve_nodes d) ch =? n)
  then add_points dt_draw_curve_t dt_draw_curve_add_point (Z.to_nat n) 0 t
         (dt_draw_curve_new f0 f1 (sel3 (tonecurve_type p) ch))
  else set_points dt_draw_curve_t dt_draw_curve_set_point (Z.to_nat n) 0 t (sel3 (curve d) ch).

End CurveToSample.

(** *** A curve library that records the points

    A curve is the list of its points; sampling leaves the array as it
    is. *)
Definition example_curve : Type := list (float * float).

Definition example_curve_new (lo hi : float) (ty : curve_type_t) : example_curve := [].

Definition example_curve_add_point (c : example_curve) (px py : float)
    : example_curve :=
  c ++ [(px, py)].

Definition example_curve_set_point (c : example_curve) (k : Z) (px py : float)
    : example_curve :=
  aset c k (px, py).

Definition example_curve_calc_values (c : example_curve) (lo hi : float) (res : Z)
    (ys : list float) : example_curve * list float := (c, ys).

Definition example_curve_data : dt_iop_tonecurve_data_t example_curve :=
  init_pipe example_curve_new example_curve_add_point default_params [f1; f100; f1].

Definition example_curve_commit (p : dt_iop_tonecurve_params_t)
    (d : dt_iop_tonecurve_data_t example_curve) : dt_iop_tonecurve_data_t example_curve :=
  commit_params example_curve_new example_curve_add_point example_curve_set_point
    example_curve_calc_values example_estimate_exp p d.

(** ** The colour picker and the crossing events *)

(** [picker_scale]: the first three floats of [out] after the call. *)
Definition picker_scale (in_ out : list float) : list float :=
  let out := aset out 0 (fCLAMP (F32.div (aget f0 in_ 0) f100) f0 f1) in
  let out := aset out 1
               (fCLAMP (F32.div (F32.add (aget f0 in_ 1) f128) f256) f0 f1) in
  aset out 2 (fCLAMP (F32.div (F32.add (aget f0 in_ 2) f128) f256) f0 f1).

(** The value [picker_scale] clamps for channel [c]. *)
Definition picker_scaled (in_ : list float) (c : Z) : float :=
  if c =? 0 then F32.div (aget f0 in_ 0) f100
  else F32.div (F32.add (aget f0 in_ c) f128) f256.

(** [fabsf]. *)
Definition fabsf (a : float) : float := SFabs a.

(** [dt_iop_tonecurve_enter_notify] and [dt_iop_tonecurve_leave_notify]:
    [c->mouse_x = fabsf(c->mouse_x)] and [c->mouse_x = -fabsf(c->mouse_x)];
    the stored [double] is narrowed for [fabsf] and the result widened. *)
Definition dt_iop_tonecurve_enter_notify (c : dt_iop_tonecurve_gui_data_t)
    : dt_iop_tonecurve_gui_data_t :=
  {| channel := channel c;
     mouse_x := double_of_float (fabsf (float_of_double (mouse_x c)));
     mouse_y := double_of_float (fabsf (float_of_double (mouse_y c)));
     selected := selected c |}.

Definition dt_iop_tonecurve_leave_notify (c : dt_iop_tonecurve_gui_data_t)
    : dt_iop_tonecurve_gui_data_t :=
  {| channel := channel c;
     mouse_x := double_of_float (SFopp (fabsf (float_of_double (mouse_x c))));
     mouse_y := double_of_float (SFopp (fabsf (float_of_double (mouse_y c))));
     selected := selected c |}.

(** ** The OpenCL path *)

(** [process_cl] talks to the OpenCL runtime, which is not part of this
    file.  What the runtime returns is a parameter of the call, and the
    embedding records the calls [process_cl] makes, in order, with the
    arguments that matter. *)
Definition cl_mem : Type := option Z.            (* [None] is [NULL] *)

Definition CL_SUCCESS : Z := 0.

Inductive kernel_arg : Type :=
| ArgMem (m : cl_mem)
| ArgInt (v : Z).

Inductive cl_call : Type :=
| CopyHostToDevice (ch : tonecurve_channel_t) (result : cl_mem)
| CopyHostToDeviceConstant (result : cl_mem)
| SetKernelArg (num : Z) (arg : kernel_arg)
| EnqueueKernel2d (err : Z)
| ReleaseMemObject (m : cl_mem).

(** What the runtime answers: the buffers of the three tables and of the
    coefficients, and the status of the launch. *)
Record cl_results : Type := ClResults {
  res_L : cl_mem;
  res_a : cl_mem;
  res_b : cl_mem;
  res_coeffs : cl_mem;
  res_err : Z
}.

Definition is_null (m : cl_mem) : bool :=
  match m with None => true | Some _ => false end.

(** [if (m != NULL) dt_opencl_release_mem_object(m);] *)
Definition release_if_set (m : cl_mem) : list cl_call :=
  if is_null m then [] else [ReleaseMemObject m].

(** The label [error:] of [process_cl]. *)
Definition process_cl_error (dev_L dev_a dev_b dev_coeffs : cl_mem) : list cl_call :=
  release_if_set dev_L ++ release_if_set dev_a ++ release_if_set dev_b
  ++ release_if_set dev_coeffs.

(** [process_cl]: the calls to the runtime and the returned flag.  The
    sizes of the launch come from macros of the runtime's header and are
    left out of the record of the launch. *)
Definition process_cl (autoscale : Z) (dev_in dev_out : cl_mem)
    (roi_in : dt_iop_roi_t) (r : cl_results) : list cl_call * bool :=
  let dev_coeffs : cl_mem := None in
  let dev_L := res_L r in
  let dev_a := res_a r in
  let dev_b := res_b r in
  let calls := [CopyHostToDevice ch_L dev_L; CopyHostToDevice ch_a dev_a;
                CopyHostToDevice ch_b dev_b] in
  if is_null dev_L || is_null dev_a || is_null dev_b
  then (calls ++ process_cl_error dev_L dev_a dev_b dev_coeffs, false)
  else
    let dev_coeffs := res_coeffs r in
    let calls := calls ++ [CopyHostToDeviceConstant dev_coeffs] in
    if is_null dev_coeffs
    then (calls ++ process_cl_error dev_L dev_a dev_b dev_coeffs, false)
    else
      let calls :=
        calls ++ [SetKernelArg 0 (ArgMem dev_in); SetKernelArg 1 (ArgMem dev_out);
                  SetKernelArg 2 (ArgInt (width roi_in));
                  SetKernelArg 3 (ArgInt (height roi_in));
                  SetKernelArg 4 (ArgMem dev_L); SetKernelArg 5 (ArgMem dev_a);
                  SetKernelArg 6 (ArgMem dev_b); SetKernelArg 7 (ArgInt autoscale);
                  SetKernelArg 8 (ArgMem dev_coeffs);
                  EnqueueKernel2d (res_err r)] in
      if negb (res_err r =? CL_SUCCESS)
      then (calls ++ process_cl_error dev_L dev_a dev_b dev_coeffs, false)
      else (calls ++ [ReleaseMemObject dev_L; ReleaseMemObject dev_a;
                      ReleaseMemObject dev_b; ReleaseMemObject dev_coeffs], true).

(** How often a run obtained the buffer [h], released it, released
    [NULL], and launched the kernel. *)
Definition obtained (h : Z) (call : cl_call) : bool :=
  match call with
  | CopyHostToDevice _ (Some m) | CopyHostToDeviceConstant (Some m) => m =? h
  | _ => false
  end.

Definition released (h : Z) (call : cl_call) : bool :=
  match call with ReleaseMemObject (Some m) => m =? h | _ => false end.

Definition released_null (call : cl_call) : bool :=
  match call with ReleaseMemObject None => true | _ => false end.

Definition is_launch (call : cl_call) : bool :=
  match call with EnqueueKernel2d _ => true | _ => false end.

Definition count_calls (f : cl_call -> bool) (calls : list cl_call) : nat :=
  length (List.filter f calls).

(** No call after the first release uses a buffer: what follows a
    release is releases only. *)
Fixpoint releases_last (calls : list cl_call) : bool :=
  match calls with
  | [] => true
  | ReleaseMemObject _ :: rest =>
      forallb (fun call => match call with ReleaseMemObject _ => true | _ => false end)
              rest
  | _ :: rest => releases_last rest
  end.

Definition example_cl_results : cl_results :=
  {| res_L := Some 11; res_a := Some 12; res_b := None; res_coeffs := Some 14;
     res_err := 0 |}.

(** * The database of the library

    [dt_database_init] and its two helpers, from the first part of
    [src/common/database.c].  The file system, the configuration, sqlite
    and glib are not part of the file: the embedding keeps the state of
    the world the functions look at (which paths exist, which are regular
    files, the configured database name), takes what the calls into the
    world answer as parameters, and records the calls to sqlite and the
    releases of memory in order.  Messages on [stderr] are left out. *)

Section Database.

(** [DT_MAX_PATH_LEN], from [common/darktable.h]. *)
Variable DT_MAX_PATH_LEN : nat.

(** [snprintf(buf, size, ...)] leaves in [buf] the first [size - 1]
    characters of the formatted text [s]. *)
Definition snprintf (size : nat) (s : string) : string :=
  String.substring 0 (size - 1) s.

(** [s[0] == '/'] *)
Definition is_absolute (s : string) : bool := String.prefix "/" s.

(** The directories the functions ask for: [getenv("HOME")] (taken to be
    set), [dt_loc_get_datadir], [dt_loc_get_user_config_dir] and
    [dt_loc_get_user_cache_dir]. *)
Record dt_loc_t : Type := Loc {
  home : string;
  datadir : string;
  user_config_dir : string;
  user_cache_dir : string
}.

(** The world: the paths that exist, the paths that are regular files
    and the value of the configuration key [database], if set. *)
Record world : Type := World {
  file_exists : string -> bool;
  file_regular : string -> bool;
  conf_database : option string
}.

(** [rename(src, dest)] is a call into the C library.  What it does to
    the file system depends on what [src] is (the code only tests that it
    exists, so it may be a directory, and then everything below it moves
    as well) and on the file system itself.  The embedding does not
    decide that: the file system a call leaves is an answer of the world,
    asked with the two names of the call, and [None] is the answer of a
    call that fails and changes nothing. *)
Record files_t : Type := Files {
  exists_after : string -> bool;
  regular_after : string -> bool
}.

Definition rename_answer_t : Type := string -> string -> option files_t.

Definition rename (src dest : string) (answer : rename_answer_t) (w : world) : world :=
  match answer src dest with
  | Some f => {| file_exists := exists_after f; file_regular := regular_after f;
                 conf_database := conf_database w |}
  | None => w
  end.

(** [unlink(path)]; [ok] tells whether the call succeeds, and a failed
    call changes nothing. *)
Definition unlink (path : string) (ok : bool) (w : world) : world :=
  if ok then
    {| file_exists := fun p => if String.eqb p path then false else file_exists w p;
       file_regular := fun p => if String.eqb p path then false else file_regular w p;
       conf_database := conf_database w |}
  else w.

(** [dt_conf_set_string("database", v)] *)
Definition dt_conf_set_database (v : string) (w : world) : world :=
  {| file_exists := file_exists w; file_regular := file_regular w;
     conf_database := Some v |}.

(** [_database_migrate_to_xdg_structure] *)
Definition _database_migrate_to_xdg_structure (loc : dt_loc_t)
    (rename_answer : rename_answer_t) (w : world) : world :=
  match conf_database w with
  | Some conf_db =>
      if negb (is_absolute conf_db) then
        let dbfilename := snprintf DT_MAX_PATH_LEN (home loc +:+ "/" +:+ conf_db) in
        if file_exists w dbfilename then
          let destdbname :=
            snprintf DT_MAX_PATH_LEN (datadir loc +:+ "/" +:+ "library.db") in
          if negb (file_exists w destdbname) then
            dt_conf_set_database "library.db"
              (rename dbfilename destdbname rename_answer w)
          else w
        else w
      else w
  | None => w
  end.

(** [_database_delete_mipmaps_files]; [access(path, F_OK) != -1] is that
    the path exists. *)
Definition _database_delete_mipmaps_files (loc : dt_loc_t)
    (unlink_ok unlink_fallback_ok : bool) (w : world) : world :=
  let mipmapfilename := snprintf DT_MAX_PATH_LEN (user_cache_dir loc +:+ "/mipmaps") in
  if file_exists w mipmapfilename then
    let w := unlink mipmapfilename unlink_ok w in
    let mipmapfilename :=
      snprintf DT_MAX_PATH_LEN (user_cache_dir loc +:+ "/mipmaps.fallback") in
    if file_exists w mipmapfilename then unlink mipmapfilename unlink_fallback_ok w
    else w
  else w.

(** [dt_database_t]; [handle] is the connection [sqlite3_open] stored. *)
Record dt_database_t : Type := Database {
  is_new_database : bool;
  already_locked : bool;
  dbfilename : string;
  handle : Z
}.

Definition SQLITE_ERROR : Z := 1.

(** The calls [dt_database_init] makes to sqlite and the memory it
    releases. *)
Inductive db_call : Type :=
| SqliteOpen (filename : string)
| SqliteExec (sql : string)
| SqliteClose (connection : Z)
| FreeDbname
| FreeDb.

(** What the world answers to one call of [dt_database_init]. *)
Record db_answers : Type := Answers {
  rename_answers : rename_answer_t;
  unlink_succeeds : bool;
  unlink_fallback_succeeds : bool;
  open_status : Z;          (* what [sqlite3_open] returns *)
  open_connection : Z;      (* what it stores in [db->handle] *)
  lock_status : Z           (* what [sqlite3_exec] of "delete from lock" returns *)
}.

(** The file name [dt_database_init] builds. *)
Definition database_filename (alternative : option string) (loc : dt_loc_t)
    (w : world) : string :=
  match alternative with
  | None =>
      match conf_database w with
      | None => snprintf DT_MAX_PATH_LEN (user_config_dir loc +:+ "/library.db")
      | Some dbname =>
          if negb (is_absolute dbname)
          then snprintf DT_MAX_PATH_LEN (user_config_dir loc +:+ "/" +:+ dbname)
          else snprintf DT_MAX_PATH_LEN dbname
      end
  | Some alt => snprintf DT_MAX_PATH_LEN alt
  end.

(** The world [dt_database_init] builds the file name in: the one its
    two helpers leave. *)
Definition world_after_helpers (loc : dt_loc_t) (a : db_answers) (w : world) : world :=
  _database_delete_mipmaps_files loc (unlink_succeeds a) (unlink_fallback_succeeds a)
    (_database_migrate_to_xdg_structure loc (rename_answers a) w).

(** [dt_database_init]: the returned database ([None] is [NULL]), the
    calls in order and the world the two helpers leave (what sqlite does
    to the file system is not part of it). *)
Definition dt_database_init (alternative : option string) (loc : dt_loc_t)
    (a : db_answers) (w : world)
    : option dt_database_t * list db_call * world :=
  let w := _database_migrate_to_xdg_structure loc (rename_answers a) w in
  let w := _database_delete_mipmaps_files loc (unlink_succeeds a)
             (unlink_fallback_succeeds a) w in
  let name := database_filename alternative loc w in
  let db := {| is_new_database := false; already_locked := false;
               dbfilename := name; handle := 0 |} in
  let db := if negb (file_regular w name)
            then {| is_new_database := true; already_locked := already_locked db;
                    dbfilename := dbfilename db; handle := handle db |}
            else db in
  let calls := [SqliteOpen (dbfilename db)] in
  let db := {| is_new_database := is_new_database db;
               already_locked := already_locked db;
               dbfilename := dbfilename db; handle := open_connection a |} in
  if negb (open_status a =? 0) then
    (None, calls ++ [SqliteClose (handle db); FreeDbname; FreeDb], w)
  else
    let calls := calls ++ [SqliteExec "delete from lock"] in
    if lock_status a >? SQLITE_ERROR then
      (Some {| is_new_database := is_new_database db; already_locked := true;
               dbfilename := dbfilename db; handle := handle db |},
       calls ++ [SqliteClose (handle db); FreeDbname], w)
    else
      (Some db,
       calls ++ [SqliteExec "attach database ':memory:' as memory";
                 SqliteExec "PRAGMA synchronous = OFF";
                 SqliteExec "PRAGMA journal_mode = MEMORY";
                 SqliteExec "PRAGMA page_size = 32768";
                 FreeDbname], w).

(** [dt_database_destroy] *)
Definition dt_database_destroy (db : dt_database_t) : list db_call :=
  [SqliteClose (handle db); FreeDb].

(** Counting calls, and the shape of a run: nothing is executed on a
    connection after it was closed. *)
Definition count_db (f : db_call -> bool) (calls : list db_call) : nat :=
  length (List.filter f calls).

Definition is_close (connection : Z) (call : db_call) : bool :=
  match call with SqliteClose c => c =? connection | _ => false end.

Definition is_exec (call : db_call) : bool :=
  match call with SqliteExec _ => true | _ => false end.

Definition is_free_dbname (call : db_call) : bool :=
  match call with FreeDbname => true | _ => false end.

Definition is_free_db (call : db_call) : bool :=
  match call with FreeDb => true | _ => false end.

Fixpoint no_exec_after_close (calls : list db_call) : bool :=
  match calls with
  | [] => true
  | SqliteClose _ :: rest => negb (existsb is_exec rest)
  | _ :: rest => no_exec_after_close rest
  end.

(** The migration applies: the configured name is relative, the file it
    names under the home directory exists and the destination does
    not. *)
Definition migration_applies (loc : dt_loc_t) (w : world) : bool :=
  match conf_database w with
  | Some conf_db =>
      negb (is_absolute conf_db)
      && file_exists w (snprintf DT_MAX_PATH_LEN (home loc +:+ "/" +:+ conf_db))
      && negb (file_exists w
                 (snprintf DT_MAX_PATH_LEN (datadir loc +:+ "/" +:+ "library.db")))
  | None => false
  end.

End Database.

(** A world for the migration: the old database under the home
    directory, named by a relative configuration value; the data
    directory and the configuration directory of the user differ. *)
Definition example_loc : dt_loc_t :=
  {| home := "/home/u"; datadir := "/usr/share/darktable";
     user_config_dir := "/home/u/.config/darktable";
     user_cache_dir := "/home/u/.cache/darktable" |}.

Definition example_world : world :=
  {| file_exists := fun p => String.eqb p "/home/u/.darktabledb"
                             || String.eqb p "/home/u/.cache/darktable/mipmaps";
     file_regular := fun p => String.eqb p "/home/u/.darktabledb";
     conf_database := Some ".darktabledb" |}.

(** The answers of a world in which every call succeeds; the rename
    moves the one file. *)
Definition example_rename : rename_answer_t :=
  fun src dest =>
    Some {| exists_after := fun p => String.eqb p dest
                                     || String.eqb p "/home/u/.cache/darktable/mipmaps";
            regular_after := fun p => String.eqb p dest |}.

Definition example_answers : db_answers :=
  {| rename_answers := example_rename; unlink_succeeds := true;
     unlink_fallback_succeeds := true; open_status := 0; open_connection := 7;
     lock_status := 0 |}.

(** * Properties *)

(** ** The migration of version 1 parameters *)

Lemma legacy_params_status (o : dt_iop_tonecurve_1_params_t) (ov : Z)
    (n : dt_iop_tonecurve_params_t) (nv : Z) :
  snd (legacy_params o ov n nv) = 0 <-> ov = 1 /\ nv = 3.
Proof.
  unfold legacy_params.
  destruct (ov =? 1) eqn:Ho; destruct (nv =? 3) eqn:Hn; simpl;
    rewrite ?Z.eqb_eq, ?Z.eqb_neq in *; split; intros; try lia; intuition lia.
Qed.

Lemma small_index (k : Z) :
  0 <= k < 6 -> k = 0 \/ k = 1 \/ k = 2 \/ k = 3 \/ k = 4 \/ k = 5.
Proof. lia. Qed.

(** C8.  The migration succeeds exactly for the version pair (1, 3).  Then
    the six old x and y values are the first six nodes of the luminance
    channel, whose node count is 6 and whose type is CUBIC_SPLINE, both
    chroma channels are the three node default (0,0), (0.5,0.5), (1,1) of
    type MONOTONE_HERMITE, autoscale is 1, the preset field is the old one
    and the status is 0.  For every other pair the status is 1 and the new
    parameters are left as they were. *)
Theorem legacy_params_exactly_1_to_3 (o : dt_iop_tonecurve_1_params_t) (ov : Z)
    (n : dt_iop_tonecurve_params_t) (nv : Z) :
  let r := legacy_params o ov n nv in
  (snd r = 0 <-> ov = 1 /\ nv = 3) /\
  (ov = 1 /\ nv = 3 ->
     snd r = 0 /\
     (forall k, 0 <= k < 6 ->
        nget (sel3 (tonecurve (fst r)) ch_L) k
        = Node (aget f0 (tonecurve_x o) k) (aget f0 (tonecurve_y o) k)) /\
     sel3 (tonecurve_nodes (fst r)) ch_L = 6 /\
     sel3 (tonecurve_type (fst r)) ch_L = CUBIC_SPLINE /\
     (forall ch, ch <> ch_L ->
        firstn 3 (sel3 (tonecurve (fst r)) ch)
        = [Node f0 f0; Node f0_5 f0_5; Node f1 f1] /\
        sel3 (tonecurve_nodes (fst r)) ch = 3 /\
        sel3 (tonecurve_type (fst r)) ch = MONOTONE_HERMITE) /\
     tonecurve_autoscale_ab (fst r) = 1 /\
     tonecurve_preset (fst r) = tonecurve_preset_1 o) /\
  (~ (ov = 1 /\ nv = 3) -> r = (n, 1)).
Proof.
  intros r. split; [apply legacy_params_status|]. split.
  - intros [-> ->]. subst r. unfold legacy_params. simpl.
    repeat split; try reflexivity.
    + intros k Hk.
      destruct (small_index k Hk) as [-> | [-> | [-> | [-> | [-> | ->]]]]];
        reflexivity.
    + destruct ch; [congruence | reflexivity | reflexivity].
    + destruct ch; [congruence | reflexivity | reflexivity].
    + destruct ch; [congruence | reflexivity | reflexivity].
  - intros Hne. subst r. unfold legacy_params.
    destruct (ov =? 1) eqn:Ho; destruct (nv =? 3) eqn:Hn; simpl; try reflexivity.
    rewrite Z.eqb_eq in Ho, Hn. tauto.
Qed.

Lemma legacy_params_exactly_1_to_3_witness :
  let r := legacy_params example_old_params 1 default_params 3 in
  (snd r = 0 /\
   nget (sel3 (tonecurve (fst r)) ch_L) 4
   = Node (aget f0 (tonecurve_x example_old_params) 4)
          (aget f0 (tonecurve_y example_old_params) 4) /\
   sel3 (tonecurve_nodes (fst r)) ch_L = 6 /\
   sel3 (tonecurve_nodes (fst r)) ch_a = 3 /\
   tonecurve_preset (fst r) = 7) /\
  legacy_params example_old_params 2 default_params 3 = (default_params, 1).
Proof.
  destruct (legacy_params_exactly_1_to_3 example_old_params 1 default_params 3)
    as (_ & Hok & _).
  destruct (legacy_params_exactly_1_to_3 example_old_params 2 default_params 3)
    as (_ & _ & Hfail).
  destruct Hok as (Hret & Hcopy & HnL & _ & Hchroma & _ & Hpreset);
    [split; reflexivity|].
  split; [|apply Hfail; intros [H _]; discriminate H].
  split; [exact Hret|]. split; [apply Hcopy; lia|]. split; [exact HnL|].
  split; [|exact Hpreset].
  apply (Hchroma ch_a). discriminate.
Defined.

(** ** Order of the floating point comparisons *)

Ltac cmp_cases :=
  change (Pos.compare_cont Eq) with Pos.compare in *;
  repeat match goal with
  | H : context [(?a ?= ?b)%Z] |- _ => destruct (Z.compare_spec a b); simpl in H
  | H : context [(?a ?= ?b)%positive] |- _ => destruct (Pos.compare_spec a b); simpl in H
  | |- context [(?a ?= ?b)%Z] => destruct (Z.compare_spec a b); simpl
  | |- context [(?a ?= ?b)%positive] => destruct (Pos.compare_spec a b); simpl
  end;
  try discriminate; try reflexivity; try lia.

Lemma SFcompare_antisym (a b : spec_float) :
  SFcompare b a = option_map CompOpp (SFcompare a b).
Proof.
  destruct a as [sa|sa| |sa ma ea], b as [sb|sb| |sb mb eb]; simpl;
    try destruct sa; try destruct sb; simpl; try reflexivity; cmp_cases.
Qed.

Lemma SFcompare_trans_lt (a b c : spec_float) :
  SFcompare a b = Some Lt -> SFcompare b c = Some Lt -> SFcompare a c = Some Lt.
Proof.
  destruct a as [sa|sa| |sa ma ea], b as [sb|sb| |sb mb eb], c as [sc|sc| |sc mc ec];
    simpl; try destruct sa; try destruct sb; try destruct sc; simpl;
    try congruence; intros H1 H2; f_equal; cmp_cases.
Qed.

Lemma flt_trans (a b c : float) : flt a b = true -> flt b c = true -> flt a c = true.
Proof.
  unfold flt, SFltb. intros H1 H2.
  rewrite (SFcompare_trans_lt a b c); [reflexivity | |].
  - destruct (SFcompare a b) as [[]|]; congruence.
  - destruct (SFcompare b c) as [[]|]; congruence.
Qed.

(** [a <= b] excludes [a > b]. *)
Lemma fle_not_fgt (a b : float) : fle a b = true -> fgt a b = false.
Proof.
  unfold fle, fgt, SFleb, SFltb. rewrite (SFcompare_antisym a b).
  destruct (SFcompare a b) as [[]|]; simpl; congruence.
Qed.

(** Two numbers that are not NaN are comparable. *)
Lemma SFcompare_some (a b : float) :
  is_nan a = false -> is_nan b = false -> exists c, SFcompare a b = Some c.
Proof.
  destruct a, b; simpl; try discriminate; intros _ _; eexists; reflexivity.
Qed.

(** Without a NaN, [a <= b] is what is left when [a > b] fails. *)
Lemma not_fgt_fle (a b : float) :
  is_nan a = false -> is_nan b = false -> fgt a b = false -> fle a b = true.
Proof.
  intros Ha Hb. unfold fle, fgt, SFleb, SFltb. rewrite (SFcompare_antisym a b).
  destruct (SFcompare_some a b Ha Hb) as [c ->]. destruct c; simpl; congruence.
Qed.

(** Multiplying a binary32 number by [1.0f] returns it. *)
Lemma digits_shift23 (m : positive) :
  Zpos (digits2_pos (m~0~0~0~0~0~0~0~0~0~0~0~0~0~0~0~0~0~0~0~0~0~0~0))
  = Zpos (digits2_pos m) + 23.
Proof. cbn [digits2_pos]. lia. Qed.

Lemma shr_23 (m : positive) :
  SpecFloat.iter_pos shr_1 23
    (shr_record_of_loc (Zpos (m~0~0~0~0~0~0~0~0~0~0~0~0~0~0~0~0~0~0~0~0~0~0~0)) loc_Exact)
  = shr_record_of_loc (Zpos m) loc_Exact.
Proof. reflexivity. Qed.

Lemma mul_one_valid (v : float) :
  valid_binary F32.prec F32.emax v = true -> F32.mul f1 v = v.
Proof.
  destruct v as [s|s| |s m e]; try reflexivity.
  unfold valid_binary, bounded, canonical_mantissa. intros H.
  apply andb_true_iff in H as [Hc Hb]. apply Z.eqb_eq in Hc.
  change f1 with (S754_finite false 8388608 (-23)).
  unfold F32.mul, SFmul.
  change (xorb false s) with s.
  change (Pos.mul 8388608 m)
    with (m~0~0~0~0~0~0~0~0~0~0~0~0~0~0~0~0~0~0~0~0~0~0~0)%positive.
  unfold binary_round_aux, shr_fexp. unfold Zdigits2 at 1.
  rewrite digits_shift23.
  replace (Z.pos (digits2_pos m) + 23 + (-23 + e))
    with (Z.pos (digits2_pos m) + e) by lia.
  rewrite Hc.
  replace (e - (-23 + e)) with 23 by lia.
  unfold shr at 1. rewrite shr_23.
  replace (-23 + e + 23) with e by lia.
  cbn [shr_record_of_loc shr_m loc_of_shr_record round_nearest_even Zdigits2].
  rewrite Hc, Z.sub_diag.
  cbn [shr shr_m]. rewrite Hb. reflexivity.
Qed.

(** ** Arrays *)

Lemma aget_aset_eq {A : Type} (d : A) (a : list A) (i : Z) (v : A) :
  0 <= i < Z.of_nat (length a) -> aget d (aset a i v) i = v.
Proof.
  intros Hi. unfold aget, aset.
  destruct (i <? 0) eqn:Hneg; [apply Z.ltb_lt in Hneg; lia|].
  rewrite nth_lookup, list_lookup_insert_eq by lia. reflexivity.
Qed.

Lemma aget_aset_ne {A : Type} (d : A) (a : list A) (i j : Z) (v : A) :
  i <> j -> aget d (aset a i v) j = aget d a j.
Proof.
  intros Hne. unfold aget, aset.
  destruct (j <? 0) eqn:Hj; [reflexivity|].
  destruct (i <? 0) eqn:Hi; [reflexivity|].
  apply Z.ltb_ge in Hj, Hi.
  rewrite !nth_lookup, list_lookup_insert_ne by lia. reflexivity.
Qed.

Lemma length_aset {A : Type} (a : list A) (i : Z) (v : A) :
  length (aset a i v) = length a.
Proof. unfold aset. destruct (i <? 0); [reflexivity | apply length_insert]. Qed.

Ltac array_simpl :=
  repeat first
    [ rewrite length_aset
    | rewrite aget_aset_ne by lia
    | rewrite aget_aset_eq by (rewrite ?length_aset; lia) ].

(** ** The pixel transform *)

Section PixelTransform.

Variable dt_draw_curve_t : Type.
Variable dt_iop_eval_exp : list float -> float -> float.

Local Abbreviation memory := (memory dt_draw_curve_t).
Local Abbreviation process_pixel := (process_pixel dt_iop_eval_exp).
Local Abbreviation process_row := (process_row dt_iop_eval_exp).
Local Abbreviation process_rows := (process_rows dt_iop_eval_exp).
Local Abbreviation process := (process dt_iop_eval_exp).
Local Abbreviation pixel_out := (pixel_out dt_iop_eval_exp).

Lemma frame_refl (m : memory) : frame m m.
Proof. repeat split. Qed.

Lemma frame_trans (m1 m2 m3 : memory) : frame m1 m2 -> frame m2 m3 -> frame m1 m3.
Proof. unfold frame. intros (-> & -> & ->) (-> & -> & ->). repeat split. Qed.

Lemma frame_store (m : memory) (off : Z) (v : float) : frame m (store m off v).
Proof. unfold frame, store. simpl. rewrite length_aset. repeat split. Qed.

Lemma process_pixel_frame (xm la : float) (m : memory) (in_ out : Z) :
  frame m (process_pixel xm la m in_ out).
Proof.
  unfold process_pixel.
  destruct (autoscale_ab (m_data m) =? 0); [|destruct (fgt _ f0_01)];
    repeat (eapply frame_trans; [|apply frame_store]); apply frame_refl.
Qed.

Lemma process_pixel_outside (xm la : float) (m : memory) (in_ out i : Z) :
  i < out \/ out + 3 < i ->
  aget f0 (m_out (process_pixel xm la m in_ out)) i = aget f0 (m_out m) i.
Proof.
  intros Hi. unfold process_pixel.
  destruct (autoscale_ab (m_data m) =? 0); [|destruct (fgt _ f0_01)];
    unfold store; simpl; array_simpl; reflexivity.
Qed.

Lemma process_pixel_inside (xm la : float) (m : memory) (in_ out c : Z) :
  0 <= out -> out + 3 < Z.of_nat (length (m_out m)) -> 0 <= c < 4 ->
  aget f0 (m_out (process_pixel xm la m in_ out)) (out + c)
  = aget f0 (pixel_out (m_data m) xm la
               (pixel_at (m_in m) in_ 0) (pixel_at (m_in m) in_ 1)
               (pixel_at (m_in m) in_ 2) (pixel_at (m_in m) in_ 3)) c.
Proof.
  intros Hout Hlen Hc. unfold process_pixel, pixel_out, pixel_at.
  assert (Hcases : c = 0 \/ c = 1 \/ c = 2 \/ c = 3) by lia.
  destruct (autoscale_ab (m_data m) =? 0); [|destruct (fgt _ f0_01)];
    unfold store; simpl;
    destruct Hcases as [-> | [-> | [-> | ->]]];
    array_simpl; reflexivity.
Qed.

Lemma process_row_frame (cnt : nat) (ch : Z) (xm la : float) (m : memory) (in_ out : Z) :
  frame m (process_row cnt ch xm la m in_ out).
Proof.
  revert m in_ out. induction cnt as [|cnt IH]; intros m in_ out; simpl.
  - apply frame_refl.
  - eapply frame_trans; [apply process_pixel_frame | apply IH].
Qed.

(** A row leaves everything outside its own stretch of the buffer alone. *)
Lemma process_row_outside (cnt : nat) (ch : Z) (xm la : float) (m : memory)
    (in_ out i : Z) :
  4 <= ch -> i < out \/ out + Z.of_nat cnt * ch <= i ->
  aget f0 (m_out (process_row cnt ch xm la m in_ out)) i = aget f0 (m_out m) i.
Proof.
  intros Hch. revert m in_ out.
  induction cnt as [|cnt IH]; intros m in_ out Hi; simpl; [reflexivity|].
  rewrite IH by nia. apply process_pixel_outside. nia.
Qed.

(** Pixel [t] of a row holds the image of input pixel [t]. *)
Lemma process_row_inside (cnt : nat) (ch : Z) (xm la : float) (m : memory)
    (in_ out t c : Z) :
  4 <= ch -> 0 <= out ->
  out + Z.of_nat cnt * ch <= Z.of_nat (length (m_out m)) ->
  0 <= t < Z.of_nat cnt -> 0 <= c < 4 ->
  aget f0 (m_out (process_row cnt ch xm la m in_ out)) (out + t * ch + c)
  = aget f0 (pixel_out (m_data m) xm la
               (pixel_at (m_in m) (in_ + t * ch) 0) (pixel_at (m_in m) (in_ + t * ch) 1)
               (pixel_at (m_in m) (in_ + t * ch) 2) (pixel_at (m_in m) (in_ + t * ch) 3)) c.
Proof.
  intros Hch. revert m in_ out t.
  induction cnt as [|cnt IH]; intros m in_ out t Hout Hlen Ht Hc; [lia|].
  simpl. destruct (process_pixel_frame xm la m in_ out) as (Hd & Hin & Hl).
  destruct (Z.eq_dec t 0) as [-> | Hnz].
  - rewrite process_row_outside by nia.
    replace (out + 0 * ch + c) with (out + c) by ring.
    replace (in_ + 0 * ch) with in_ by ring.
    apply process_pixel_inside; nia.
  - replace (out + t * ch + c) with (out + ch + (t - 1) * ch + c) by ring.
    rewrite IH by (rewrite ?Hl; nia).
    rewrite Hd, Hin.
    replace (in_ + ch + (t - 1) * ch) with (in_ + t * ch) by ring.
    reflexivity.
Qed.

Lemma process_rows_S (cnt : nat) (k ch : Z) (roi : dt_iop_roi_t) (xm : float)
    (m : memory) :
  process_rows (S cnt) k ch roi xm m
  = process_rows cnt (k + 1) ch roi xm
      (process_row (Z.to_nat (width roi)) ch xm (low_approximation_of (m_data m)) m
         (k * ch * width roi) (k * ch * width roi)).
Proof. reflexivity. Qed.

Lemma process_rows_frame (cnt : nat) (k ch : Z) (roi : dt_iop_roi_t) (xm : float)
    (m : memory) :
  frame m (process_rows cnt k ch roi xm m).
Proof.
  revert k m. induction cnt as [|cnt IH]; intros k m.
  - apply frame_refl.
  - rewrite process_rows_S. eapply frame_trans; [apply process_row_frame | apply IH].
Qed.

Lemma process_rows_below (cnt : nat) (k ch : Z) (roi : dt_iop_roi_t) (xm : float)
    (m : memory) (i : Z) :
  4 <= ch -> 0 <= k -> 0 <= width roi -> i < k * ch * width roi ->
  aget f0 (m_out (process_rows cnt k ch roi xm m)) i = aget f0 (m_out m) i.
Proof.
  intros Hch. revert k m.
  induction cnt as [|cnt IH]; intros k m Hk Hw Hi; [reflexivity|].
  rewrite process_rows_S, IH by nia. apply process_row_outside; [lia | left; lia].
Qed.

Lemma process_rows_inside (cnt : nat) (k ch : Z) (roi : dt_iop_roi_t) (xm : float)
    (m : memory) (r t c : Z) :
  4 <= ch -> 0 <= k -> 0 <= width roi ->
  (k + Z.of_nat cnt) * ch * width roi <= Z.of_nat (length (m_out m)) ->
  k <= r < k + Z.of_nat cnt -> 0 <= t < width roi -> 0 <= c < 4 ->
  aget f0 (m_out (process_rows cnt k ch roi xm m)) (r * ch * width roi + t * ch + c)
  = aget f0 (pixel_out (m_data m) xm (low_approximation_of (m_data m))
               (pixel_at (m_in m) (r * ch * width roi + t * ch) 0)
               (pixel_at (m_in m) (r * ch * width roi + t * ch) 1)
               (pixel_at (m_in m) (r * ch * width roi + t * ch) 2)
               (pixel_at (m_in m) (r * ch * width roi + t * ch) 3)) c.
Proof.
  intros Hch. revert k m.
  induction cnt as [|cnt IH]; intros k m Hk Hw Hlen Hr Ht Hc; [lia|].
  rewrite process_rows_S.
  destruct (process_row_frame (Z.to_nat (width roi)) ch xm (low_approximation_of (m_data m)) m
              (k * ch * width roi) (k * ch * width roi)) as (Hd & Hin & Hl).
  destruct (Z.eq_dec r k) as [-> | Hne].
  - rewrite process_rows_below by nia.
    apply process_row_inside; try lia; nia.
  - rewrite IH by (rewrite ?Hl; nia).
    rewrite Hd, Hin. reflexivity.
Qed.

(** Every pixel of the region: the four floats [process] leaves at pixel
    ([k], [j]) are [pixel_out] of the four floats of the input pixel. *)
Lemma process_pixelwise (colors : Z) (roi : dt_iop_roi_t) (m : memory) (k j c : Z) :
  4 <= colors ->
  height roi * colors * width roi <= Z.of_nat (length (m_out m)) ->
  0 <= k < height roi -> 0 <= j < width roi -> 0 <= c < 4 ->
  let off := k * colors * width roi + j * colors in
  let d := m_data m in
  pixel_at (m_out (process colors roi m)) off c
  = aget f0 (pixel_out d (F32.div f1 (aget f0 (unbounded_coeffs d) 0))
               (low_approximation_of d)
               (pixel_at (m_in m) off 0) (pixel_at (m_in m) off 1)
               (pixel_at (m_in m) off 2) (pixel_at (m_in m) off 3)) c.
Proof.
  intros Hch Hlen Hk Hj Hc off d. unfold process, pixel_at at 1. subst off.
  rewrite process_rows_inside; rewrite ?Z2Nat.id; try lia.
  reflexivity.
Qed.

Lemma process_frame (colors : Z) (roi : dt_iop_roi_t) (m : memory) :
  frame m (process colors roi m).
Proof. apply process_rows_frame. Qed.

(** C1.  Autoscale on: a pixel whose normalised luminance exceeds 0.01
    gets its two chroma outputs from the input chroma times the ratio of
    output to input luminance; a pixel whose normalised luminance is at or
    below 0.01 gets all three channels from the input channel times the
    luminance table's entry 655 = floor(0.01 * 65535). *)
Theorem process_autoscale_chroma (colors : Z) (roi : dt_iop_roi_t) (m : memory)
    (k j : Z) :
  4 <= colors ->
  height roi * colors * width roi <= Z.of_nat (length (m_out m)) ->
  0 <= k < height roi -> 0 <= j < width roi ->
  autoscale_ab (m_data m) <> 0 ->
  let off := k * colors * width roi + j * colors in
  let inp := pixel_at (m_in m) off in
  let outp := pixel_at (m_out (process colors roi m)) off in
  let L_in := F32.div (inp 0) f100 in
  (fgt L_in f0_01 = true ->
     outp 1 = F32.div (F32.mul (inp 1) (outp 0)) (inp 0) /\
     outp 2 = F32.div (F32.mul (inp 2) (outp 0)) (inp 0)) /\
  (fle L_in f0_01 = true ->
     forall c, 0 <= c < 3 ->
       outp c = F32.mul (inp c) (aget f0 (sel3 (table (m_data m)) ch_L) 655)).
Proof.
  intros Hch Hlen Hk Hj Hauto off inp outp L_in.
  assert (Hpix : forall c, 0 <= c < 4 ->
            outp c = aget f0 (pixel_out (m_data m)
                                (F32.div f1 (aget f0 (unbounded_coeffs (m_data m)) 0))
                                (low_approximation_of (m_data m))
                                (inp 0) (inp 1) (inp 2) (inp 3)) c).
  { intros c Hc. apply process_pixelwise; assumption. }
  apply Z.eqb_neq in Hauto. split.
  - intros Hgt. rewrite (Hpix 0), (Hpix 1), (Hpix 2) by lia.
    unfold pixel_out. fold L_in. rewrite Hauto, Hgt. split; reflexivity.
  - intros Hle c Hc. rewrite (Hpix c) by lia.
    unfold pixel_out. fold L_in. rewrite Hauto, (fle_not_fgt _ _ Hle).
    assert (Hcases : c = 0 \/ c = 1 \/ c = 2) by lia.
    destruct Hcases as [-> | [-> | ->]]; reflexivity.
Qed.

(** The luminance output where it is not overwritten: with autoscale off,
    or with autoscale on and a normalised luminance above 0.01, it is the
    table entry at the clamped index when L_in is strictly below
    xm = 1 / unbounded_coeffs[0], and the extrapolation otherwise. *)
Lemma process_luminance_threshold (colors : Z) (roi : dt_iop_roi_t) (m : memory) (k j : Z) :
  4 <= colors ->
  height roi * colors * width roi <= Z.of_nat (length (m_out m)) ->
  0 <= k < height roi -> 0 <= j < width roi ->
  let off := k * colors * width roi + j * colors in
  let d := m_data m in
  let L_in := F32.div (pixel_at (m_in m) off 0) f100 in
  let xm := F32.div f1 (aget f0 (unbounded_coeffs d) 0) in
  autoscale_ab d = 0 \/ fgt L_in f0_01 = true ->
  pixel_at (m_out (process colors roi m)) off 0
  = if flt L_in xm
    then aget f0 (sel3 (table d) ch_L)
           (CLAMP (to_int (F32.mul L_in (F32.of_int 65535))) 0 65535)
    else dt_iop_eval_exp (unbounded_coeffs d) L_in.
Proof.
  intros Hch Hlen Hk Hj off d L_in xm Hcase.
  unfold off. rewrite process_pixelwise by (assumption || lia).
  fold off d. unfold pixel_out. fold L_in xm.
  destruct Hcase as [H0 | Hgt].
  - rewrite H0. reflexivity.
  - rewrite Hgt. destruct (autoscale_ab d =? 0); reflexivity.
Qed.

(** C9.  The fourth float of every pixel is copied from the input, and the
    call leaves the lookup tables, the extrapolation coefficients and the
    autoscale flag (the whole data of the piece) and the input buffer as
    they were. *)
Theorem process_alpha_and_frame (colors : Z) (roi : dt_iop_roi_t) (m : memory)
    (k j : Z) :
  4 <= colors ->
  height roi * colors * width roi <= Z.of_nat (length (m_out m)) ->
  0 <= k < height roi -> 0 <= j < width roi ->
  let off := k * colors * width roi + j * colors in
  let m' := process colors roi m in
  pixel_at (m_out m') off 3 = pixel_at (m_in m) off 3 /\
  table (m_data m') = table (m_data m) /\
  unbounded_coeffs (m_data m') = unbounded_coeffs (m_data m) /\
  autoscale_ab (m_data m') = autoscale_ab (m_data m) /\
  m_data m' = m_data m /\ m_in m' = m_in m.
Proof.
  intros Hch Hlen Hk Hj off m'.
  destruct (process_frame colors roi m) as (Hd & Hin & _). fold m' in Hd, Hin.
  rewrite Hd, Hin. repeat split.
  unfold m', off. rewrite process_pixelwise by (assumption || lia).
  unfold pixel_out.
  destruct (autoscale_ab (m_data m) =? 0); [|destruct (fgt _ f0_01)]; reflexivity.
Qed.

End PixelTransform.

(** *** The transform on the concrete piece *)

Ltac by_evaluation :=
  first [ lia | vm_compute; repeat split; congruence ].

Lemma process_autoscale_chroma_witness :
  let inp := pixel_at (m_in example_memory) in
  let outp := pixel_at (m_out (process example_eval_exp 4 example_roi example_memory)) in
  let low := aget f0 (sel3 (table (m_data example_memory)) ch_L) 655 in
  (fgt (F32.div (inp 0 0) f100) f0_01 = true /\
   outp 0 1 = F32.div (F32.mul (inp 0 1) (outp 0 0)) (inp 0 0) /\
   outp 0 2 = F32.div (F32.mul (inp 0 2) (outp 0 0)) (inp 0 0)) /\
  (feq (F32.div (inp 8 0) f100) f0_01 = true /\
   outp 8 0 = F32.mul (inp 8 0) low /\
   outp 8 1 = F32.mul (inp 8 1) low /\
   outp 8 2 = F32.mul (inp 8 2) low).
Proof.
  assert (Hch : 4 <= 4) by lia.
  assert (Hlen : height example_roi * 4 * width example_roi
                 <= Z.of_nat (length (m_out example_memory)))
    by (vm_compute; congruence).
  assert (Hk : 0 <= 0 < height example_roi) by (vm_compute; split; congruence).
  assert (Hj0 : 0 <= 0 < width example_roi) by (vm_compute; split; congruence).
  assert (Hj2 : 0 <= 2 < width example_roi) by (vm_compute; split; congruence).
  assert (Hauto : autoscale_ab (m_data example_memory) <> 0)
    by (vm_compute; congruence).
  destruct (process_autoscale_chroma unit example_eval_exp 4 example_roi
              example_memory 0 0 Hch Hlen Hk Hj0 Hauto) as [Hratio _].
  destruct (process_autoscale_chroma unit example_eval_exp 4 example_roi
              example_memory 0 2 Hch Hlen Hk Hj2 Hauto) as [_ Hlow].
  split.
  - split; [vm_compute; reflexivity|].
    apply Hratio. vm_compute. reflexivity.
  - split; [vm_compute; reflexivity|].
    split; [|split]; apply (Hlow ltac:(vm_compute; reflexivity)); lia.
Defined.

Lemma process_alpha_and_frame_witness :
  let off := 0 * 4 * width example_roi + 1 * 4 in
  let m' := process example_eval_exp 4 example_roi example_memory in
  pixel_at (m_out m') off 3 = pixel_at (m_in example_memory) off 3 /\
  table (m_data m') = table (m_data example_memory) /\
  unbounded_coeffs (m_data m') = unbounded_coeffs (m_data example_memory) /\
  autoscale_ab (m_data m') = autoscale_ab (m_data example_memory) /\
  m_data m' = m_data example_memory /\ m_in m' = m_in example_memory.
Proof.
  apply (process_alpha_and_frame unit example_eval_exp 4 example_roi example_memory 0 1);
    by_evaluation.
Defined.

(** ** The refit of the extrapolation coefficients *)

Section Refit.

Variable dt_draw_curve_t : Type.
Variable dt_draw_curve_new : float -> float -> curve_type_t -> dt_draw_curve_t.
Variable dt_draw_curve_add_point :
  dt_draw_curve_t -> float -> float -> dt_draw_curve_t.
Variable dt_draw_curve_set_point :
  dt_draw_curve_t -> Z -> float -> float -> dt_draw_curve_t.
Variable dt_draw_curve_calc_values :
  dt_draw_curve_t -> float -> float -> Z -> list float ->
  dt_draw_curve_t * list float.
Variable dt_iop_estimate_exp :
  list float -> list float -> Z -> list float -> list float.

Local Abbreviation commit_channel :=
  (commit_channel dt_draw_curve_new dt_draw_curve_add_point
     dt_draw_curve_set_point dt_draw_curve_calc_values).
Local Abbreviation commit_params :=
  (commit_params dt_draw_curve_new dt_draw_curve_add_point
     dt_draw_curve_set_point dt_draw_curve_calc_values dt_iop_estimate_exp).

(** Sampling a channel leaves the coefficients alone. *)
Lemma commit_channel_coeffs (p : dt_iop_tonecurve_params_t)
    (d : dt_iop_tonecurve_data_t dt_draw_curve_t) (ch : tonecurve_channel_t) :
  unbounded_coeffs (commit_channel p d ch) = unbounded_coeffs d.
Proof.
  unfold commit_channel.
  destruct (negb _ || negb _); simpl;
    destruct (dt_draw_curve_calc_values _ _ _ _ _); reflexivity.
Qed.

(** The coefficients after [commit_params] are fitted to four entries
    of the luminance table the call leaves. *)
Lemma commit_params_coeffs_from_table (p : dt_iop_tonecurve_params_t)
    (d : dt_iop_tonecurve_data_t dt_draw_curve_t) :
  let xmax := x (nget (sel3 (tonecurve p) ch_L) (sel3 (tonecurve_nodes p) ch_L - 1)) in
  valid_binary F32.prec F32.emax xmax = true ->
  let d' := commit_params p d in
  let xs := [F32.mul f0_7 xmax; F32.mul f0_8 xmax; F32.mul f0_9 xmax; xmax] in
  let sample v :=
    aget f0 (sel3 (table d') ch_L)
      (CLAMP (to_int (F32.mul v (F32.of_int 65536))) 0 65535) in
  unbounded_coeffs d' = dt_iop_estimate_exp xs (map sample xs) 4 (unbounded_coeffs d).
Proof.
  intros xmax Hvalid d' xs sample.
  assert (Hone : F32.mul f1 xmax = xmax) by exact (mul_one_valid xmax Hvalid).
  unfold sample, xs, d', commit_params.
  cbn [unbounded_coeffs table sel3 at_L].
  rewrite !commit_channel_coeffs. unfold fit_positions.
  change (x (nget (at_L (tonecurve p)) (at_L (tonecurve_nodes p) - 1))) with xmax.
  rewrite Hone. reflexivity.
Qed.

End Refit.

(** ** The curve editor *)

(** *** Nodes in arrays *)

Lemma aset_out_of_range {A : Type} (a : list A) (i : Z) (v : A) :
  i < 0 \/ Z.of_nat (length a) <= i -> aset a i v = a.
Proof.
  intros Hi. unfold aset. destruct (i <? 0) eqn:Hneg; [reflexivity|].
  apply Z.ltb_ge in Hneg. apply list_insert_ge. lia.
Qed.

Lemma aset_aset {A : Type} (a : list A) (i : Z) (v w : A) :
  aset (aset a i v) i w = aset a i w.
Proof.
  unfold aset. destruct (i <? 0); [reflexivity | apply list_insert_insert_eq].
Qed.

Lemma nget_aset (t : list dt_iop_tonecurve_node_t) (i j : Z)
    (v : dt_iop_tonecurve_node_t) :
  0 <= i < Z.of_nat (length t) ->
  nget (aset t i v) j = if i =? j then v else nget t j.
Proof.
  intros Hi. unfold nget. destruct (i =? j) eqn:E.
  - apply Z.eqb_eq in E. subst j. apply aget_aset_eq. exact Hi.
  - apply Z.eqb_neq in E. apply aget_aset_ne. exact E.
Qed.

(** Writing the two fields of a node is writing the node. *)
Lemma set_x_set_y (t : list dt_iop_tonecurve_node_t) (i : Z) (a b : float) :
  set_y (set_x t i a) i b = aset t i (Node a b).
Proof.
  unfold set_x, set_y.
  destruct (Z_lt_dec i 0) as [Hneg | Hnn];
    [rewrite !aset_out_of_range by (rewrite ?length_aset; lia); reflexivity|].
  destruct (Z_lt_dec i (Z.of_nat (length t))) as [Hin | Hout].
  - rewrite nget_aset, Z.eqb_refl by lia. simpl. apply aset_aset.
  - rewrite !aset_out_of_range by (rewrite ?length_aset; lia). reflexivity.
Qed.

Lemma copy_node (t : list dt_iop_tonecurve_node_t) (i : Z)
    (n : dt_iop_tonecurve_node_t) :
  set_y (set_x t i (x n)) i (y n) = aset t i n.
Proof. rewrite set_x_set_y. destruct n; reflexivity. Qed.

(** One turn of a shifting loop: [t[k].x = t[j].x; t[k].y = t[j].y;]. *)
Lemma copy_fields (t : list dt_iop_tonecurve_node_t) (k j : Z) :
  k <> j ->
  set_y (set_x t k (x (nget t j))) k (y (nget (set_x t k (x (nget t j))) j))
  = aset t k (nget t j).
Proof.
  intros Hne.
  assert (H : forall v, nget (set_x t k v) j = nget t j)
    by (intros v; unfold set_x, nget; apply aget_aset_ne; exact Hne).
  rewrite H. apply copy_node.
Qed.

Lemma shift_down_length (cnt : nat) (k : Z) (t : list dt_iop_tonecurve_node_t) :
  length (shift_down cnt k t) = length t.
Proof.
  revert k t. induction cnt as [|cnt IH]; intros k t; [reflexivity|].
  cbn [shift_down]. rewrite copy_fields, IH by lia. apply length_aset.
Qed.

(** The loop of the deletion moves the nodes [k+1], ..., [k+cnt] one place
    down. *)
Lemma shift_down_get (cnt : nat) (k : Z) (t : list dt_iop_tonecurve_node_t) (j : Z) :
  0 <= k -> k + Z.of_nat cnt <= Z.of_nat (length t) ->
  nget (shift_down cnt k t) j
  = if (k <=? j) && (j <? k + Z.of_nat cnt) then nget t (j + 1) else nget t j.
Proof.
  revert k t. induction cnt as [|cnt IH]; intros k t Hk Hlen.
  - cbn [shift_down].
    destruct ((k <=? j) && (j <? k + Z.of_nat 0)) eqn:E; [|reflexivity].
    apply andb_true_iff in E as [E1 E2].
    apply Z.leb_le in E1. apply Z.ltb_lt in E2. lia.
  - cbn [shift_down]. rewrite copy_fields by lia.
    rewrite IH by (rewrite ?length_aset; lia).
    rewrite !nget_aset by lia.
    destruct (Z.leb_spec k j), (Z.ltb_spec j (k + Z.of_nat (S cnt))),
             (Z.leb_spec (k + 1) j), (Z.ltb_spec j (k + 1 + Z.of_nat cnt)),
             (Z.eqb_spec k j), (Z.eqb_spec k (j + 1));
      simpl; try lia; try reflexivity; subst; reflexivity.
Qed.

Lemma shift_up_length (cnt : nat) (i : Z) (t : list dt_iop_tonecurve_node_t) :
  length (shift_up cnt i t) = length t.
Proof.
  revert i t. induction cnt as [|cnt IH]; intros i t; [reflexivity|].
  cbn [shift_up]. rewrite copy_fields, IH by lia. apply length_aset.
Qed.

(** The loop of the insertion moves the nodes [i-cnt], ..., [i-1] one place
    up. *)
Lemma shift_up_get (cnt : nat) (i : Z) (t : list dt_iop_tonecurve_node_t) (j : Z) :
  Z.of_nat cnt <= i -> i < Z.of_nat (length t) ->
  nget (shift_up cnt i t) j
  = if (i - Z.of_nat cnt <? j) && (j <=? i) then nget t (j - 1) else nget t j.
Proof.
  revert i t. induction cnt as [|cnt IH]; intros i t Hi Hlen.
  - cbn [shift_up].
    destruct ((i - Z.of_nat 0 <? j) && (j <=? i)) eqn:E; [|reflexivity].
    apply andb_true_iff in E as [E1 E2].
    apply Z.ltb_lt in E1. apply Z.leb_le in E2. lia.
  - cbn [shift_up]. rewrite copy_fields by lia.
    rewrite IH by (rewrite ?length_aset; lia).
    rewrite !nget_aset by lia.
    destruct (Z.ltb_spec (i - Z.of_nat (S cnt)) j), (Z.leb_spec j i),
             (Z.ltb_spec (i - 1 - Z.of_nat cnt) j), (Z.leb_spec j (i - 1)),
             (Z.eqb_spec i j), (Z.eqb_spec i (j - 1));
      simpl; try lia; try reflexivity; subst; reflexivity.
Qed.

(** *** The loops of the handler *)

Lemma increasing_from_spec (cnt : nat) (i : Z) (t : list dt_iop_tonecurve_node_t) :
  increasing_from cnt i t = true <->
  forall j, i <= j < i + Z.of_nat cnt -> flt (x (nget t j)) (x (nget t (j + 1))) = true.
Proof.
  revert i. induction cnt as [|cnt IH]; intros i; cbn [increasing_from].
  - split; [intros _ j Hj; lia | reflexivity].
  - rewrite andb_true_iff, IH. split.
    + intros [H0 Hrest] j Hj.
      destruct (Z.eq_dec j i) as [-> | Hne]; [exact H0 | apply Hrest; lia].
    + intros H. split; [apply H; lia | intros j Hj; apply H; lia].
Qed.

Lemma strictly_increasing_spec (t : list dt_iop_tonecurve_node_t) (n : Z) :
  strictly_increasing t n = true <->
  forall j, 0 <= j -> j + 1 < n -> flt (x (nget t j)) (x (nget t (j + 1))) = true.
Proof.
  unfold strictly_increasing. rewrite increasing_from_spec. split.
  - intros H j H0 H1. apply H. lia.
  - intros H j Hj. apply H; lia.
Qed.

Lemma fresh_from_spec (cnt : nat) (k : Z) (t : list dt_iop_tonecurve_node_t) (mx : float) :
  fresh_from cnt k t mx = true <->
  forall j, k <= j < k + Z.of_nat cnt -> feq (x (nget t j)) mx = false.
Proof.
  revert k. induction cnt as [|cnt IH]; intros k; cbn [fresh_from].
  - split; [intros _ j Hj; lia | reflexivity].
  - rewrite andb_true_iff, negb_true_iff, IH. split.
    + intros [H0 Hrest] j Hj.
      destruct (Z.eq_dec j k) as [-> | Hne]; [exact H0 | apply Hrest; lia].
    + intros H. split; [apply H; lia | intros j Hj; apply H; lia].
Qed.

(** The search of the insertion returns the first node from [k] on whose
    x exceeds [mx], or leaves the selection as it is when there is none. *)
Lemma find_gt_spec (cnt : nat) (k : Z) (t : list dt_iop_tonecurve_node_t)
    (mx : float) (sel : Z) :
  let r := find_gt cnt k t mx sel in
  (r = sel /\ forall j, k <= j < k + Z.of_nat cnt -> fgt (x (nget t j)) mx = false)
  \/ (k <= r < k + Z.of_nat cnt /\ fgt (x (nget t r)) mx = true
      /\ forall j, k <= j < r -> fgt (x (nget t j)) mx = false).
Proof.
  revert k. induction cnt as [|cnt IH]; intros k; cbn [find_gt].
  - left. split; [reflexivity | intros j Hj; lia].
  - destruct (fgt (x (nget t k)) mx) eqn:E.
    + right. split; [lia|]. split; [exact E | intros j Hj; lia].
    + destruct (IH (k + 1)) as [[Hr Hall] | (Hr & Hgt & Hall)].
      * left. split; [exact Hr|]. intros j Hj.
        destruct (Z.eq_dec j k) as [-> | Hne]; [exact E | apply Hall; lia].
      * right. split; [lia|]. split; [exact Hgt|]. intros j Hj.
        destruct (Z.eq_dec j k) as [-> | Hne]; [exact E | apply Hall; lia].
Qed.

(** The hit test returns a node among those it looked at, or what it
    started with. *)
Lemma nearest_loop_range (cnt : nat) (k : Z) (t : list dt_iop_tonecurve_node_t)
    (mx my min : float) (nearest : Z) :
  let r := nearest_loop cnt k t mx my min nearest in
  r = nearest \/ k <= r < k + Z.of_nat cnt.
Proof.
  revert k min nearest. induction cnt as [|cnt IH]; intros k min nearest;
    cbn [nearest_loop]; [left; reflexivity|].
  destruct (flt _ min).
  - destruct (IH (k + 1) (F32.add
        (F32.mul (F32.sub my (y (nget t k))) (F32.sub my (y (nget t k))))
        (F32.mul (F32.sub mx (x (nget t k))) (F32.sub mx (x (nget t k))))) k)
      as [H | H]; right; lia.
  - destruct (IH (k + 1) min nearest) as [H | H]; [left; exact H | right; lia].
Qed.

Lemma nearest_node_range (t : list dt_iop_tonecurve_node_t) (nodes : Z) (mx my : float) :
  0 <= nodes -> -1 <= nearest_node t nodes mx my < nodes.
Proof.
  intros Hn. unfold nearest_node.
  destruct (nearest_loop_range (Z.to_nat nodes) 0 t mx my (F32.mul f0_04 f0_04) (-1))
    as [H | H]; lia.
Qed.

(** *** More on the order of the comparisons *)

Lemma flt_not_nan (a b : float) : flt a b = true -> is_nan a = false /\ is_nan b = false.
Proof. destruct a, b; simpl; try discriminate; split; reflexivity. Qed.

(** Without a NaN, [a < b] is what is left when [b <= a] fails. *)
Lemma not_fle_flt (a b : float) :
  is_nan a = false -> is_nan b = false -> fle b a = false -> flt a b = true.
Proof.
  intros Ha Hb. unfold fle, flt, SFleb, SFltb. rewrite (SFcompare_antisym a b).
  destruct (SFcompare_some a b Ha Hb) as [c ->]. destruct c; simpl; congruence.
Qed.

(** Without a NaN, two numbers of which the first neither exceeds nor
    equals the second are in strict order. *)
Lemma not_fgt_not_feq_flt (a b : float) :
  is_nan a = false -> is_nan b = false ->
  fgt a b = false -> feq a b = false -> flt a b = true.
Proof.
  intros Ha Hb. unfold fgt, feq, flt, SFltb, SFeqb. rewrite (SFcompare_antisym a b).
  destruct (SFcompare_some a b Ha Hb) as [c ->]. destruct c; simpl; congruence.
Qed.

(** Numbers in strict order are not equal. *)
Lemma flt_not_feq (a b : float) : flt a b = true -> feq a b = false.
Proof.
  unfold flt, feq, SFltb, SFeqb. destruct (SFcompare a b) as [[]|]; congruence.
Qed.

(** *** Dragging a node keeps the order *)

Ltac zcases :=
  repeat match goal with
  | |- context [?a <=? ?b] => destruct (Z.leb_spec a b)
  | |- context [?a <? ?b] => destruct (Z.ltb_spec a b)
  | |- context [?a =? ?b] => destruct (Z.eqb_spec a b)
  end; cbn [andb orb negb]; try lia.

(** Taking the node [sel] out of an ordered channel leaves it ordered,
    whatever was written to the node before. *)
Lemma delete_keeps_order (t : list dt_iop_tonecurve_node_t) (n sel : Z)
    (v : dt_iop_tonecurve_node_t) :
  Z.of_nat (length t) = MAXNODES -> n <= MAXNODES -> 0 <= sel < n ->
  strictly_increasing t n = true ->
  strictly_increasing (shift_down (Z.to_nat (n - 1 - sel)) sel (aset t sel v)) (n - 1) = true.
Proof.
  unfold MAXNODES. intros Hlen Hn Hsel Hs.
  rewrite strictly_increasing_spec in Hs. apply strictly_increasing_spec.
  intros j Hj0 Hj1.
  rewrite !shift_down_get by (rewrite ?length_aset; lia).
  rewrite !nget_aset by lia.
  rewrite !Z2Nat.id by lia.
  zcases; try (apply Hs; lia).
  apply flt_trans with (x (nget t (j + 1))); apply Hs; lia.
Qed.

(** Moving the node [sel] of an ordered channel to an x strictly between
    the x of its neighbours leaves the channel ordered. *)
Lemma move_keeps_order (t : list dt_iop_tonecurve_node_t) (n sel : Z) (mx my : float) :
  Z.of_nat (length t) = MAXNODES -> n <= MAXNODES -> 0 <= sel < n ->
  strictly_increasing t n = true ->
  (0 < sel -> flt (x (nget t (sel - 1))) mx = true) ->
  (sel < n - 1 -> flt mx (x (nget t (sel + 1))) = true) ->
  strictly_increasing (aset t sel (Node mx my)) n = true.
Proof.
  unfold MAXNODES. intros Hlen Hn Hsel Hs Hleft Hright.
  rewrite strictly_increasing_spec in Hs. apply strictly_increasing_spec.
  intros j Hj0 Hj1.
  rewrite !nget_aset by lia.
  zcases; cbn [x]; try (apply Hs; lia).
  - replace j with sel by lia. apply Hright. lia.
  - replace j with (sel - 1) by lia. apply Hleft. lia.
Qed.

(** Putting a new node at place [sel] of an ordered channel, after moving
    the nodes from [sel] on one place up, leaves the channel ordered when
    the new x lies strictly between the x of the nodes around it. *)
Lemma insert_keeps_order (t : list dt_iop_tonecurve_node_t) (n sel : Z) (mx my : float) :
  Z.of_nat (length t) = MAXNODES -> n < MAXNODES -> 0 <= sel <= n ->
  strictly_increasing t n = true ->
  (0 < sel -> flt (x (nget t (sel - 1))) mx = true) ->
  (sel < n -> flt mx (x (nget t sel)) = true) ->
  strictly_increasing
    (aset (shift_up (Z.to_nat (n - sel)) n t) sel (Node mx my)) (n + 1) = true.
Proof.
  unfold MAXNODES. intros Hlen Hn Hsel Hs Hleft Hright.
  rewrite strictly_increasing_spec in Hs. apply strictly_increasing_spec.
  intros j Hj0 Hj1.
  rewrite !nget_aset by (rewrite ?shift_up_length; lia).
  rewrite !shift_up_get by lia.
  rewrite !Z2Nat.id by lia.
  zcases; cbn [x].
  - replace (j + 1 - 1) with (j - 1 + 1) by lia. apply Hs; lia.
  - replace (j + 1 - 1) with sel by lia. apply Hright. lia.
  - replace j with (sel - 1) by lia. apply Hleft. lia.
  - apply Hs; lia.
Qed.

(** *** The invariant of the editor *)

Lemma curve_ok_spec (t : list dt_iop_tonecurve_node_t) (n : Z) :
  curve_ok t n = true <->
  Z.of_nat (length t) = MAXNODES /\ 2 <= n <= MAXNODES /\ strictly_increasing t n = true.
Proof.
  unfold curve_ok. rewrite !andb_true_iff, Z.eqb_eq, !Z.leb_le. tauto.
Qed.

Lemma editor_ok_spec (self : dt_iop_module_t) :
  editor_ok self = true <->
  (forall ch, channel_ok (params self) ch = true) /\
  selected (gui_data self)
  < sel3 (tonecurve_nodes (params self)) (channel (gui_data self)).
Proof.
  unfold editor_ok. rewrite !andb_true_iff, Z.ltb_lt. split.
  - intros [[[HL Ha] Hb] Hs]. split; [intros []; assumption | exact Hs].
  - intros [H Hs]. repeat split; try apply H. exact Hs.
Qed.

(** The place of a new node in a channel in use: no node before it
    exceeds [mx], and the node at it, if any, does. *)
Lemma insert_place_spec (t : list dt_iop_tonecurve_node_t) (n : Z) (mx : float) :
  1 <= n ->
  let k := insert_place t n mx (-1) in
  0 <= k <= n /\
  (forall j, 0 <= j < k -> fgt (x (nget t j)) mx = false) /\
  (k < n -> fgt (x (nget t k)) mx = true).
Proof.
  intros Hn. unfold insert_place.
  destruct (fgt (x (nget t 0)) mx) eqn:E0.
  - cbn. split; [lia|]. split; [intros j Hj; lia | intros _; exact E0].
  - destruct (find_gt_spec (Z.to_nat (n - 1)) 1 t mx (-1)) as [[Hr Hall] | (Hr & Hgt & Hall)].
    + rewrite Hr. cbn. split; [lia|]. split; [|lia].
      intros j Hj. destruct (Z.eq_dec j 0) as [-> | Hne]; [exact E0 | apply Hall; lia].
    + rewrite Z2Nat.id in Hr by lia.
      destruct (Z.eqb_spec (find_gt (Z.to_nat (n - 1)) 1 t mx (-1)) (-1)); [lia|].
      split; [lia|]. split; [|intros _; exact Hgt].
      intros j Hj. destruct (Z.eq_dec j 0) as [-> | Hne]; [exact E0 | apply Hall; lia].
Qed.

Ltac bool_hyps :=
  repeat match goal with
  | H : (_ && _) = true |- _ => apply andb_true_iff in H; destruct H
  | H : negb _ = true |- _ => apply negb_true_iff in H
  | H : negb _ = false |- _ => apply negb_false_iff in H
  | H : (_ <=? _) = true |- _ => apply Z.leb_le in H
  | H : (_ <=? _) = false |- _ => apply Z.leb_gt in H
  | H : (_ <? _) = true |- _ => apply Z.ltb_lt in H
  | H : (_ <? _) = false |- _ => apply Z.ltb_ge in H
  | H : (_ >? _) = true |- _ => rewrite Z.gtb_ltb in H
  | H : (_ >? _) = false |- _ => rewrite Z.gtb_ltb in H
  | H : (_ >=? _) = true |- _ => rewrite Z.geb_leb in H
  | H : (_ >=? _) = false |- _ => rewrite Z.geb_leb in H
  | H : (_ =? _) = true |- _ => apply Z.eqb_eq in H
  | H : (_ =? _) = false |- _ => apply Z.eqb_neq in H
  end.

(** A drag that does not violate the order leaves the dragged node
    strictly between its neighbours. *)
Lemma not_violated_between (t : list dt_iop_tonecurve_node_t) (n sel : Z) (mx : float) :
  strictly_increasing t n = true -> 0 <= sel < n -> is_nan mx = false ->
  order_violated t n sel mx = false ->
  (0 < sel -> flt (x (nget t (sel - 1))) mx = true) /\
  (sel < n - 1 -> flt mx (x (nget t (sel + 1))) = true).
Proof.
  intros Hs Hsel Hnan Hv. rewrite strictly_increasing_spec in Hs.
  unfold order_violated in Hv. apply orb_false_iff in Hv as [Hl Hr]. split.
  - intros Hpos.
    destruct (sel >? 0) eqn:E; [|bool_hyps; lia]. cbn in Hl.
    assert (Hprev : flt (x (nget t (sel - 1))) (x (nget t (sel - 1 + 1))) = true)
      by (apply Hs; lia).
    apply flt_not_nan in Hprev as [Hprev _].
    apply not_fle_flt; assumption.
  - intros Hlast.
    destruct (sel <? n - 1) eqn:E; [|bool_hyps; lia]. cbn in Hr.
    assert (Hnext : flt (x (nget t sel)) (x (nget t (sel + 1))) = true)
      by (apply Hs; lia).
    apply flt_not_nan in Hnext as [_ Hnext].
    apply not_fle_flt; assumption.
Qed.

Lemma order_violated_aset (t : list dt_iop_tonecurve_node_t) (n sel : Z) (mx : float)
    (v : dt_iop_tonecurve_node_t) :
  order_violated (aset t sel v) n sel mx = order_violated t n sel mx.
Proof.
  unfold order_violated, nget. rewrite !aget_aset_ne by lia. reflexivity.
Qed.

(** The three changes a drag makes to the channel of the current tab. *)
Lemma drag_delete_ok (t : list dt_iop_tonecurve_node_t) (n sel : Z)
    (v : dt_iop_tonecurve_node_t) :
  curve_ok t n = true -> 2 < n -> 0 <= sel < n ->
  curve_ok (shift_down (Z.to_nat (n - 1 - sel)) sel (aset t sel v)) (n - 1) = true.
Proof.
  rewrite !curve_ok_spec. unfold MAXNODES. intros (Hlen & Hn & Hs) Hn2 Hsel.
  rewrite shift_down_length, length_aset.
  split; [exact Hlen|]. split; [lia|].
  apply delete_keeps_order; unfold MAXNODES; try assumption; lia.
Qed.

Lemma drag_move_ok (t : list dt_iop_tonecurve_node_t) (n sel : Z) (mx my : float) :
  curve_ok t n = true -> 0 <= sel < n -> is_nan mx = false ->
  order_violated t n sel mx = false ->
  curve_ok (aset t sel (Node mx my)) n = true.
Proof.
  rewrite !curve_ok_spec. unfold MAXNODES. intros (Hlen & Hn & Hs) Hsel Hnan Hv.
  rewrite length_aset.
  split; [exact Hlen|]. split; [exact Hn|].
  destruct (not_violated_between t n sel mx Hs Hsel Hnan Hv) as [Hleft Hright].
  apply move_keeps_order; unfold MAXNODES; try assumption; lia.
Qed.

Lemma drag_insert_ok (t : list dt_iop_tonecurve_node_t) (n : Z) (mx my : float) :
  curve_ok t n = true -> n < MAXNODES -> is_nan mx = false ->
  fresh_x t n mx = true ->
  let k := insert_place t n mx (-1) in
  curve_ok (aset (shift_up (Z.to_nat (n - k)) n t) k (Node mx my)) (n + 1) = true.
Proof.
  intros Hok Hn20 Hnan Hfresh k.
  apply curve_ok_spec in Hok as (Hlen & Hn & Hs). apply curve_ok_spec.
  unfold MAXNODES in *.
  destruct (insert_place_spec t n mx) as (Hk & Hbefore & Hat); [lia|].
  fold k in Hk, Hbefore, Hat.
  rewrite length_aset, shift_up_length.
  split; [exact Hlen|]. split; [lia|].
  apply insert_keeps_order; unfold MAXNODES; try assumption; try lia.
  intros Hpos.
  unfold fresh_x in Hfresh. rewrite fresh_from_spec in Hfresh.
  pose proof Hs as Hs'. rewrite strictly_increasing_spec in Hs'.
  assert (Hnn : is_nan (x (nget t (k - 1))) = false).
  { destruct (Z_lt_dec k n) as [Hlt | Hge].
    - assert (Hp : flt (x (nget t (k - 1))) (x (nget t (k - 1 + 1))) = true)
        by (apply Hs'; lia).
      apply flt_not_nan in Hp. tauto.
    - assert (Hp : flt (x (nget t (k - 1 - 1))) (x (nget t (k - 1 - 1 + 1))) = true)
        by (apply Hs'; lia).
      replace (k - 1 - 1 + 1) with (k - 1) in Hp by lia.
      apply flt_not_nan in Hp. tauto. }
  apply not_fgt_not_feq_flt; try assumption.
  - apply Hbefore. lia.
  - apply Hfresh. rewrite Z2Nat.id by lia. lia.
Qed.

(** Replacing the curve of one channel by a curve in good shape keeps a
    channel in good shape: the other channels are not touched. *)
Lemma channel_ok_upd (p : dt_iop_tonecurve_params_t) (ch0 : tonecurve_channel_t)
    (t' : list dt_iop_tonecurve_node_t) (n' : Z)
    (ty : chan3 curve_type_t) (au pr : Z) (ch : tonecurve_channel_t) :
  channel_ok p ch = true -> (ch = ch0 -> curve_ok t' n' = true) ->
  channel_ok {| tonecurve := upd3 (tonecurve p) ch0 t';
                tonecurve_nodes := upd3 (tonecurve_nodes p) ch0 n';
                tonecurve_type := ty;
                tonecurve_autoscale_ab := au;
                tonecurve_preset := pr |} ch = true.
Proof.
  intros Hold Hnew. unfold channel_ok in *. cbn [tonecurve tonecurve_nodes].
  destruct ch, ch0; cbn [sel3 upd3 at_L at_a at_b] in *;
    solve [exact Hold | apply Hnew; reflexivity].
Qed.

Lemma upd3_same {A : Type} (v : chan3 A) (ch : tonecurve_channel_t) :
  upd3 v ch (sel3 v ch) = v.
Proof. destruct v, ch; reflexivity. Qed.

Lemma sel3_upd3_same {A : Type} (v : chan3 A) (ch : tonecurve_channel_t) (a : A) :
  sel3 (upd3 v ch a) ch = a.
Proof. destruct ch; reflexivity. Qed.

Lemma curves_ok_spec (p : dt_iop_tonecurve_params_t) :
  curves_ok p = true <-> forall ch, channel_ok p ch = true.
Proof.
  unfold curves_ok. rewrite !andb_true_iff. split.
  - intros [[HL Ha] Hb] []; assumption.
  - intros H. repeat split; apply H.
Qed.

(** A write behind the nodes in use does not touch their order. *)
Lemma stale_write_keeps_order (t : list dt_iop_tonecurve_node_t) (n m sel : Z)
    (v : dt_iop_tonecurve_node_t) :
  strictly_increasing t n = true -> m <= n -> m <= sel ->
  strictly_increasing (aset t sel v) m = true.
Proof.
  intros Hs Hm Hsel. rewrite strictly_increasing_spec in *.
  intros j Hj0 Hj1. unfold nget. rewrite !aget_aset_ne by lia. apply Hs; lia.
Qed.

(** The changes of a drag with any selection, a node in use or not. *)
Lemma drag_delete_any (t : list dt_iop_tonecurve_node_t) (n sel : Z)
    (v : dt_iop_tonecurve_node_t) :
  curve_ok t n = true -> 2 < n -> 0 <= sel ->
  curve_ok (shift_down (Z.to_nat (n - 1 - sel)) sel (aset t sel v)) (n - 1) = true.
Proof.
  intros Hok Hn Hsel. destruct (Z_lt_dec sel n) as [Hin | Hout].
  - apply drag_delete_ok; [assumption | lia | lia].
  - replace (Z.to_nat (n - 1 - sel)) with O by lia. cbn [shift_down].
    apply curve_ok_spec in Hok as (Hlen & Hn20 & Hs). apply curve_ok_spec.
    rewrite length_aset. split; [exact Hlen|]. split; [lia|].
    apply stale_write_keeps_order with (n := n); [exact Hs | lia | lia].
Qed.

Lemma drag_move_any (t : list dt_iop_tonecurve_node_t) (n sel : Z) (mx my : float) :
  curve_ok t n = true -> 0 <= sel -> is_nan mx = false ->
  order_violated t n sel mx = false ->
  curve_ok (aset t sel (Node mx my)) n = true.
Proof.
  intros Hok Hsel Hnan Hv. destruct (Z_lt_dec sel n) as [Hin | Hout].
  - apply drag_move_ok; [assumption | lia | assumption | assumption].
  - apply curve_ok_spec in Hok as (Hlen & Hn20 & Hs). apply curve_ok_spec.
    rewrite length_aset. split; [exact Hlen|]. split; [lia|].
    apply stale_write_keeps_order with (n := n); [exact Hs | lia | lia].
Qed.

(** One admissible pointer move keeps a channel in good shape, whatever
    the selection is and whatever the other channels hold. *)
Lemma motion_notify_keeps_channel (self : dt_iop_module_t) (widget : GtkAllocation)
    (event : GdkEventMotion) (ch : tonecurve_channel_t) :
  channel_ok (params self) ch = true -> drag_admissible self widget event = true ->
  channel_ok (params (dt_iop_tonecurve_motion_notify self widget event)) ch = true.
Proof.
  intros Hok Hadm.
  unfold dt_iop_tonecurve_motion_notify, drag_admissible in *.
  destruct (chroma_locked (params self) (gui_data self)); [exact Hok|].
  cbn [selected channel mouse_x mouse_y] in *.
  set (ch0 := channel (gui_data self)) in *.
  set (t := sel3 (tonecurve (params self)) ch0) in *.
  set (n := sel3 (tonecurve_nodes (params self)) ch0) in *.
  set (mx := norm_x widget event) in *.
  set (my := norm_y widget event) in *.
  set (sel := selected (gui_data self)) in *.
  assert (Hcur : ch = ch0 -> curve_ok t n = true)
    by (intros Heq; rewrite Heq in Hok; exact Hok).
  unfold MAXNODES in *.
  destruct (button1 event); [|exact Hok].
  destruct (sel >=? 0) eqn:Esel.
  - (* a node is dragged *)
    apply andb_true_iff in Hadm as [Hnan Hsafe]. apply negb_true_iff in Hnan.
    rewrite Z.geb_leb, Z.leb_le in Esel.
    rewrite set_x_set_y, order_violated_aset.
    destruct ((n >? 2) && order_violated t n sel mx) eqn:Ev; cbn [params].
    + apply andb_true_iff in Ev as [Hn2 _]. rewrite Z.gtb_ltb, Z.ltb_lt in Hn2.
      apply channel_ok_upd; [exact Hok|]. intros Heq.
      apply drag_delete_any; [exact (Hcur Heq) | assumption | assumption].
    + assert (Hv : order_violated t n sel mx = false).
      { destruct (n >? 2); cbn [andb orb] in Ev, Hsafe;
          [exact Ev | apply negb_true_iff in Hsafe; exact Hsafe]. }
      rewrite <- (upd3_same (tonecurve_nodes (params self)) ch0).
      apply channel_ok_upd; [exact Hok|]. intros Heq.
      apply drag_move_any; [exact (Hcur Heq) | assumption | assumption | assumption].
  - destruct ((n <? 20) && (sel >=? -1)) eqn:Eins; [|exact Hok].
    (* a node is inserted *)
    bool_hyps. assert (Hsel1 : sel = -1) by lia.
    rewrite Hsel1 in *. rewrite set_x_set_y. cbn [params].
    apply channel_ok_upd; [exact Hok|]. intros Heq.
    apply drag_insert_ok; [exact (Hcur Heq) | assumption | assumption | assumption].
Qed.

(** A run of admissible pointer moves keeps a channel in good shape. *)
Lemma motion_run_keeps_channel (events : list GdkEventMotion) (self : dt_iop_module_t)
    (widget : GtkAllocation) (ch : tonecurve_channel_t) :
  channel_ok (params self) ch = true -> admissible_run self widget events = true ->
  channel_ok (params (motion_run self widget events)) ch = true.
Proof.
  revert self. induction events as [|ev rest IH]; intros self Hok Hadm.
  - exact Hok.
  - cbn [admissible_run] in Hadm. apply andb_true_iff in Hadm as [Hev Hrest].
    unfold motion_run. cbn [fold_left]. apply IH; [|exact Hrest].
    apply motion_notify_keeps_channel; assumption.
Qed.

(** *** The claims about the editor *)

(** C3, as the code has it.  For every channel in good shape (an array
    of 20 places, between 2 and 20 nodes in use, strictly increasing x), a
    run of pointer moves, whatever the selection is at its start and
    whatever the other channels hold, leaves the x of the channel strictly
    increasing, provided that each move that drags a node in a channel of
    no more than 2 nodes does not reach or pass the x of the neighbour,
    each move that inserts a node does so at an x no node of the channel
    has, and the normalised x of the pointer is a number in both cases.
    In a channel of more than 2 nodes a drag may reach or pass a
    neighbour: the node is deleted. *)
Theorem drags_keep_order (events : list GdkEventMotion) (self : dt_iop_module_t)
    (widget : GtkAllocation) (ch : tonecurve_channel_t) :
  channel_ok (params self) ch = true -> admissible_run self widget events = true ->
  strictly_increasing
    (sel3 (tonecurve (params (motion_run self widget events))) ch)
    (sel3 (tonecurve_nodes (params (motion_run self widget events))) ch) = true.
Proof.
  intros Hok Hadm.
  pose proof (motion_run_keeps_channel events self widget ch Hok Hadm) as H.
  unfold channel_ok in H. apply curve_ok_spec in H. tauto.
Qed.

(** The gesture of the witness drags a node of the two node curve in
    order, inserts a node, drags it, and has it deleted by a drag onto
    the x of its neighbour: after six moves the selection is -2 and two
    nodes are left. *)
Lemma drags_keep_order_witness :
  let self := example_module ch_L 1 (-1) in
  let self' := motion_run self example_widget example_gesture in
  let deleted := motion_run self example_widget (firstn 6 example_gesture) in
  (strictly_increasing (sel3 (tonecurve (params self')) ch_L)
                       (sel3 (tonecurve_nodes (params self')) ch_L) = true /\
   strictly_increasing (sel3 (tonecurve (params self')) ch_a)
                       (sel3 (tonecurve_nodes (params self')) ch_a) = true /\
   strictly_increasing (sel3 (tonecurve (params self')) ch_b)
                       (sel3 (tonecurve_nodes (params self')) ch_b) = true) /\
  (sel3 (tonecurve_nodes
           (params (motion_run self example_widget (firstn 5 example_gesture)))) ch_L = 3 /\
   sel3 (tonecurve_nodes (params deleted)) ch_L = 2 /\
   selected (gui_data deleted) = -2 /\
   sel3 (tonecurve_nodes (params self')) ch_L = 3).
Proof.
  assert (H : (forall ch, channel_ok (params (example_module ch_L 1 (-1))) ch = true)
              /\ admissible_run (example_module ch_L 1 (-1)) example_widget
                   example_gesture = true)
    by (split; [intros []|]; vm_compute; reflexivity).
  destruct H as [Hok Hadm].
  split; [|vm_compute; repeat split; reflexivity].
  split; [|split];
    apply (drags_keep_order example_gesture (example_module ch_L 1 (-1))
             example_widget _ (Hok _) Hadm).
Defined.

(** C3 as it is stated fails in three ways.  On the default luminance
    curve, which has two nodes, hovering over the first node and dragging
    it to the right edge leaves both nodes with x = 1.  An insertion at
    the x of an existing node puts the new node behind it: pressing the
    button at the bottom right corner adds the node (1, 0) after the node
    (1, 1).  And in a drawing area of no width the normalised x of the
    pointer is 0/0, so that a drag leaves a node whose x is not a number
    between its neighbours.  In each case the channel was ordered
    before. *)
Lemma drags_do_not_always_keep_order :
  let self := example_module ch_L 1 (-1) in
  let ordered s ch :=
    strictly_increasing (sel3 (tonecurve (params s)) ch)
                        (sel3 (tonecurve_nodes (params s)) ch) in
  let dragged := motion_run self example_widget example_drag_right in
  let inserted := dt_iop_tonecurve_motion_notify self example_widget
                    (example_move 257 257 256) in
  let nowhere := dt_iop_tonecurve_motion_notify (example_module ch_a 0 1)
                   example_narrow_widget (example_move 1 129 256) in
  (curves_ok (params self) = true /\ ordered dragged ch_L = false) /\
  (sel3 (tonecurve_nodes (params inserted)) ch_L = 3 /\
   ordered inserted ch_L = false) /\
  (curves_ok (params (example_module ch_a 0 1)) = true /\
   is_nan (norm_x example_narrow_widget (example_move 1 129 256)) = true /\
   sel3 (tonecurve_nodes (params nowhere)) ch_a = 3 /\
   ordered nowhere ch_a = false).
Proof. vm_compute. repeat split; reflexivity. Qed.

(** With the selection at -2 a move with the button held changes nothing
    of the parameters: no node is moved and none is inserted. *)
Lemma suppressed_blocks_insert (self : dt_iop_module_t) (widget : GtkAllocation)
    (event : GdkEventMotion) :
  selected (gui_data self) = -2 -> button1 event = true ->
  params (dt_iop_tonecurve_motion_notify self widget event) = params self.
Proof.
  intros Hsel Hbtn. unfold dt_iop_tonecurve_motion_notify.
  destruct (chroma_locked (params self) (gui_data self)); [reflexivity|].
  rewrite Hbtn. cbn [selected]. rewrite Hsel.
  change (-2 >=? 0) with false. change (-2 >=? -1) with false.
  rewrite andb_false_r. reflexivity.
Qed.

(** C4, as the code has it.  Unless the current tab is a chroma channel
    locked by autoscale: with the button held and node 1 of a curve of 3
    nodes selected, a move to an x at or beyond the x of node 2 removes
    node 1: node 2 moves down to place 1, the count drops to 2 and the
    selection becomes -2, under which a further move with the button held
    inserts nothing. *)
Theorem drag_past_next_deletes (self : dt_iop_module_t) (widget : GtkAllocation)
    (event : GdkEventMotion) :
  let ch := channel (gui_data self) in
  let t := sel3 (tonecurve (params self)) ch in
  let self' := dt_iop_tonecurve_motion_notify self widget event in
  let t' := sel3 (tonecurve (params self')) ch in
  chroma_locked (params self) (gui_data self) = false ->
  button1 event = true ->
  selected (gui_data self) = 1 ->
  sel3 (tonecurve_nodes (params self)) ch = 3 ->
  3 <= Z.of_nat (length t) ->
  fle (x (nget t 2)) (norm_x widget event) = true ->
  sel3 (tonecurve_nodes (params self')) ch = 2 /\
  selected (gui_data self') = -2 /\
  nget t' 0 = nget t 0 /\ nget t' 1 = nget t 2 /\
  (forall next, button1 next = true ->
     params (dt_iop_tonecurve_motion_notify self' widget next) = params self').
Proof.
  intros ch t self' t' Hlock Hbtn Hsel Hn Hlen Hle.
  assert (Hself' :
    self' = {| params :=
                 {| tonecurve :=
                      upd3 (tonecurve (params self)) ch
                        (shift_down 1 1 (aset t 1 (Node (norm_x widget event)
                                                         (norm_y widget event))));
                    tonecurve_nodes := upd3 (tonecurve_nodes (params self)) ch 2;
                    tonecurve_type := tonecurve_type (params self);
                    tonecurve_autoscale_ab := tonecurve_autoscale_ab (params self);
                    tonecurve_preset := tonecurve_preset (params self) |};
               gui_data :=
                 {| channel := ch; mouse_x := pointer_x widget event;
                    mouse_y := pointer_y widget event; selected := -2 |} |}).
  { subst self'. unfold dt_iop_tonecurve_motion_notify.
    rewrite Hlock, Hbtn. cbn [selected channel mouse_x mouse_y]. fold ch t.
    rewrite Hsel, Hn. change (1 >=? 0) with true. cbn iota.
    rewrite set_x_set_y, order_violated_aset.
    assert (Hv : order_violated t 3 1 (norm_x widget event) = true).
    { unfold order_violated. change (1 + 1) with 2. change (1 <? 3 - 1) with true.
      cbn [andb]. rewrite Hle. apply orb_true_r. }
    rewrite Hv. reflexivity. }
  assert (Hget : forall j, nget (shift_down 1 1 (aset t 1 (Node (norm_x widget event)
                                                           (norm_y widget event)))) j
                           = if (1 <=? j) && (j <? 2) then nget t (j + 1)
                             else if 1 =? j then Node (norm_x widget event) (norm_y widget event)
                             else nget t j).
  { intros j. rewrite shift_down_get by (rewrite ?length_aset; lia).
    rewrite !nget_aset by lia. change (1 + Z.of_nat 1) with 2.
    destruct ((1 <=? j) && (j <? 2)) eqn:E; [|reflexivity].
    destruct (Z.eqb_spec 1 (j + 1)); [|reflexivity].
    apply andb_true_iff in E as [E _]. apply Z.leb_le in E. lia. }
  split; [|split; [|split; [|split]]].
  - rewrite Hself'. cbn [params tonecurve_nodes]. apply sel3_upd3_same.
  - rewrite Hself'. reflexivity.
  - subst t'. rewrite Hself'. cbn [params tonecurve].
    rewrite sel3_upd3_same, Hget. reflexivity.
  - subst t'. rewrite Hself'. cbn [params tonecurve].
    rewrite sel3_upd3_same, Hget. reflexivity.
  - intros next Hnext. apply suppressed_blocks_insert; [|exact Hnext].
    rewrite Hself'. reflexivity.
Qed.

Lemma drag_past_next_deletes_witness :
  let self := example_module ch_a 0 1 in
  let t := sel3 (tonecurve (params self)) ch_a in
  let self' := dt_iop_tonecurve_motion_notify self example_widget
                 (example_move 257 129 256) in
  let t' := sel3 (tonecurve (params self')) ch_a in
  sel3 (tonecurve_nodes (params self')) ch_a = 2 /\
  selected (gui_data self') = -2 /\
  nget t' 0 = nget t 0 /\ nget t' 1 = nget t 2 /\
  params (dt_iop_tonecurve_motion_notify self' example_widget
            (example_move 129 65 256)) = params self'.
Proof.
  destruct (drag_past_next_deletes (example_module ch_a 0 1) example_widget
              (example_move 257 129 256))
    as (Hn & Hsel & H0 & H1 & Hnext);
    [vm_compute; congruence .. |].
  split; [exact Hn|]. split; [exact Hsel|]. split; [exact H0|]. split; [exact H1|].
  apply Hnext. vm_compute. reflexivity.
Defined.

(** C4 as it is stated fails when the curve is one of the chroma curves
    and autoscale is on: node 1 of the curve of channel a is selected, the
    button is held and the pointer is at the x of node 2, yet the curve
    keeps its 3 nodes and the selection stays 1. *)
Lemma locked_drag_does_not_delete :
  let self := example_module ch_a 1 1 in
  let event := example_move 257 129 256 in
  let t := sel3 (tonecurve (params self)) ch_a in
  let self' := dt_iop_tonecurve_motion_notify self example_widget event in
  (button1 event = true /\ selected (gui_data self) = 1 /\
   sel3 (tonecurve_nodes (params self)) ch_a = 3 /\
   fle (x (nget t 2)) (norm_x example_widget event) = true) /\
  sel3 (tonecurve_nodes (params self')) ch_a = 3 /\
  selected (gui_data self') = 1 /\
  sel3 (tonecurve (params self')) ch_a = t.
Proof. vm_compute. repeat split; reflexivity. Qed.

(** C5, as the code has it.  Unless the current tab is a chroma channel
    locked by autoscale: with the button held and no node selected
    (selection -1), below 20 nodes the new node (mx, my) is put at the
    first place whose node has an x above mx (at the end when there is
    none), the nodes from there on move one place up, the place becomes
    the selection and the count grows by one; in a curve of 3 nodes with
    mx between the x of nodes 0 and 1 the place is 1 and the count becomes
    4.  At 20 nodes nothing is inserted and the parameters stay as they
    are. *)
Theorem drag_inserts_node (self : dt_iop_module_t) (widget : GtkAllocation)
    (event : GdkEventMotion) :
  let ch := channel (gui_data self) in
  let t := sel3 (tonecurve (params self)) ch in
  let n := sel3 (tonecurve_nodes (params self)) ch in
  let mx := norm_x widget event in
  let my := norm_y widget event in
  let self' := dt_iop_tonecurve_motion_notify self widget event in
  let t' := sel3 (tonecurve (params self')) ch in
  chroma_locked (params self) (gui_data self) = false ->
  button1 event = true ->
  selected (gui_data self) = -1 ->
  Z.of_nat (length t) = MAXNODES -> 1 <= n <= MAXNODES ->
  (n < 20 ->
     exists k,
       0 <= k <= n /\
       (forall j, 0 <= j < k -> fgt (x (nget t j)) mx = false) /\
       (k < n -> fgt (x (nget t k)) mx = true) /\
       selected (gui_data self') = k /\
       sel3 (tonecurve_nodes (params self')) ch = n + 1 /\
       (forall j, 0 <= j < k -> nget t' j = nget t j) /\
       nget t' k = Node mx my /\
       (forall j, k < j <= n -> nget t' j = nget t (j - 1))) /\
  (n = 3 -> fle (x (nget t 0)) mx = true -> flt mx (x (nget t 1)) = true ->
     selected (gui_data self') = 1 /\
     sel3 (tonecurve_nodes (params self')) ch = 4 /\
     nget t' 1 = Node mx my) /\
  (n = 20 -> params self' = params self /\ selected (gui_data self') = -1).
Proof.
  intros ch t n mx my self' t' Hlock Hbtn Hsel Hlen Hn. unfold MAXNODES in *.
  assert (Hins : n < 20 ->
            self' = {| params :=
                         {| tonecurve :=
                              upd3 (tonecurve (params self)) ch
                                (aset (shift_up (Z.to_nat (n - insert_place t n mx (-1))) n t)
                                      (insert_place t n mx (-1)) (Node mx my));
                            tonecurve_nodes := upd3 (tonecurve_nodes (params self)) ch (n + 1);
                            tonecurve_type := tonecurve_type (params self);
                            tonecurve_autoscale_ab := tonecurve_autoscale_ab (params self);
                            tonecurve_preset := tonecurve_preset (params self) |};
                       gui_data :=
                         {| channel := ch; mouse_x := pointer_x widget event;
                            mouse_y := pointer_y widget event;
                            selected := insert_place t n mx (-1) |} |}).
  { intros Hlt. subst self'. unfold dt_iop_tonecurve_motion_notify.
    rewrite Hlock, Hbtn. cbn [selected channel mouse_x mouse_y]. fold ch t n mx my.
    rewrite Hsel. change (-1 >=? 0) with false. change (-1 >=? -1) with true.
    replace (n <? 20) with true by (symmetry; apply Z.ltb_lt; exact Hlt).
    cbn [andb]. rewrite set_x_set_y. reflexivity. }
  assert (Hgen : n < 20 ->
     exists k,
       0 <= k <= n /\
       (forall j, 0 <= j < k -> fgt (x (nget t j)) mx = false) /\
       (k < n -> fgt (x (nget t k)) mx = true) /\
       selected (gui_data self') = k /\
       sel3 (tonecurve_nodes (params self')) ch = n + 1 /\
       (forall j, 0 <= j < k -> nget t' j = nget t j) /\
       nget t' k = Node mx my /\
       (forall j, k < j <= n -> nget t' j = nget t (j - 1))).
  { intros Hlt. specialize (Hins Hlt). clearbody self'. subst self' t'.
    cbn [params gui_data selected tonecurve tonecurve_nodes].
    rewrite !sel3_upd3_same.
    destruct (insert_place_spec t n mx) as (Hk & Hbefore & Hat); [lia|].
    set (k := insert_place t n mx (-1)) in *. exists k.
    assert (Hget : forall j,
              nget (aset (shift_up (Z.to_nat (n - k)) n t) k (Node mx my)) j
              = if k =? j then Node mx my
                else if (k <? j) && (j <=? n) then nget t (j - 1)
                else nget t j).
    { intros j.
      rewrite nget_aset by (rewrite shift_up_length; lia).
      rewrite shift_up_get by lia. rewrite Z2Nat.id by lia.
      replace (n - (n - k)) with k by lia. reflexivity. }
    split; [exact Hk|]. split; [exact Hbefore|]. split; [exact Hat|].
    split; [reflexivity|]. split; [reflexivity|].
    split; [|split].
    - intros j Hj. rewrite Hget.
      destruct (Z.eqb_spec k j); [lia|].
      destruct (Z.ltb_spec k j); [lia|]. reflexivity.
    - rewrite Hget, Z.eqb_refl. reflexivity.
    - intros j Hj. rewrite Hget.
      destruct (Z.eqb_spec k j); [lia|].
      destruct (Z.ltb_spec k j); [|lia].
      destruct (Z.leb_spec j n); [|lia]. reflexivity. }
  split; [exact Hgen|]. split.
  - intros H3 Hle Hlt.
    destruct Hgen as (k & Hk & Hbefore & Hat & Hs & Hc & _ & Hnew & _); [lia|].
    assert (Hk1 : k = 1).
    { pose proof (fle_not_fgt _ _ Hle) as H0.
      destruct (Z.eq_dec k 0) as [-> | Hk0]; [rewrite Hat in H0 by lia; discriminate|].
      destruct (Z_le_dec k 1) as [|Hgt]; [lia|].
      assert (H1 : fgt (x (nget t 1)) mx = false) by (apply Hbefore; lia).
      unfold fgt in H1. unfold flt in Hlt. congruence. }
    rewrite Hk1 in *. rewrite Hs, Hc, Hnew, H3. repeat split.
  - intros H20. subst self'. unfold dt_iop_tonecurve_motion_notify.
    rewrite Hlock, Hbtn. cbn [selected channel mouse_x mouse_y]. fold ch t n mx my.
    rewrite Hsel, H20. change (-1 >=? 0) with false. change (20 <? 20) with false.
    cbn [andb params gui_data selected]. split; reflexivity.
Qed.

Lemma drag_inserts_node_witness :
  let self := example_module ch_a 0 (-1) in
  let t := sel3 (tonecurve (params self)) ch_a in
  let mx := norm_x example_widget (example_move 65 129 256) in
  let my := norm_y example_widget (example_move 65 129 256) in
  let self' := dt_iop_tonecurve_motion_notify self example_widget
                 (example_move 65 129 256) in
  let t' := sel3 (tonecurve (params self')) ch_a in
  selected (gui_data self') = 1 /\
  sel3 (tonecurve_nodes (params self')) ch_a = 4 /\
  nget t' 1 = Node mx my.
Proof.
  apply (drag_inserts_node (example_module ch_a 0 (-1)) example_widget
           (example_move 65 129 256));
    vm_compute; repeat split; congruence.
Defined.

(** C5 as it is stated fails when the curve is one of the chroma curves
    and autoscale is on: the button is held, no node is selected and the
    curve of channel a has 3 nodes, yet no node is inserted. *)
Lemma locked_drag_does_not_insert :
  let self := example_module ch_a 1 (-1) in
  let event := example_move 65 129 256 in
  let self' := dt_iop_tonecurve_motion_notify self example_widget event in
  (button1 event = true /\ selected (gui_data self) = -1 /\
   sel3 (tonecurve_nodes (params self)) ch_a = 3) /\
  sel3 (tonecurve_nodes (params self')) ch_a = 3 /\
  selected (gui_data self') = -1 /\
  params self' = params self.
Proof. vm_compute. repeat split; reflexivity. Qed.

(** C6, as the code has it.  While autoscale is on and the current tab is
    a chroma channel, a pointer move and a turn of the wheel leave the
    module exactly as it was: the point list, the node count and the
    coordinates, and also the selection and the stored pointer position. *)
Theorem locked_chroma_ignores_events (self : dt_iop_module_t) (widget : GtkAllocation)
    (event : GdkEventMotion) (direction : GdkScrollDirection) :
  tonecurve_autoscale_ab (params self) <> 0 ->
  channel (gui_data self) <> ch_L ->
  dt_iop_tonecurve_motion_notify self widget event = self /\
  scrolled self direction = self.
Proof.
  intros Hauto Hch.
  assert (Hlock : chroma_locked (params self) (gui_data self) = true).
  { unfold chroma_locked. apply Z.eqb_neq in Hauto. rewrite Hauto.
    destruct (channel (gui_data self)); [congruence | reflexivity | reflexivity]. }
  unfold dt_iop_tonecurve_motion_notify, scrolled. rewrite Hlock. split; reflexivity.
Qed.

Lemma locked_chroma_ignores_events_witness :
  dt_iop_tonecurve_motion_notify (example_module ch_a 1 (-1)) example_widget
    (example_move 129 129 0) = example_module ch_a 1 (-1) /\
  scrolled (example_module ch_a 1 (-1)) GDK_SCROLL_UP = example_module ch_a 1 (-1).
Proof.
  apply (locked_chroma_ignores_events (example_module ch_a 1 (-1)) example_widget
           (example_move 129 129 0) GDK_SCROLL_UP);
    vm_compute; congruence.
Defined.

(** C6 as it is stated fails: with autoscale on and the chroma tab a, a
    pointer that rests on node 1 of the curve, at (0.5, 0.5), does not
    select it.  The hit test would return 1 and does so once autoscale is
    off; with autoscale on the selection stays -1 and the pointer position
    is not even recorded. *)
Lemma locked_chroma_does_not_hover :
  let event := example_move 129 129 0 in
  let self := example_module ch_a 1 (-1) in
  let self' := dt_iop_tonecurve_motion_notify self example_widget event in
  nearest_node (sel3 (tonecurve (params self)) ch_a)
               (sel3 (tonecurve_nodes (params self)) ch_a)
               (norm_x example_widget event) (norm_y example_widget event) = 1 /\
  selected (gui_data (dt_iop_tonecurve_motion_notify (example_module ch_a 0 (-1))
                        example_widget event)) = 1 /\
  selected (gui_data self') = -1 /\
  selected (gui_data self') <> 1 /\
  mouse_x (gui_data self') = mouse_x (gui_data self).
Proof. vm_compute. repeat split; congruence. Qed.

(** *** The test of the deletion is not strict *)

Lemma feq_fle (a b : float) : feq a b = true -> fle a b = true /\ fle b a = true.
Proof.
  unfold feq, fle, SFeqb, SFleb. rewrite (SFcompare_antisym a b).
  destruct (SFcompare a b) as [[]|]; simpl; try discriminate. split; reflexivity.
Qed.

(** In an ordered channel every node has a smaller x than every later
    one. *)
Lemma strictly_increasing_lt (t : list dt_iop_tonecurve_node_t) (n i j : Z) :
  strictly_increasing t n = true -> 0 <= i -> i < j -> j < n ->
  flt (x (nget t i)) (x (nget t j)) = true.
Proof.
  intros Hs Hi Hij Hj. rewrite strictly_increasing_spec in Hs.
  assert (H : forall d : nat, i + 1 + Z.of_nat d < n ->
            flt (x (nget t i)) (x (nget t (i + 1 + Z.of_nat d))) = true).
  { induction d as [|d IH]; intros Hd.
    - replace (i + 1 + Z.of_nat 0) with (i + 1) by lia. apply Hs; lia.
    - apply flt_trans with (x (nget t (i + 1 + Z.of_nat d))); [apply IH; lia|].
      replace (i + 1 + Z.of_nat (S d)) with (i + 1 + Z.of_nat d + 1) by lia.
      apply Hs; lia. }
  replace j with (i + 1 + Z.of_nat (Z.to_nat (j - i - 1))) by lia.
  apply H. lia.
Qed.

Lemma feq_nan (a b : float) : is_nan a = true \/ is_nan b = true -> feq a b = false.
Proof. intros [H | H]; destruct a, b; try discriminate; reflexivity. Qed.

(** The nodes in use of an ordered channel have different x. *)
Lemma ordered_distinct (t : list dt_iop_tonecurve_node_t) (n i j : Z) :
  strictly_increasing t n = true -> 0 <= i -> i < j -> j < n ->
  feq (x (nget t i)) (x (nget t j)) = false.
Proof.
  intros Hs Hi Hij Hj. apply flt_not_feq.
  apply strictly_increasing_lt with (n := n); assumption.
Qed.

(** A drag that does not violate the order leaves different x, also when
    the x of the pointer is not a number. *)
Lemma move_keeps_distinct (t : list dt_iop_tonecurve_node_t) (n sel : Z)
    (mx my : float) (i j : Z) :
  curve_ok t n = true -> 0 <= sel -> order_violated t n sel mx = false ->
  0 <= i -> i < j -> j < n ->
  feq (x (nget (aset t sel (Node mx my)) i)) (x (nget (aset t sel (Node mx my)) j))
  = false.
Proof.
  intros Hok Hsel Hv Hi Hij Hj.
  destruct (is_nan mx) eqn:Hnan.
  - pose proof Hok as Hok'. apply curve_ok_spec in Hok' as (Hlen & Hn & Hs).
    unfold MAXNODES in *.
    destruct (Z.eq_dec i sel) as [-> | Hi'].
    + rewrite (nget_aset t sel sel) by lia. rewrite Z.eqb_refl. cbn [x].
      apply feq_nan. left. exact Hnan.
    + destruct (Z.eq_dec j sel) as [-> | Hj'].
      * rewrite (nget_aset t sel sel) by lia. rewrite Z.eqb_refl. cbn [x].
        apply feq_nan. right. exact Hnan.
      * unfold nget. rewrite !aget_aset_ne by lia.
        apply (ordered_distinct t n); assumption.
  - pose proof (drag_move_any t n sel mx my Hok Hsel Hnan Hv) as Hok'.
    apply curve_ok_spec in Hok' as (_ & _ & Hs').
    apply (ordered_distinct _ n); assumption.
Qed.

(** C10, as the code has it.  In a channel of more than 2 nodes with a
    node selected: unless the tab is a chroma channel locked by autoscale,
    a move with the button held that takes the selected node to exactly
    the x of a neighbour already counts as a violation of the order and
    deletes the dragged node: the nodes before it stay, the nodes behind
    it move one place down, the count drops by one and the selection
    becomes -2.  So if the channel was in good shape, no two of its nodes
    have the same x after a pointer move with a node selected, whatever
    the move is. *)
Theorem drag_test_is_not_strict (self : dt_iop_module_t) (widget : GtkAllocation)
    (event : GdkEventMotion) :
  let ch := channel (gui_data self) in
  let t := sel3 (tonecurve (params self)) ch in
  let n := sel3 (tonecurve_nodes (params self)) ch in
  let sel := selected (gui_data self) in
  let mx := norm_x widget event in
  let self' := dt_iop_tonecurve_motion_notify self widget event in
  let t' := sel3 (tonecurve (params self')) ch in
  let n' := sel3 (tonecurve_nodes (params self')) ch in
  2 < n -> n <= Z.of_nat (length t) -> 0 <= sel ->
  (chroma_locked (params self) (gui_data self) = false ->
   button1 event = true -> sel < n ->
   (0 < sel /\ feq (x (nget t (sel - 1))) mx = true)
   \/ (sel < n - 1 /\ feq (x (nget t (sel + 1))) mx = true) ->
   n' = n - 1 /\ selected (gui_data self') = -2 /\
   (forall j, 0 <= j < sel -> nget t' j = nget t j) /\
   (forall j, sel <= j < n - 1 -> nget t' j = nget t (j + 1))) /\
  (channel_ok (params self) ch = true ->
   forall i j, 0 <= i -> i < j -> j < n' ->
     feq (x (nget t' i)) (x (nget t' j)) = false).
Proof.
  intros ch t n sel mx self' t' n' Hn Hlen Hsel. split.
  - intros Hlock Hbtn Hin Heq.
    assert (Hv : order_violated t n sel mx = true).
    { unfold order_violated. destruct Heq as [[Hpos Hf] | [Hlast Hf]].
      - apply feq_fle in Hf as [_ Hf].
        replace (sel >? 0) with true by (symmetry; rewrite Z.gtb_ltb; apply Z.ltb_lt; lia).
        unfold fge. unfold fle in Hf. cbn [andb]. rewrite Hf. reflexivity.
      - apply feq_fle in Hf as [Hf _].
        replace (sel <? n - 1) with true by (symmetry; apply Z.ltb_lt; lia).
        cbn [andb]. rewrite Hf. apply orb_true_r. }
    subst t' n' self'. unfold dt_iop_tonecurve_motion_notify.
    rewrite Hlock, Hbtn. cbn [selected channel]. fold ch t n sel mx.
    replace (sel >=? 0) with true by (symmetry; rewrite Z.geb_leb; apply Z.leb_le; lia).
    replace (n >? 2) with true by (symmetry; rewrite Z.gtb_ltb; apply Z.ltb_lt; lia).
    rewrite set_x_set_y, order_violated_aset. fold mx. rewrite Hv.
    cbn [andb params gui_data selected tonecurve tonecurve_nodes].
    rewrite !sel3_upd3_same.
    split; [reflexivity|]. split; [reflexivity|]. split.
    + intros j Hj. rewrite shift_down_get by (rewrite ?length_aset; lia).
      rewrite Z2Nat.id by lia. rewrite !nget_aset by lia.
      destruct (Z.leb_spec sel j), (Z.ltb_spec j (sel + (n - 1 - sel))),
               (Z.eqb_spec sel j); cbn [andb]; try lia; reflexivity.
    + intros j Hj. rewrite shift_down_get by (rewrite ?length_aset; lia).
      rewrite Z2Nat.id by lia. rewrite !nget_aset by lia.
      destruct (Z.leb_spec sel j), (Z.ltb_spec j (sel + (n - 1 - sel))),
               (Z.eqb_spec sel (j + 1)); cbn [andb]; try lia; reflexivity.
  - intros Hok i j Hi Hij Hj. unfold channel_ok in Hok. fold ch t n in Hok.
    pose proof Hok as Hok'. apply curve_ok_spec in Hok' as (_ & _ & Hs).
    subst t' n' self'. revert Hj. unfold dt_iop_tonecurve_motion_notify.
    fold ch t n sel mx.
    destruct (chroma_locked (params self) (gui_data self));
      [intros Hj; apply (ordered_distinct t n); assumption|].
    cbn [selected channel]. fold sel.
    destruct (button1 event);
      [|cbn [params]; intros Hj; apply (ordered_distinct t n); assumption].
    replace (sel >=? 0) with true by (symmetry; rewrite Z.geb_leb; apply Z.leb_le; lia).
    replace (n >? 2) with true by (symmetry; rewrite Z.gtb_ltb; apply Z.ltb_lt; lia).
    rewrite set_x_set_y, order_violated_aset. cbn [andb].
    destruct (order_violated t n sel mx) eqn:Ev;
      cbn [params tonecurve tonecurve_nodes]; rewrite ?sel3_upd3_same; intros Hj.
    + pose proof (drag_delete_any t n sel (Node mx (norm_y widget event)) Hok Hn Hsel)
        as Hdel.
      apply curve_ok_spec in Hdel as (_ & _ & Hs').
      apply (ordered_distinct _ (n - 1)); assumption.
    + apply (move_keeps_distinct t n); assumption.
Qed.

Lemma drag_test_is_not_strict_witness :
  let self := example_module ch_a 0 1 in
  let event := example_move 257 129 256 in
  let t := sel3 (tonecurve (params self)) ch_a in
  let self' := dt_iop_tonecurve_motion_notify self example_widget event in
  let t' := sel3 (tonecurve (params self')) ch_a in
  let n' := sel3 (tonecurve_nodes (params self')) ch_a in
  (feq (x (nget t 2)) (norm_x example_widget event) = true /\
   n' = 3 - 1 /\ selected (gui_data self') = -2 /\
   nget t' 0 = nget t 0 /\ nget t' 1 = nget t 2) /\
  feq (x (nget t' 0)) (x (nget t' 1)) = false.
Proof.
  destruct (drag_test_is_not_strict (example_module ch_a 0 1) example_widget
              (example_move 257 129 256)
              ltac:(vm_compute; reflexivity) ltac:(vm_compute; congruence)
              ltac:(vm_compute; congruence))
    as [Hdel Hdistinct].
  destruct Hdel as (Hn' & Hsel' & Hbefore & Hbehind);
    [vm_compute; reflexivity | vm_compute; reflexivity | vm_compute; reflexivity
    | right; split; vm_compute; reflexivity |].
  split.
  - split; [vm_compute; reflexivity|].
    split; [exact Hn'|]. split; [exact Hsel'|].
    split; [apply Hbefore; vm_compute; split; congruence
           | apply (Hbehind 1); vm_compute; split; congruence].
  - apply Hdistinct; [vm_compute; reflexivity | | |]; vm_compute; congruence.
Defined.

(** C10 as it is stated fails in two ways.  On the default luminance
    curve, which has two nodes, hovering over the first node and dragging
    it to the right edge leaves both nodes in place with the same x.  And
    on the tab of the chroma channel a, locked by autoscale as it is by
    default, the move that takes the selected node 1 of the three node
    curve to the x of node 2 is ignored: three nodes stay, node 1 where
    it was. *)
Lemma drag_onto_neighbour_without_delete :
  let self := example_module ch_L 1 (-1) in
  let self' := motion_run self example_widget example_drag_right in
  let t' := sel3 (tonecurve (params self')) ch_L in
  let locked := example_module ch_a 1 1 in
  let event := example_move 257 129 256 in
  let locked' := dt_iop_tonecurve_motion_notify locked example_widget event in
  (curves_ok (params self) = true /\
   sel3 (tonecurve_nodes (params self')) ch_L = 2 /\
   selected (gui_data self') = 0 /\
   feq (x (nget t' 0)) (x (nget t' 1)) = true) /\
  (button1 event = true /\
   feq (x (nget (sel3 (tonecurve (params locked)) ch_a) 2))
       (norm_x example_widget event) = true /\
   sel3 (tonecurve_nodes (params locked')) ch_a = 3 /\
   selected (gui_data locked') = 1 /\
   nget (sel3 (tonecurve (params locked')) ch_a) 1
   = nget (sel3 (tonecurve (params locked)) ch_a) 1).
Proof. vm_compute. repeat split; reflexivity. Qed.

(** * Further properties of the code *)

(** ** The double click that resets a curve *)

Lemma sel3_upd3_other {A : Type} (v : chan3 A) (ch ch' : tonecurve_channel_t) (a : A) :
  ch' <> ch -> sel3 (upd3 v ch a) ch' = sel3 v ch'.
Proof. destruct ch, ch'; intros H; try reflexivity; congruence. Qed.

Lemma reset_nodes_length (cnt : nat) (k : Z) (src t : list dt_iop_tonecurve_node_t) :
  length (reset_nodes cnt k src t) = length t.
Proof.
  revert k t. induction cnt as [|cnt IH]; intros k t; [reflexivity|].
  cbn [reset_nodes]. rewrite copy_node, IH. apply length_aset.
Qed.

(** The loop of the reset copies the nodes [k], ..., [k+cnt-1] of the
    factory curve and leaves the other places as they are. *)
Lemma reset_nodes_get (cnt : nat) (k : Z) (src t : list dt_iop_tonecurve_node_t) (j : Z) :
  0 <= k -> k + Z.of_nat cnt <= Z.of_nat (length t) ->
  nget (reset_nodes cnt k src t) j
  = if (k <=? j) && (j <? k + Z.of_nat cnt) then nget src j else nget t j.
Proof.
  revert k t. induction cnt as [|cnt IH]; intros k t Hk Hlen.
  - cbn [reset_nodes].
    destruct ((k <=? j) && (j <? k + Z.of_nat 0)) eqn:E; [|reflexivity].
    apply andb_true_iff in E as [E1 E2].
    apply Z.leb_le in E1. apply Z.ltb_lt in E2. lia.
  - cbn [reset_nodes]. rewrite copy_node.
    rewrite IH by (rewrite ?length_aset; lia).
    rewrite nget_aset by lia.
    destruct (Z.leb_spec k j), (Z.ltb_spec j (k + Z.of_nat (S cnt))),
             (Z.leb_spec (k + 1) j), (Z.ltb_spec j (k + 1 + Z.of_nat cnt)),
             (Z.eqb_spec k j);
      simpl; try lia; try reflexivity; subst; reflexivity.
Qed.

(** X1.  A double click of button 1, on a tab that autoscale does not
    lock, puts the factory curve in the current channel: the node count
    and the curve type are the factory's, the nodes in use are the
    factory's nodes, the places behind them keep what they held, the
    selection becomes -2 and the handler returns TRUE.  The other
    channels, the autoscale flag, the preset and the tab are not
    touched. *)
Theorem double_click_resets_channel (self : dt_iop_module_t)
    (factory_params : dt_iop_tonecurve_params_t) (event : GdkEventButton) :
  let p := params self in
  let ch := channel (gui_data self) in
  let n := sel3 (tonecurve_nodes factory_params) ch in
  let r := dt_iop_tonecurve_button_press self factory_params event in
  let p' := params (fst r) in
  event_button event = 1 -> event_type event = GDK_2BUTTON_PRESS ->
  chroma_locked p (gui_data self) = false ->
  0 <= n <= Z.of_nat (length (sel3 (tonecurve p) ch)) ->
  snd r = true /\
  sel3 (tonecurve_nodes p') ch = n /\
  sel3 (tonecurve_type p') ch = sel3 (tonecurve_type factory_params) ch /\
  (forall j, 0 <= j < n ->
     nget (sel3 (tonecurve p') ch) j = nget (sel3 (tonecurve factory_params) ch) j) /\
  (forall j, n <= j ->
     nget (sel3 (tonecurve p') ch) j = nget (sel3 (tonecurve p) ch) j) /\
  (forall ch', ch' <> ch ->
     sel3 (tonecurve p') ch' = sel3 (tonecurve p) ch' /\
     sel3 (tonecurve_nodes p') ch' = sel3 (tonecurve_nodes p) ch' /\
     sel3 (tonecurve_type p') ch' = sel3 (tonecurve_type p) ch') /\
  tonecurve_autoscale_ab p' = tonecurve_autoscale_ab p /\
  tonecurve_preset p' = tonecurve_preset p /\
  selected (gui_data (fst r)) = -2 /\
  channel (gui_data (fst r)) = ch.
Proof.
  intros p ch n r p' Hbtn Hty Hlock Hn.
  subst p' r. unfold dt_iop_tonecurve_button_press.
  rewrite Hbtn, Hty. fold p ch. rewrite Hlock. cbn [Z.eqb Pos.eqb is_2button_press andb negb].
  cbn [fst snd params gui_data tonecurve tonecurve_nodes tonecurve_type
       tonecurve_autoscale_ab tonecurve_preset selected channel].
  rewrite !sel3_upd3_same. fold n.
  split; [reflexivity|]. split; [reflexivity|]. split; [reflexivity|].
  split; [|split; [|split]].
  - intros j Hj. rewrite reset_nodes_get by lia. rewrite Z2Nat.id by lia.
    destruct (Z.leb_spec 0 j), (Z.ltb_spec j (0 + n)); simpl; try lia. reflexivity.
  - intros j Hj. rewrite reset_nodes_get by lia. rewrite Z2Nat.id by lia.
    destruct (Z.leb_spec 0 j), (Z.ltb_spec j (0 + n)); simpl; try lia; reflexivity.
  - intros ch' Hne. destruct ch', ch; try congruence; repeat split.
  - repeat split.
Qed.

Lemma double_click_resets_channel_witness :
  let r := dt_iop_tonecurve_button_press example_disordered default_params
             example_double_click in
  snd r = true /\
  sel3 (tonecurve_nodes (params (fst r))) ch_L = 2 /\
  nget (sel3 (tonecurve (params (fst r))) ch_L) 0 = Node f0 f0 /\
  sel3 (tonecurve (params (fst r))) ch_a
  = sel3 (tonecurve (params example_disordered)) ch_a /\
  selected (gui_data (fst r)) = -2.
Proof.
  destruct (double_click_resets_channel example_disordered default_params
              example_double_click)
    as (Hret & Hn & _ & Hnodes & _ & Hother & _ & _ & Hsel & _);
    [vm_compute; repeat split; congruence ..|].
  split; [exact Hret|]. split; [exact Hn|].
  split; [apply (Hnodes 0); vm_compute; split; congruence|].
  split; [|exact Hsel].
  apply (Hother ch_a). vm_compute. discriminate.
Defined.

(** X2.  Any other press is not the handler's business: unless the event
    is a double click of button 1 the module stays as it is and the
    handler returns FALSE; a double click on a chroma tab that autoscale
    locks also leaves the module as it is, but returns TRUE. *)
Theorem other_presses_change_nothing (self : dt_iop_module_t)
    (factory_params : dt_iop_tonecurve_params_t) (event : GdkEventButton) :
  let r := dt_iop_tonecurve_button_press self factory_params event in
  (event_button event <> 1 \/ event_type event <> GDK_2BUTTON_PRESS ->
   r = (self, false)) /\
  (event_button event = 1 -> event_type event = GDK_2BUTTON_PRESS ->
   chroma_locked (params self) (gui_data self) = true ->
   r = (self, true)).
Proof.
  intros r. subst r. unfold dt_iop_tonecurve_button_press. split.
  - intros [Hb | Ht].
    + apply Z.eqb_neq in Hb. rewrite Hb. reflexivity.
    + destruct (event_type event); try congruence;
        rewrite andb_false_r; reflexivity.
  - intros Hb Ht Hlock. rewrite Hb, Ht, Hlock. reflexivity.
Qed.

Lemma other_presses_change_nothing_witness :
  dt_iop_tonecurve_button_press example_disordered default_params
    {| event_button := 1; event_type := GDK_BUTTON_PRESS |}
  = (example_disordered, false) /\
  dt_iop_tonecurve_button_press example_disordered default_params
    {| event_button := 3; event_type := GDK_2BUTTON_PRESS |}
  = (example_disordered, false) /\
  dt_iop_tonecurve_button_press (example_module ch_b 1 2) default_params
    example_double_click
  = (example_module ch_b 1 2, true).
Proof.
  split; [|split].
  - apply (other_presses_change_nothing example_disordered default_params
             {| event_button := 1; event_type := GDK_BUTTON_PRESS |}).
    right. discriminate.
  - apply (other_presses_change_nothing example_disordered default_params
             {| event_button := 3; event_type := GDK_2BUTTON_PRESS |}).
    left. discriminate.
  - apply (other_presses_change_nothing (example_module ch_b 1 2) default_params
             example_double_click); reflexivity.
Defined.

(** The order of a channel is a matter of its nodes in use only. *)
Lemma strictly_increasing_ext (t1 t2 : list dt_iop_tonecurve_node_t) (n : Z) :
  (forall j, 0 <= j < n -> nget t1 j = nget t2 j) ->
  strictly_increasing t1 n = strictly_increasing t2 n.
Proof.
  intros H.
  destruct (strictly_increasing t2 n) eqn:E2.
  - rewrite strictly_increasing_spec in *. intros j H0 H1.
    rewrite !H by lia. apply E2; lia.
  - destruct (strictly_increasing t1 n) eqn:E1; [|reflexivity].
    rewrite <- E2. symmetry. rewrite strictly_increasing_spec in *.
    intros j H0 H1. rewrite <- !H by lia. apply E1; lia.
Qed.

(** What the handler returns for a double click of button 1 on a tab
    that is not locked. *)
Lemma double_click_unfold (self : dt_iop_module_t)
    (factory_params : dt_iop_tonecurve_params_t) (event : GdkEventButton) :
  event_button event = 1 -> event_type event = GDK_2BUTTON_PRESS ->
  chroma_locked (params self) (gui_data self) = false ->
  let p := params self in
  let ch := channel (gui_data self) in
  let n := sel3 (tonecurve_nodes factory_params) ch in
  dt_iop_tonecurve_button_press self factory_params event
  = ({| params :=
          {| tonecurve :=
               upd3 (tonecurve p) ch
                 (reset_nodes (Z.to_nat n) 0 (sel3 (tonecurve factory_params) ch)
                    (sel3 (tonecurve p) ch));
             tonecurve_nodes := upd3 (tonecurve_nodes p) ch n;
             tonecurve_type :=
               upd3 (tonecurve_type p) ch (sel3 (tonecurve_type factory_params) ch);
             tonecurve_autoscale_ab := tonecurve_autoscale_ab p;
             tonecurve_preset := tonecurve_preset p |};
        gui_data := {| channel := ch; mouse_x := mouse_x (gui_data self);
                       mouse_y := mouse_y (gui_data self); selected := -2 |} |},
     true).
Proof.
  intros Hbtn Hty Hlock p ch n. unfold dt_iop_tonecurve_button_press.
  rewrite Hbtn, Hty, Hlock. reflexivity.
Qed.

(** X3.  The double click repairs the order of the current channel: when
    the factory curve of the channel is in good shape and the other
    channels are, the editor is in good shape after the reset, whatever
    the state of the current channel was. *)
Theorem double_click_restores_order (self : dt_iop_module_t)
    (factory_params : dt_iop_tonecurve_params_t) (event : GdkEventButton) :
  let ch := channel (gui_data self) in
  event_button event = 1 -> event_type event = GDK_2BUTTON_PRESS ->
  chroma_locked (params self) (gui_data self) = false ->
  Z.of_nat (length (sel3 (tonecurve (params self)) ch)) = MAXNODES ->
  channel_ok factory_params ch = true ->
  (forall ch', ch' <> ch -> channel_ok (params self) ch' = true) ->
  editor_ok (fst (dt_iop_tonecurve_button_press self factory_params event)) = true.
Proof.
  intros ch Hbtn Hty Hlock Hlen Hfac Hothers.
  unfold channel_ok in Hfac. apply curve_ok_spec in Hfac as (Hflen & Hfn & Hfs).
  rewrite (double_click_unfold self factory_params event Hbtn Hty Hlock).
  cbn [fst]. fold ch.
  apply editor_ok_spec. cbn [params gui_data selected channel tonecurve_nodes]. split.
  - intros ch'. unfold channel_ok. cbn [tonecurve tonecurve_nodes].
    destruct (channel_eq_dec ch' ch) as [-> | Hne].
    + rewrite !sel3_upd3_same. apply curve_ok_spec.
      split; [rewrite reset_nodes_length; exact Hlen|]. split; [exact Hfn|].
      rewrite (strictly_increasing_ext _ (sel3 (tonecurve factory_params) ch));
        [exact Hfs|].
      intros j Hj. unfold MAXNODES in *.
      rewrite reset_nodes_get by lia. rewrite Z2Nat.id by lia.
      destruct (Z.leb_spec 0 j), (Z.ltb_spec j (0 + sel3 (tonecurve_nodes factory_params) ch));
        simpl; try lia; reflexivity.
    + rewrite !sel3_upd3_other by exact Hne. apply (Hothers ch' Hne).
  - rewrite sel3_upd3_same. lia.
Qed.

Lemma double_click_restores_order_witness :
  editor_ok example_disordered = false /\
  editor_ok (fst (dt_iop_tonecurve_button_press example_disordered default_params
                    example_double_click)) = true.
Proof.
  split; [vm_compute; reflexivity|].
  apply (double_click_restores_order example_disordered default_params
           example_double_click);
    try (vm_compute; congruence).
  intros [] Hne; try (vm_compute; reflexivity).
  exfalso. apply Hne. vm_compute. reflexivity.
Defined.

(** X4.  After the reset a move with the button still held inserts
    nothing: the parameters stay those of the reset. *)
Theorem double_click_then_drag (self : dt_iop_module_t)
    (factory_params : dt_iop_tonecurve_params_t) (event : GdkEventButton)
    (widget : GtkAllocation) (move : GdkEventMotion) :
  let self' := fst (dt_iop_tonecurve_button_press self factory_params event) in
  event_button event = 1 -> event_type event = GDK_2BUTTON_PRESS ->
  chroma_locked (params self) (gui_data self) = false ->
  button1 move = true ->
  params (dt_iop_tonecurve_motion_notify self' widget move) = params self'.
Proof.
  intros self' Hbtn Hty Hlock Hmove.
  apply suppressed_blocks_insert; [|exact Hmove].
  subst self'. unfold dt_iop_tonecurve_button_press.
  rewrite Hbtn, Hty, Hlock. reflexivity.
Qed.

Lemma double_click_then_drag_witness :
  let self' := fst (dt_iop_tonecurve_button_press example_disordered default_params
                      example_double_click) in
  params (dt_iop_tonecurve_motion_notify self' example_widget
            (example_move 129 65 256)) = params self'.
Proof.
  apply (double_click_then_drag example_disordered default_params
           example_double_click example_widget (example_move 129 65 256));
    vm_compute; reflexivity.
Defined.

(** ** The wheel *)

(** What a turn of the wheel writes to the y of the selected node. *)
Lemma scrolled_unfold (self : dt_iop_module_t) (direction : GdkScrollDirection) :
  chroma_locked (params self) (gui_data self) = false ->
  0 <= selected (gui_data self) ->
  let ch := channel (gui_data self) in
  let t := sel3 (tonecurve (params self)) ch in
  let sel := selected (gui_data self) in
  let v := match direction with
           | GDK_SCROLL_UP => fMAX f0 (F32.add (y (nget t sel)) f0_001)
           | GDK_SCROLL_DOWN => fMIN f1 (F32.sub (y (nget t sel)) f0_001)
           | _ => y (nget t sel)
           end in
  scrolled self direction
  = {| params := {| tonecurve := upd3 (tonecurve (params self)) ch
                                   (aset t sel (Node (x (nget t sel)) v));
                    tonecurve_nodes := tonecurve_nodes (params self);
                    tonecurve_type := tonecurve_type (params self);
                    tonecurve_autoscale_ab := tonecurve_autoscale_ab (params self);
                    tonecurve_preset := tonecurve_preset (params self) |};
       gui_data := gui_data self |}.
Proof.
  intros Hlock Hsel ch t sel v. unfold scrolled. rewrite Hlock.
  replace (selected (gui_data self) >=? 0) with true
    by (symmetry; rewrite Z.geb_leb; apply Z.leb_le; exact Hsel).
  fold ch t sel. f_equal. f_equal. f_equal.
  assert (Hid : aset t sel (Node (x (nget t sel)) (y (nget t sel))) = t).
  { destruct (Z_lt_dec sel (Z.of_nat (length t))) as [Hin | Hout].
    - unfold aset, nget, aget.
      destruct (sel <? 0) eqn:E; [reflexivity|].
      apply list_insert_id. rewrite nth_lookup.
      destruct (t !! Z.to_nat sel) as [n|] eqn:El.
      + destruct n; reflexivity.
      + apply lookup_ge_None in El. lia.
    - apply aset_out_of_range. lia. }
  subst v. destruct direction; unfold set_y; try reflexivity; exact (eq_sym Hid).
Qed.

(** The order of a channel is a matter of the x of its nodes only. *)
Lemma strictly_increasing_same_x (t1 t2 : list dt_iop_tonecurve_node_t) (n : Z) :
  (forall j, x (nget t2 j) = x (nget t1 j)) ->
  strictly_increasing t1 n = true -> strictly_increasing t2 n = true.
Proof.
  intros Hx H. rewrite strictly_increasing_spec in *.
  intros j H0 H1. rewrite !Hx. apply H; assumption.
Qed.

Lemma nget_aset_keeps_x (t : list dt_iop_tonecurve_node_t) (i j : Z) (v : float) :
  x (nget (aset t i (Node (x (nget t i)) v)) j) = x (nget t j).
Proof.
  destruct (Z_lt_dec i 0) as [Hneg | Hnn];
    [rewrite aset_out_of_range by lia; reflexivity|].
  destruct (Z_lt_dec i (Z.of_nat (length t))) as [Hin | Hout];
    [|rewrite aset_out_of_range by lia; reflexivity].
  rewrite nget_aset by lia.
  destruct (Z.eqb_spec i j) as [-> | Hne]; reflexivity.
Qed.

(** X5.  A turn of the wheel changes at most the y of the selected node of
    the current channel: the selection, the pointer, the tab, the node
    counts, the types, the autoscale flag and the preset stay, every node
    keeps its x, every node but the selected one of the current channel
    stays as it is, and an editor in good shape stays in good shape. *)
Theorem scrolled_moves_only_y (self : dt_iop_module_t)
    (direction : GdkScrollDirection) :
  let p := params self in
  let self' := scrolled self direction in
  let p' := params self' in
  gui_data self' = gui_data self /\
  tonecurve_nodes p' = tonecurve_nodes p /\
  tonecurve_type p' = tonecurve_type p /\
  tonecurve_autoscale_ab p' = tonecurve_autoscale_ab p /\
  tonecurve_preset p' = tonecurve_preset p /\
  (forall ch j,
     x (nget (sel3 (tonecurve p') ch) j) = x (nget (sel3 (tonecurve p) ch) j)) /\
  (forall ch j,
     ch <> channel (gui_data self) \/ j <> selected (gui_data self) ->
     nget (sel3 (tonecurve p') ch) j = nget (sel3 (tonecurve p) ch) j) /\
  (editor_ok self = true -> editor_ok self' = true).
Proof.
  intros p self' p'.
  assert (Hcases : self' = self \/
            (0 <= selected (gui_data self) /\
             exists v,
               self' = {| params :=
                            {| tonecurve :=
                                 upd3 (tonecurve p) (channel (gui_data self))
                                   (aset (sel3 (tonecurve p) (channel (gui_data self)))
                                      (selected (gui_data self))
                                      (Node (x (nget (sel3 (tonecurve p) (channel (gui_data self)))
                                                     (selected (gui_data self)))) v));
                               tonecurve_nodes := tonecurve_nodes p;
                               tonecurve_type := tonecurve_type p;
                               tonecurve_autoscale_ab := tonecurve_autoscale_ab p;
                               tonecurve_preset := tonecurve_preset p |};
                          gui_data := gui_data self |})).
  { destruct (chroma_locked p (gui_data self)) eqn:Hlock.
    - left. subst self'. unfold scrolled. fold p. rewrite Hlock. reflexivity.
    - destruct (Z_le_dec 0 (selected (gui_data self))) as [Hsel | Hsel].
      + right. split; [exact Hsel|]. eexists.
        subst self'. apply scrolled_unfold; assumption.
      + left. subst self'. unfold scrolled. fold p. rewrite Hlock.
        replace (selected (gui_data self) >=? 0) with false; [reflexivity|].
        symmetry. rewrite Z.geb_leb. apply Z.leb_gt. lia. }
  destruct Hcases as [Hsame | (Hsel & v & Hupd)].
  - subst p'. rewrite Hsame. repeat split; auto.
  - assert (Hx : forall ch j,
              x (nget (sel3 (tonecurve p') ch) j) = x (nget (sel3 (tonecurve p) ch) j)).
    { intros ch j. subst p'. rewrite Hupd. cbn [params tonecurve].
      destruct ch, (channel (gui_data self)); cbn [sel3 upd3 at_L at_a at_b];
        try reflexivity; apply nget_aset_keeps_x. }
    split; [rewrite Hupd; reflexivity|].
    split; [subst p'; rewrite Hupd; reflexivity|].
    split; [subst p'; rewrite Hupd; reflexivity|].
    split; [subst p'; rewrite Hupd; reflexivity|].
    split; [subst p'; rewrite Hupd; reflexivity|].
    split; [exact Hx|]. split.
    + intros ch j Hne. subst p'. rewrite Hupd. cbn [params tonecurve].
      destruct (channel_eq_dec ch (channel (gui_data self))) as [-> | Hch].
      * rewrite sel3_upd3_same. unfold nget. apply aget_aset_ne.
        destruct Hne as [Hne | Hne]; [congruence | congruence].
      * destruct ch, (channel (gui_data self)); cbn [sel3 upd3 at_L at_a at_b];
          congruence.
    + intros Hok. apply editor_ok_spec in Hok as [Hch Hs].
      apply editor_ok_spec. split.
      * intros ch. specialize (Hch ch). unfold channel_ok in *.
        apply curve_ok_spec in Hch as (Hlen & Hn & Hinc). apply curve_ok_spec.
        assert (Hnodes : tonecurve_nodes p' = tonecurve_nodes p)
          by (subst p'; rewrite Hupd; reflexivity).
        fold p'. rewrite Hnodes. fold p in Hlen, Hn, Hinc.
        split; [|split; [exact Hn|]].
        -- subst p'. rewrite Hupd. cbn [params tonecurve].
           destruct ch, (channel (gui_data self)); cbn [sel3 upd3 at_L at_a at_b] in *;
             rewrite ?length_aset; exact Hlen.
        -- apply (strictly_increasing_same_x (sel3 (tonecurve p) ch)); [apply Hx | exact Hinc].
      * rewrite Hupd. cbn [gui_data params tonecurve_nodes]. exact Hs.
Qed.

(** X6.  A turn up adds 0.001 to the y of the selected node and replaces a
    negative sum by 0, so the new y is never below 0; a turn down takes
    0.001 off and replaces a difference above 1 by 1, so the new y is
    never above 1.  The turn up has no upper bound and the turn down no
    lower one. *)
Theorem scrolled_one_sided_bounds (self : dt_iop_module_t)
    (direction : GdkScrollDirection) :
  let ch := channel (gui_data self) in
  let t := sel3 (tonecurve (params self)) ch in
  let sel := selected (gui_data self) in
  let y' := y (nget (sel3 (tonecurve (params (scrolled self direction))) ch) sel) in
  chroma_locked (params self) (gui_data self) = false ->
  0 <= sel < Z.of_nat (length t) ->
  (direction = GDK_SCROLL_UP ->
     flt y' f0 = false /\
     (flt (F32.add (y (nget t sel)) f0_001) f0 = false ->
      y' = F32.add (y (nget t sel)) f0_001)) /\
  (direction = GDK_SCROLL_DOWN ->
     flt f1 y' = false /\
     (flt f1 (F32.sub (y (nget t sel)) f0_001) = false ->
      y' = F32.sub (y (nget t sel)) f0_001)).
Proof.
  intros ch t sel y' Hlock Hsel.
  subst y'. rewrite (scrolled_unfold self direction Hlock) by lia.
  cbn [params tonecurve]. fold ch t sel.
  rewrite sel3_upd3_same, nget_aset, Z.eqb_refl by lia. cbn [y].
  split; intros ->.
  - unfold fMAX, fgt. fold (flt (F32.add (y (nget t sel)) f0_001) f0).
    destruct (flt (F32.add (y (nget t sel)) f0_001) f0) eqn:E.
    + split; [reflexivity | discriminate].
    + split; [exact E | reflexivity].
  - unfold fMIN.
    destruct (flt f1 (F32.sub (y (nget t sel)) f0_001)) eqn:E.
    + split; [reflexivity | discriminate].
    + split; [exact E | reflexivity].
Qed.

Lemma scrolled_one_sided_bounds_witness :
  let self := example_module ch_L 1 1 in
  let up := scrolled self GDK_SCROLL_UP in
  let down := scrolled (example_module ch_L 1 0) GDK_SCROLL_DOWN in
  (flt (y (nget (sel3 (tonecurve (params up)) ch_L) 1)) f0 = false /\
   y (nget (sel3 (tonecurve (params up)) ch_L) 1) = F32.add f1 f0_001 /\
   flt f1 (y (nget (sel3 (tonecurve (params up)) ch_L) 1)) = true) /\
  (flt f1 (y (nget (sel3 (tonecurve (params down)) ch_L) 0)) = false /\
   flt (y (nget (sel3 (tonecurve (params down)) ch_L) 0)) f0 = true).
Proof.
  destruct (scrolled_one_sided_bounds (example_module ch_L 1 1) GDK_SCROLL_UP)
    as [Hup _]; [vm_compute; reflexivity | vm_compute; split; congruence |].
  destruct (scrolled_one_sided_bounds (example_module ch_L 1 0) GDK_SCROLL_DOWN)
    as [_ Hdown]; [vm_compute; reflexivity | vm_compute; split; congruence |].
  destruct (Hup eq_refl) as [Hup0 Hup1]. destruct (Hdown eq_refl) as [Hdown1 _].
  split.
  - split; [exact Hup0|]. split; [|vm_compute; reflexivity].
    exact (eq_trans (Hup1 ltac:(vm_compute; reflexivity))
                    ltac:(vm_compute; reflexivity)).
  - split; [exact Hdown1 | vm_compute; reflexivity].
Defined.

(** ** The hit test *)

Lemma flt_irrefl (a : float) : flt a a = false.
Proof.
  unfold flt, SFltb. pose proof (SFcompare_antisym a a) as H.
  destruct (SFcompare a a) as [[]|]; simpl in H; congruence.
Qed.

Lemma flt_asym (a b : float) : flt a b = true -> flt b a = false.
Proof.
  unfold flt, SFltb. rewrite (SFcompare_antisym a b).
  destruct (SFcompare a b) as [[]|]; simpl; congruence.
Qed.

Lemma flt_not_fle (a b : float) : flt a b = true -> fle b a = false.
Proof.
  unfold flt, fle, SFltb, SFleb. rewrite (SFcompare_antisym a b).
  destruct (SFcompare a b) as [[]|]; simpl; congruence.
Qed.

Lemma SFcompare_eq_lt (a b c : spec_float) :
  SFcompare a b = Some Eq -> SFcompare b c = Some Lt -> SFcompare a c = Some Lt.
Proof.
  destruct a as [sa|sa| |sa ma ea], b as [sb|sb| |sb mb eb], c as [sc|sc| |sc mc ec];
    simpl; try destruct sa; try destruct sb; try destruct sc; simpl;
    try congruence; intros H1 H2; f_equal; cmp_cases.
Qed.

Lemma fle_flt_trans (a b c : float) : fle a b = true -> flt b c = true -> flt a c = true.
Proof.
  unfold fle, flt, SFleb, SFltb. intros H1 H2.
  destruct (SFcompare a b) as [[]|] eqn:E1; try discriminate;
    destruct (SFcompare b c) as [[]|] eqn:E2; try discriminate.
  - rewrite (SFcompare_eq_lt a b c E1 E2). reflexivity.
  - rewrite (SFcompare_trans_lt a b c E1 E2). reflexivity.
Qed.

Lemma nearest_loop_S (cnt : nat) (k : Z) (t : list dt_iop_tonecurve_node_t)
    (mx my min : float) (nearest : Z) :
  nearest_loop (S cnt) k t mx my min nearest
  = if flt (hit_distance t mx my k) min
    then nearest_loop cnt (k + 1) t mx my (hit_distance t mx my k) k
    else nearest_loop cnt (k + 1) t mx my min nearest.
Proof. reflexivity. Qed.

(** The loop of the hit test returns what it started with when no node it
    looks at is within the radius, and otherwise the first of the nodes
    that no node it looks at beats. *)
Lemma nearest_loop_spec (cnt : nat) (k : Z) (t : list dt_iop_tonecurve_node_t)
    (mx my min : float) (nearest : Z) :
  let d := hit_distance t mx my in
  let r := nearest_loop cnt k t mx my min nearest in
  (r = nearest /\ forall j, k <= j < k + Z.of_nat cnt -> flt (d j) min = false)
  \/ (k <= r < k + Z.of_nat cnt /\ flt (d r) min = true
      /\ (forall j, k <= j < k + Z.of_nat cnt -> flt (d j) (d r) = false)
      /\ (forall j, k <= j < r -> fle (d j) (d r) = false)).
Proof.
  intros d. revert k min nearest.
  induction cnt as [|cnt IH]; intros k min nearest r.
  - left. split; [reflexivity | intros j Hj; lia].
  - subst r. rewrite nearest_loop_S. fold (d k).
    destruct (flt (d k) min) eqn:E.
    + destruct (IH (k + 1) (d k) k) as [[Hr Hall] | (Hr & Hlt & Hall & Hbefore)].
      * right. rewrite Hr. split; [lia|]. split; [exact E|]. split.
        -- intros j Hj. destruct (Z.eq_dec j k) as [-> | Hne];
             [apply flt_irrefl | apply Hall; lia].
        -- intros j Hj. lia.
      * right. split; [lia|]. split; [exact (flt_trans _ _ _ Hlt E)|]. split.
        -- intros j Hj. destruct (Z.eq_dec j k) as [-> | Hne];
             [apply flt_asym; exact Hlt | apply Hall; lia].
        -- intros j Hj. destruct (Z.eq_dec j k) as [-> | Hne];
             [apply flt_not_fle; exact Hlt | apply Hbefore; lia].
    + destruct (IH (k + 1) min nearest) as [[Hr Hall] | (Hr & Hlt & Hall & Hbefore)].
      * left. split; [exact Hr|]. intros j Hj.
        destruct (Z.eq_dec j k) as [-> | Hne]; [exact E | apply Hall; lia].
      * right. split; [lia|]. split; [exact Hlt|]. split.
        -- intros j Hj. destruct (Z.eq_dec j k) as [-> | Hne]; [|apply Hall; lia].
           destruct (flt (d k) (d (nearest_loop cnt (k + 1) t mx my min nearest))) eqn:E';
             [|reflexivity].
           rewrite (flt_trans _ _ _ E' Hlt) in E. discriminate.
        -- intros j Hj. destruct (Z.eq_dec j k) as [-> | Hne]; [|apply Hbefore; lia].
           destruct (fle (d k) (d (nearest_loop cnt (k + 1) t mx my min nearest))) eqn:E';
             [|reflexivity].
           rewrite (fle_flt_trans _ _ _ E' Hlt) in E. discriminate.
Qed.

(** X7.  The hit test of the hover.  It returns -1 exactly when no node in
    use lies within the radius (squared distance below 0.04 squared).
    Otherwise it returns a node in use that lies within the radius and
    that no node in use is strictly nearer than; among equally near nodes
    it is the first. *)
Theorem nearest_node_is_nearest (t : list dt_iop_tonecurve_node_t) (nodes : Z)
    (mx my : float) :
  let d := hit_distance t mx my in
  let r := nearest_node t nodes mx my in
  0 <= nodes ->
  (r = -1 <-> forall j, 0 <= j < nodes -> flt (d j) hit_radius2 = false) /\
  (r <> -1 ->
     0 <= r < nodes /\ flt (d r) hit_radius2 = true /\
     (forall j, 0 <= j < nodes -> flt (d j) (d r) = false) /\
     (forall j, 0 <= j < r -> fle (d j) (d r) = false)).
Proof.
  intros d r Hn. subst r d. unfold nearest_node. fold hit_radius2.
  destruct (nearest_loop_spec (Z.to_nat nodes) 0 t mx my hit_radius2 (-1))
    as [[Hr Hall] | (Hr & Hlt & Hall & Hbefore)];
    rewrite Z2Nat.id in * by lia.
  - split; [|intros Hne; contradiction].
    split; [intros _; exact Hall | intros _; exact Hr].
  - split.
    + split; [intros Heq; lia|]. intros Hnone.
      rewrite Hnone in Hlt by lia. discriminate.
    + intros _. repeat split; try lia; assumption.
Qed.

Lemma nearest_node_is_nearest_witness :
  let t := sel3 (tonecurve default_params) ch_a in
  let mx := norm_x example_widget (example_move 129 129 0) in
  let my := norm_y example_widget (example_move 129 129 0) in
  nearest_node t 3 mx my = 1 /\
  flt (hit_distance t mx my 1) hit_radius2 = true /\
  flt (hit_distance t mx my 0) (hit_distance t mx my 1) = false /\
  nearest_node t 3 mx (norm_y example_widget (example_move 129 65 0)) = -1.
Proof.
  destruct (nearest_node_is_nearest (sel3 (tonecurve default_params) ch_a) 3
              (norm_x example_widget (example_move 129 129 0))
              (norm_y example_widget (example_move 129 129 0)))
    as [_ Hhit]; [lia|].
  destruct Hhit as (_ & Hin & Hbest & _); [vm_compute; congruence|].
  split; [vm_compute; reflexivity|]. split; [exact Hin|].
  split; [apply Hbest; lia | vm_compute; reflexivity].
Defined.

(** ** What a pointer move can change *)

Lemma params_eta (p : dt_iop_tonecurve_params_t) (ch : tonecurve_channel_t) :
  p = {| tonecurve := upd3 (tonecurve p) ch (sel3 (tonecurve p) ch);
         tonecurve_nodes := upd3 (tonecurve_nodes p) ch (sel3 (tonecurve_nodes p) ch);
         tonecurve_type := tonecurve_type p;
         tonecurve_autoscale_ab := tonecurve_autoscale_ab p;
         tonecurve_preset := tonecurve_preset p |}.
Proof. rewrite !upd3_same. destruct p; reflexivity. Qed.

Lemma length_set_x (t : list dt_iop_tonecurve_node_t) (i : Z) (v : float) :
  length (set_x t i v) = length t.
Proof. apply length_aset. Qed.

Lemma length_set_y (t : list dt_iop_tonecurve_node_t) (i : Z) (v : float) :
  length (set_y t i v) = length t.
Proof. apply length_aset. Qed.

(** The four outcomes of a pointer move: nothing but the pointer and the
    hover changes; the dragged node moves; the dragged node is deleted; a
    node is inserted. *)
Lemma motion_notify_cases (self : dt_iop_module_t) (widget : GtkAllocation)
    (event : GdkEventMotion) :
  let c := gui_data self in
  let p := params self in
  let ch := channel c in
  let n := sel3 (tonecurve_nodes p) ch in
  let t := sel3 (tonecurve p) ch in
  let mx := norm_x widget event in
  let my := norm_y widget event in
  exists t' n' c',
    dt_iop_tonecurve_motion_notify self widget event
    = {| params := {| tonecurve := upd3 (tonecurve p) ch t';
                      tonecurve_nodes := upd3 (tonecurve_nodes p) ch n';
                      tonecurve_type := tonecurve_type p;
                      tonecurve_autoscale_ab := tonecurve_autoscale_ab p;
                      tonecurve_preset := tonecurve_preset p |};
         gui_data := c' |} /\
    channel c' = ch /\
    length t' = length t /\
    ((t' = t /\ n' = n /\
      (selected c' = selected c \/
       (button1 event = false /\ selected c' = nearest_node t n mx my)))
     \/ (button1 event = true /\ 0 <= selected c /\ n' = n /\ selected c' = selected c)
     \/ (button1 event = true /\ 0 <= selected c /\ 2 < n /\ n' = n - 1 /\
         selected c' = -2)
     \/ (button1 event = true /\ selected c = -1 /\ n < 20 /\ n' = n + 1 /\
         selected c' = insert_place t n mx (-1))).
Proof.
  intros c p ch n t mx my.
  unfold dt_iop_tonecurve_motion_notify.
  fold c p ch n t mx my.
  destruct (chroma_locked p c).
  { exists t, n, c. split.
    - destruct self as [p0 c0]. cbn in *. f_equal. apply params_eta.
    - repeat split. left. repeat split. left. reflexivity. }
  cbn [selected channel mouse_x mouse_y].
  destruct (button1 event) eqn:Hb.
  - destruct (selected c >=? 0) eqn:Hsel.
    + rewrite Z.geb_leb, Z.leb_le in Hsel.
      destruct ((n >? 2) && order_violated _ n (selected c) mx) eqn:Hv.
      * apply andb_true_iff in Hv as [Hn _]. rewrite Z.gtb_ltb, Z.ltb_lt in Hn.
        eexists _, (n - 1), _. split; [reflexivity|]. split; [reflexivity|].
        split; [rewrite shift_down_length, length_set_y, length_set_x; reflexivity|].
        right. right. left. cbn [selected]. repeat split; assumption || lia.
      * eexists _, n, _. split.
        -- f_equal. f_equal. unfold n. rewrite upd3_same. reflexivity.
        -- split; [reflexivity|].
           split; [rewrite length_set_y, length_set_x; reflexivity|].
           right. left. repeat split. exact Hsel.
    + rewrite Z.geb_leb, Z.leb_gt in Hsel.
      destruct ((n <? 20) && (selected c >=? -1)) eqn:Hins.
      * apply andb_true_iff in Hins as [Hn Hs].
        rewrite Z.ltb_lt in Hn. rewrite Z.geb_leb, Z.leb_le in Hs.
        assert (Hm1 : selected c = -1) by lia.
        eexists _, (n + 1), _. split; [reflexivity|]. split; [reflexivity|].
        split; [rewrite length_set_y, length_set_x, shift_up_length; reflexivity|].
        right. right. right. cbn [selected]. rewrite Hm1. repeat split; assumption.
      * exists t, n. eexists. split.
        -- f_equal. apply params_eta.
        -- repeat split. left. repeat split. left. reflexivity.
  - exists t, n. eexists. split.
    + f_equal. apply params_eta.
    + repeat split. left. repeat split. right. split; reflexivity.
Qed.

(** X8.  What a pointer move can change.  It never changes the tab, the
    types of the curves, the autoscale flag, the preset, or the curve and
    the count of a channel other than the current one.  The array of the
    current channel keeps its length and the count stays, goes down by one
    (only from more than 2, and then the selection is -2, which blocks an
    insertion) or goes up by one (only from less than 20, with no node
    selected).  A move without the button held leaves the parameters as
    they are. *)
Theorem motion_notify_frame (self : dt_iop_module_t) (widget : GtkAllocation)
    (event : GdkEventMotion) :
  let p := params self in
  let ch := channel (gui_data self) in
  let n := sel3 (tonecurve_nodes p) ch in
  let self' := dt_iop_tonecurve_motion_notify self widget event in
  let p' := params self' in
  let n' := sel3 (tonecurve_nodes p') ch in
  channel (gui_data self') = ch /\
  tonecurve_type p' = tonecurve_type p /\
  tonecurve_autoscale_ab p' = tonecurve_autoscale_ab p /\
  tonecurve_preset p' = tonecurve_preset p /\
  (forall ch', ch' <> ch ->
     sel3 (tonecurve p') ch' = sel3 (tonecurve p) ch' /\
     sel3 (tonecurve_nodes p') ch' = sel3 (tonecurve_nodes p) ch') /\
  length (sel3 (tonecurve p') ch) = length (sel3 (tonecurve p) ch) /\
  (n' = n \/
   (n' = n - 1 /\ 2 < n /\ 0 <= selected (gui_data self) /\
    selected (gui_data self') = -2) \/
   (n' = n + 1 /\ n < 20 /\ selected (gui_data self) = -1)) /\
  (button1 event = false -> p' = p).
Proof.
  intros p ch n self' p' n'.
  destruct (motion_notify_cases self widget event)
    as (t1 & n1 & c1 & Heq & Hch & Hlen & Hcases).
  fold p ch n in Heq, Hch, Hlen, Hcases. fold self' in Heq.
  subst n' p'. rewrite Heq. cbn [params gui_data tonecurve tonecurve_nodes
    tonecurve_type tonecurve_autoscale_ab tonecurve_preset].
  rewrite !sel3_upd3_same.
  split; [exact Hch|]. do 3 (split; [reflexivity|]).
  split; [intros ch' Hne; rewrite !sel3_upd3_other by exact Hne; split; reflexivity|].
  split; [exact Hlen|]. split.
  - destruct Hcases as [(_ & Hn & _) | [(_ & _ & Hn & _) | [(_ & Hs & H2 & Hn & Hs')
      | (_ & Hs & H20 & Hn & _)]]]; tauto.
  - intros Hb.
    destruct Hcases as [(Ht & Hn & _) | [(Hb' & _) | [(Hb' & _) | (Hb' & _)]]];
      try congruence.
    rewrite Ht, Hn. symmetry. apply params_eta.
Qed.

(** ** Runs of the editor *)

Lemma shape_ok_spec (p : dt_iop_tonecurve_params_t) :
  shape_ok p = true <->
  forall ch, Z.of_nat (length (sel3 (tonecurve p) ch)) = MAXNODES /\
             2 <= sel3 (tonecurve_nodes p) ch <= MAXNODES.
Proof.
  unfold shape_ok. cbn [forallb]. rewrite !andb_true_iff, !Z.eqb_eq, !Z.leb_le. split.
  - intros (HL & Ha & Hb & _) []; tauto.
  - intros H. pose proof (H ch_L). pose proof (H ch_a). pose proof (H ch_b). tauto.
Qed.

Lemma shape_inv_spec (self : dt_iop_module_t) :
  shape_inv self = true <->
  shape_ok (params self) = true /\ -2 <= selected (gui_data self) < MAXNODES.
Proof.
  unfold shape_inv. rewrite !andb_true_iff, Z.leb_le, Z.ltb_lt. tauto.
Qed.

(** A handler that touches the current channel only, keeps the length of
    its array and leaves a count between 2 and 20, keeps the shape. *)
Lemma shape_ok_upd (p : dt_iop_tonecurve_params_t) (ch : tonecurve_channel_t)
    (t' : list dt_iop_tonecurve_node_t) (n' : Z) (ty : chan3 curve_type_t)
    (au pr : Z) :
  shape_ok p = true ->
  length t' = length (sel3 (tonecurve p) ch) -> 2 <= n' <= MAXNODES ->
  shape_ok {| tonecurve := upd3 (tonecurve p) ch t';
              tonecurve_nodes := upd3 (tonecurve_nodes p) ch n';
              tonecurve_type := ty;
              tonecurve_autoscale_ab := au;
              tonecurve_preset := pr |} = true.
Proof.
  intros Hok Hlen Hn. rewrite shape_ok_spec in *. intros ch'.
  cbn [tonecurve tonecurve_nodes].
  destruct (channel_eq_dec ch' ch) as [-> | Hne].
  - rewrite !sel3_upd3_same, Hlen. split; [apply Hok | exact Hn].
  - rewrite !sel3_upd3_other by exact Hne. apply Hok.
Qed.

Lemma motion_notify_keeps_shape (self : dt_iop_module_t) (widget : GtkAllocation)
    (event : GdkEventMotion) :
  let self' := dt_iop_tonecurve_motion_notify self widget event in
  shape_inv self = true ->
  shape_inv self' = true /\
  channel (gui_data self') = channel (gui_data self) /\
  (selected (gui_data self)
   < sel3 (tonecurve_nodes (params self)) (channel (gui_data self)) ->
   selected (gui_data self')
   < sel3 (tonecurve_nodes (params self')) (channel (gui_data self'))).
Proof.
  intros self' Hinv. apply shape_inv_spec in Hinv as [Hok Hsel].
  destruct (motion_notify_cases self widget event)
    as (t1 & n1 & c1 & Heq & Hch & Hlen & Hcases).
  fold self' in Heq. rewrite Heq. cbn [params gui_data tonecurve_nodes].
  rewrite Hch, sel3_upd3_same.
  pose proof Hok as Hall. rewrite shape_ok_spec in Hall.
  destruct (Hall (channel (gui_data self))) as [HlenL Hn].
  pose proof (nearest_node_range (sel3 (tonecurve (params self)) (channel (gui_data self)))
                (sel3 (tonecurve_nodes (params self)) (channel (gui_data self)))
                (norm_x widget event) (norm_y widget event) ltac:(lia)) as Hnear.
  pose proof (insert_place_spec (sel3 (tonecurve (params self)) (channel (gui_data self)))
                (sel3 (tonecurve_nodes (params self)) (channel (gui_data self)))
                (norm_x widget event) ltac:(lia)) as (Hplace & _).
  unfold MAXNODES in *.
  assert (Hbounds : 2 <= n1 <= 20 /\ -2 <= selected c1 < 20 /\
            (selected (gui_data self)
             < sel3 (tonecurve_nodes (params self)) (channel (gui_data self)) ->
             selected c1 < n1)).
  { destruct Hcases as [(_ & -> & [-> | [_ ->]]) | [(_ & _ & -> & ->)
      | [(_ & _ & H2 & -> & ->) | (_ & _ & H20 & -> & ->)]]]; lia. }
  destruct Hbounds as (Hn1 & Hs1 & Hlt).
  split; [|split; [reflexivity | exact Hlt]].
  apply shape_inv_spec. cbn [params gui_data]. split; [|exact Hs1].
  apply shape_ok_upd; [exact Hok | exact Hlen | exact Hn1].
Qed.

Lemma scrolled_keeps_shape (self : dt_iop_module_t) (direction : GdkScrollDirection) :
  let self' := scrolled self direction in
  gui_data self' = gui_data self /\
  tonecurve_nodes (params self') = tonecurve_nodes (params self) /\
  (shape_ok (params self) = true -> shape_ok (params self') = true).
Proof.
  intros self'. subst self'. unfold scrolled.
  destruct (chroma_locked _ _); [repeat split; auto|].
  destruct (selected (gui_data self) >=? 0); [|repeat split; auto].
  cbn [params gui_data tonecurve_nodes]. split; [reflexivity|]. split; [reflexivity|].
  intros Hok.
  rewrite <- (upd3_same (tonecurve_nodes (params self)) (channel (gui_data self))) at 1.
  apply shape_ok_upd; [exact Hok| |apply shape_ok_spec; exact Hok].
  destruct direction; rewrite ?length_set_y; reflexivity.
Qed.

Lemma button_press_keeps_shape (self : dt_iop_module_t)
    (factory_params : dt_iop_tonecurve_params_t) (event : GdkEventButton) :
  let self' := fst (dt_iop_tonecurve_button_press self factory_params event) in
  shape_ok factory_params = true -> shape_inv self = true ->
  shape_inv self' = true /\
  channel (gui_data self') = channel (gui_data self) /\
  (selected (gui_data self)
   < sel3 (tonecurve_nodes (params self)) (channel (gui_data self)) ->
   selected (gui_data self')
   < sel3 (tonecurve_nodes (params self')) (channel (gui_data self'))).
Proof.
  intros self' Hf Hinv. subst self'. unfold dt_iop_tonecurve_button_press.
  destruct ((event_button event =? 1) && is_2button_press (event_type event));
    [|cbn [fst]; auto].
  destruct (negb (chroma_locked _ _)); [|cbn [fst]; auto].
  cbn [fst params gui_data channel selected tonecurve_nodes].
  apply shape_inv_spec in Hinv as [Hok Hsel].
  rewrite shape_ok_spec in Hf.
  destruct (Hf (channel (gui_data self))) as [_ Hn].
  split; [|split; [reflexivity | rewrite sel3_upd3_same; lia]].
  apply shape_inv_spec. cbn [params gui_data selected]. split; [|unfold MAXNODES; lia].
  apply shape_ok_upd; [exact Hok | apply reset_nodes_length | exact Hn].
Qed.

Lemma editor_step_keeps_shape (factory_params : dt_iop_tonecurve_params_t)
    (self : dt_iop_module_t) (ev : editor_event) :
  let self' := editor_step factory_params self ev in
  shape_ok factory_params = true -> shape_inv self = true ->
  shape_inv self' = true /\
  (is_tab_switch ev = false ->
   channel (gui_data self') = channel (gui_data self) /\
   (selected (gui_data self)
    < sel3 (tonecurve_nodes (params self)) (channel (gui_data self)) ->
    selected (gui_data self')
    < sel3 (tonecurve_nodes (params self')) (channel (gui_data self')))).
Proof.
  intros self' Hf Hinv. subst self'.
  destruct ev as [widget event | direction | event | reset page | reset combobox];
    cbn [editor_step is_tab_switch].
  - destruct (motion_notify_keeps_shape self widget event Hinv) as (H1 & H2 & H3).
    split; [exact H1 | intros _; split; assumption].
  - destruct (scrolled_keeps_shape self direction) as (Hg & Hn & Hs).
    apply shape_inv_spec in Hinv as [Hok Hsel]. split.
    + apply shape_inv_spec. rewrite Hg. split; [apply Hs; exact Hok | exact Hsel].
    + intros _. rewrite Hg, Hn. split; [reflexivity | auto].
  - destruct (button_press_keeps_shape self factory_params event Hf Hinv) as (H1 & H2 & H3).
    split; [exact H1 | intros _; split; assumption].
  - split; [|discriminate]. unfold tab_switch. destruct reset; [exact Hinv|].
    apply shape_inv_spec in Hinv as [Hok Hsel]. apply shape_inv_spec.
    cbn [params gui_data selected]. split; assumption.
  - unfold autoscale_ab_callback. destruct reset; [split; [exact Hinv | auto]|].
    apply shape_inv_spec in Hinv as [Hok Hsel]. split.
    + apply shape_inv_spec. cbn [params gui_data]. split; [|exact Hsel].
      rewrite shape_ok_spec in *. exact Hok.
    + intros _. cbn [params gui_data tonecurve_nodes]. split; [reflexivity | auto].
Qed.

(** X9.  No run of the handlers (pointer moves, wheel, button presses, tab
    switches, changes of the scale of the chroma curves) takes a channel
    out of shape: from channels that are arrays of 20 places with between
    2 and 20 nodes in use, a factory curve of that shape and a selection
    that is -2, -1 or a place of the array, every run ends in such a
    state.  So a channel never has fewer than 2 or more than 20 nodes and
    the handlers write within the arrays. *)
Theorem editor_run_keeps_shape (factory_params : dt_iop_tonecurve_params_t)
    (self : dt_iop_module_t) (events : list editor_event) :
  shape_ok factory_params = true -> shape_inv self = true ->
  shape_inv (editor_run factory_params self events) = true.
Proof.
  intros Hf. revert self. unfold editor_run.
  induction events as [|ev events IH]; intros self Hinv; cbn [fold_left];
    [exact Hinv|].
  apply IH. apply (editor_step_keeps_shape factory_params self ev Hf Hinv).
Qed.

Lemma editor_run_keeps_shape_witness :
  shape_inv (editor_run default_params (example_module ch_a 1 (-1)) example_events)
  = true.
Proof.
  apply (editor_run_keeps_shape default_params (example_module ch_a 1 (-1)) example_events);
    vm_compute; reflexivity.
Defined.

(** X10.  In a run without a tab switch the tab stays, and a selection
    that is a node in use of the current channel (or none) stays one:
    the selected index is always below the count of the channel. *)
Theorem editor_run_keeps_selection (factory_params : dt_iop_tonecurve_params_t)
    (self : dt_iop_module_t) (events : list editor_event) :
  let self' := editor_run factory_params self events in
  shape_ok factory_params = true -> shape_inv self = true ->
  forallb (fun ev => negb (is_tab_switch ev)) events = true ->
  selected (gui_data self)
  < sel3 (tonecurve_nodes (params self)) (channel (gui_data self)) ->
  channel (gui_data self') = channel (gui_data self) /\
  selected (gui_data self')
  < sel3 (tonecurve_nodes (params self')) (channel (gui_data self')).
Proof.
  intros self' Hf. subst self'. revert self. unfold editor_run.
  induction events as [|ev events IH]; intros self Hinv Hev Hsel; cbn [fold_left];
    [split; [reflexivity | exact Hsel]|].
  cbn [forallb] in Hev. apply andb_true_iff in Hev as [Hev Hrest].
  apply negb_true_iff in Hev.
  destruct (editor_step_keeps_shape factory_params self ev Hf Hinv) as [Hinv' Hstep].
  destruct (Hstep Hev) as [Hch Hsel'].
  destruct (IH _ Hinv' Hrest (Hsel' Hsel)) as [Hch'' Hsel''].
  split; [rewrite Hch''; exact Hch | exact Hsel''].
Qed.

Lemma editor_run_keeps_selection_witness :
  let self' := editor_run default_params (example_module ch_a 1 (-1))
                 example_events_on_tab in
  (channel (gui_data self') = ch_a /\
   selected (gui_data self')
   < sel3 (tonecurve_nodes (params self')) (channel (gui_data self'))) /\
  (let s := tab_switch (example_module ch_a 0 2) false ch_L in
   selected (gui_data s) = 2 /\
   sel3 (tonecurve_nodes (params s)) (channel (gui_data s)) = 2).
Proof.
  split; [|vm_compute; split; reflexivity].
  apply (editor_run_keeps_selection default_params (example_module ch_a 1 (-1))
           example_events_on_tab); vm_compute; reflexivity.
Defined.

(** ** More on the pixel transform *)

Section PixelTransformFrame.

Variable dt_draw_curve_t : Type.
Variable dt_iop_eval_exp : list float -> float -> float.

Local Abbreviation memory := (memory dt_draw_curve_t).
Local Abbreviation process_pixel := (process_pixel dt_iop_eval_exp).
Local Abbreviation process_row := (process_row dt_iop_eval_exp).
Local Abbreviation process_rows := (process_rows dt_iop_eval_exp).
Local Abbreviation process := (process dt_iop_eval_exp).
Local Abbreviation pixel_out := (pixel_out dt_iop_eval_exp).

Lemma table_index_range (v : float) : 0 <= table_index v <= 65535.
Proof.
  unfold table_index, CLAMP.
  destruct (_ >? 65535) eqn:E1; [lia|].
  destruct (_ <? 0) eqn:E2; [lia|].
  rewrite Z.gtb_ltb, Z.ltb_ge in E1. rewrite Z.ltb_ge in E2. lia.
Qed.

(** X11.  Autoscale off: the two chroma outputs of every pixel of the
    region are entries of the tables of their own channels, a from the
    table of a and b from the table of b, at the index
    (int)(v * 0xffff) clamped to [0, 65535] of v = (in + 128) / 256; the
    index is a place of the table whatever the input is, and the
    luminance input plays no part. *)
Theorem process_chroma_lookup (colors : Z) (roi : dt_iop_roi_t) (m : memory)
    (k j : Z) :
  4 <= colors ->
  height roi * colors * width roi <= Z.of_nat (length (m_out m)) ->
  0 <= k < height roi -> 0 <= j < width roi ->
  autoscale_ab (m_data m) = 0 ->
  let off := k * colors * width roi + j * colors in
  let inp := pixel_at (m_in m) off in
  let outp := pixel_at (m_out (process colors roi m)) off in
  let index c := table_index (F32.div (F32.add (inp c) f128) f256) in
  outp 1 = aget f0 (sel3 (table (m_data m)) ch_a) (index 1) /\
  outp 2 = aget f0 (sel3 (table (m_data m)) ch_b) (index 2) /\
  0 <= index 1 <= 65535 /\ 0 <= index 2 <= 65535.
Proof.
  intros Hch Hlen Hk Hj Hauto off inp outp index.
  assert (Hpix : forall c, 0 <= c < 4 ->
            outp c = aget f0 (pixel_out (m_data m)
                                (F32.div f1 (aget f0 (unbounded_coeffs (m_data m)) 0))
                                (low_approximation_of (m_data m))
                                (inp 0) (inp 1) (inp 2) (inp 3)) c).
  { intros c Hc. apply process_pixelwise; assumption. }
  rewrite (Hpix 1), (Hpix 2) by lia. unfold pixel_out. rewrite Hauto.
  split; [reflexivity|]. split; [reflexivity|].
  split; apply table_index_range.
Qed.

(** A pixel writes its first four floats only. *)
Lemma process_row_skips (cnt : nat) (ch : Z) (xm la : float) (m : memory)
    (in_ out i : Z) :
  (forall t, 0 <= t < Z.of_nat cnt -> i < out + t * ch \/ out + t * ch + 3 < i) ->
  aget f0 (m_out (process_row cnt ch xm la m in_ out)) i = aget f0 (m_out m) i.
Proof.
  revert m in_ out. induction cnt as [|cnt IH]; intros m in_ out Hi; [reflexivity|].
  simpl. rewrite IH.
  - apply process_pixel_outside. specialize (Hi 0). lia.
  - intros t Ht. specialize (Hi (t + 1)). lia.
Qed.

Lemma process_rows_skips (cnt : nat) (k ch : Z) (roi : dt_iop_roi_t) (xm : float)
    (m : memory) (i : Z) :
  (forall r t, k <= r < k + Z.of_nat cnt -> 0 <= t < width roi ->
     i < r * ch * width roi + t * ch \/ r * ch * width roi + t * ch + 3 < i) ->
  aget f0 (m_out (process_rows cnt k ch roi xm m)) i = aget f0 (m_out m) i.
Proof.
  revert k m. induction cnt as [|cnt IH]; intros k m Hi; [reflexivity|].
  rewrite process_rows_S, IH.
  - apply process_row_skips. intros t Ht. apply Hi; lia.
  - intros r t Hr Ht. apply Hi; lia.
Qed.

(** X12.  The transform writes the first four floats of the pixels of
    the region and nothing else: a float of the output buffer that is not
    one of them (a float past the fourth of a pixel when a pixel has more
    than four, or a float outside the region) is left as it was, and the
    buffer keeps its length.  No assumption on the region or on the size
    of the buffers is needed. *)
Theorem process_writes_only_pixels (colors : Z) (roi : dt_iop_roi_t) (m : memory)
    (i : Z) :
  (forall k j, 0 <= k < height roi -> 0 <= j < width roi ->
     let off := k * colors * width roi + j * colors in
     i < off \/ off + 3 < i) ->
  aget f0 (m_out (process colors roi m)) i = aget f0 (m_out m) i /\
  length (m_out (process colors roi m)) = length (m_out m).
Proof.
  intros Hi. split; [|apply process_frame].
  unfold process. apply process_rows_skips.
  intros r t Hr Ht. apply Hi; lia.
Qed.

Lemma process_row_nothing (ch : Z) (xm la : float) (m : memory) (in_ out : Z) :
  process_row 0 ch xm la m in_ out = m.
Proof. reflexivity. Qed.

Lemma process_rows_of_no_pixels (cnt : nat) (k ch : Z) (roi : dt_iop_roi_t)
    (xm : float) (m : memory) :
  width roi <= 0 -> process_rows cnt k ch roi xm m = m.
Proof.
  intros Hw. revert k m. induction cnt as [|cnt IH]; intros k m; [reflexivity|].
  rewrite process_rows_S.
  replace (Z.to_nat (width roi)) with O by lia.
  rewrite process_row_nothing. apply IH.
Qed.

(** X13.  A region without pixels, of width or height zero or negative,
    is a call that does nothing: the buffers and the data are what they
    were. *)
Theorem process_empty_region (colors : Z) (roi : dt_iop_roi_t) (m : memory) :
  width roi <= 0 \/ height roi <= 0 -> process colors roi m = m.
Proof.
  intros [Hw | Hh]; unfold process.
  - apply process_rows_of_no_pixels. exact Hw.
  - replace (Z.to_nat (height roi)) with O by lia. reflexivity.
Qed.

(** X14.  The transform is a map over the pixels: the four floats it
    leaves at a pixel of the region depend on the data of the piece and
    on the four floats of that input pixel only, not on the other pixels,
    on what the output buffer held before, on the place of the pixel or
    on the region. *)
Theorem process_pointwise (colors1 colors2 : Z) (roi1 roi2 : dt_iop_roi_t)
    (m1 m2 : memory) (k1 j1 k2 j2 : Z) :
  4 <= colors1 -> 4 <= colors2 ->
  height roi1 * colors1 * width roi1 <= Z.of_nat (length (m_out m1)) ->
  height roi2 * colors2 * width roi2 <= Z.of_nat (length (m_out m2)) ->
  0 <= k1 < height roi1 -> 0 <= j1 < width roi1 ->
  0 <= k2 < height roi2 -> 0 <= j2 < width roi2 ->
  let off1 := k1 * colors1 * width roi1 + j1 * colors1 in
  let off2 := k2 * colors2 * width roi2 + j2 * colors2 in
  m_data m1 = m_data m2 ->
  (forall c, 0 <= c < 4 -> pixel_at (m_in m1) off1 c = pixel_at (m_in m2) off2 c) ->
  forall c, 0 <= c < 4 ->
    pixel_at (m_out (process colors1 roi1 m1)) off1 c
    = pixel_at (m_out (process colors2 roi2 m2)) off2 c.
Proof.
  intros Hc1 Hc2 Hl1 Hl2 Hk1 Hj1 Hk2 Hj2 off1 off2 Hd Hin c Hc.
  unfold off1, off2. rewrite !process_pixelwise by (assumption || lia).
  fold off1 off2. rewrite Hd, !Hin by lia. reflexivity.
Qed.

End PixelTransformFrame.

Lemma process_chroma_lookup_witness :
  let off := 0 * 4 * width example_roi + 1 * 4 in
  let inp := pixel_at (m_in example_memory_ab) off in
  let outp := pixel_at (m_out (process example_eval_exp 4 example_roi example_memory_ab))
                off in
  let index c := table_index (F32.div (F32.add (inp c) f128) f256) in
  outp 1 = aget f0 (sel3 (table (m_data example_memory_ab)) ch_a) (index 1) /\
  outp 2 = aget f0 (sel3 (table (m_data example_memory_ab)) ch_b) (index 2) /\
  0 <= index 1 <= 65535 /\ 0 <= index 2 <= 65535.
Proof.
  apply (process_chroma_lookup unit example_eval_exp 4 example_roi example_memory_ab 0 1);
    by_evaluation.
Defined.

Lemma process_writes_only_pixels_witness :
  let m' := process example_eval_exp 5 example_roi_5 example_memory_5 in
  (aget f0 (m_out m') 4 = f1 /\ length (m_out m') = 12%nat) /\
  (aget f0 (m_out m') 10 = f1 /\ length (m_out m') = 12%nat).
Proof.
  split.
  - apply (process_writes_only_pixels unit example_eval_exp 5 example_roi_5
             example_memory_5 4).
    intros k j Hk Hj. cbn in *. lia.
  - apply (process_writes_only_pixels unit example_eval_exp 5 example_roi_5
             example_memory_5 10).
    intros k j Hk Hj. cbn in *. lia.
Defined.

Lemma process_empty_region_witness :
  process example_eval_exp 4 {| width := 0; height := 5 |} example_memory
  = example_memory /\
  process example_eval_exp 4 {| width := 3; height := -1 |} example_memory
  = example_memory.
Proof.
  split.
  - apply (process_empty_region unit example_eval_exp 4 {| width := 0; height := 5 |}
             example_memory). left. cbn. lia.
  - apply (process_empty_region unit example_eval_exp 4 {| width := 3; height := -1 |}
             example_memory). right. cbn. lia.
Defined.

Lemma process_pointwise_witness :
  let off1 := 0 * 4 * width example_roi + 0 * 4 in
  let off2 := 0 * 5 * width example_roi_5 + 1 * 5 in
  pixel_at (m_out (process example_eval_exp 4 example_roi example_memory)) off1 1
  = pixel_at (m_out (process example_eval_exp 5 example_roi_5 example_memory_5)) off2 1.
Proof.
  assert (Hl1 : height example_roi * 4 * width example_roi
                <= Z.of_nat (length (m_out example_memory)))
    by (vm_compute; congruence).
  assert (Hl2 : height example_roi_5 * 5 * width example_roi_5
                <= Z.of_nat (length (m_out example_memory_5)))
    by (vm_compute; congruence).
  assert (Hk1 : 0 <= 0 < height example_roi) by (vm_compute; split; congruence).
  assert (Hj1 : 0 <= 0 < width example_roi) by (vm_compute; split; congruence).
  assert (Hk2 : 0 <= 0 < height example_roi_5) by (vm_compute; split; congruence).
  assert (Hj2 : 0 <= 1 < width example_roi_5) by (vm_compute; split; congruence).
  assert (Hin : forall c, 0 <= c < 4 ->
            pixel_at (m_in example_memory) (0 * 4 * width example_roi + 0 * 4) c
            = pixel_at (m_in example_memory_5) (0 * 5 * width example_roi_5 + 1 * 5) c).
  { intros c Hc. assert (Hcases : c = 0 \/ c = 1 \/ c = 2 \/ c = 3) by lia.
    destruct Hcases as [-> | [-> | [-> | ->]]]; vm_compute; reflexivity. }
  exact (process_pointwise unit example_eval_exp 4 5 example_roi example_roi_5
           example_memory example_memory_5 0 0 0 1 ltac:(lia) ltac:(lia)
           Hl1 Hl2 Hk1 Hj1 Hk2 Hj2 eq_refl Hin 1 ltac:(lia)).
Defined.

(** ** More on [commit_params] *)

Lemma type_eqb_eq (t1 t2 : curve_type_t) : type_eqb t1 t2 = true <-> t1 = t2.
Proof. destruct t1, t2; simpl; split; congruence. Qed.

Lemma chan3_ext {A : Type} (v w : chan3 A) :
  (forall ch, sel3 v ch = sel3 w ch) -> v = w.
Proof.
  intros H. pose proof (H ch_L) as HL. pose proof (H ch_a) as Ha.
  pose proof (H ch_b) as Hb. destruct v, w. simpl in *. congruence.
Qed.

Lemma length_tabulate {A : Type} (n : nat) (k : Z) (f : Z -> A) :
  length (tabulate n k f) = n.
Proof.
  revert k. induction n as [|n IH]; intros k; [reflexivity|].
  cbn [tabulate length]. rewrite IH. reflexivity.
Qed.

Section Commit.

Variable dt_draw_curve_t : Type.
Variable dt_draw_curve_new : float -> float -> curve_type_t -> dt_draw_curve_t.
Variable dt_draw_curve_add_point :
  dt_draw_curve_t -> float -> float -> dt_draw_curve_t.
Variable dt_draw_curve_set_point :
  dt_draw_curve_t -> Z -> float -> float -> dt_draw_curve_t.
Variable dt_draw_curve_calc_values :
  dt_draw_curve_t -> float -> float -> Z -> list float ->
  dt_draw_curve_t * list float.
Variable dt_iop_estimate_exp :
  list float -> list float -> Z -> list float -> list float.

Local Abbreviation data := (dt_iop_tonecurve_data_t dt_draw_curve_t).
Local Abbreviation add_points := (@add_points dt_draw_curve_t dt_draw_curve_add_point).
Local Abbreviation set_points := (@set_points dt_draw_curve_t dt_draw_curve_set_point).
Local Abbreviation curve_to_sample :=
  (@curve_to_sample dt_draw_curve_t dt_draw_curve_new dt_draw_curve_add_point
     dt_draw_curve_set_point).
Local Abbreviation commit_channel :=
  (commit_channel dt_draw_curve_new dt_draw_curve_add_point
     dt_draw_curve_set_point dt_draw_curve_calc_values).
Local Abbreviation commit_params :=
  (commit_params dt_draw_curve_new dt_draw_curve_add_point
     dt_draw_curve_set_point dt_draw_curve_calc_values dt_iop_estimate_exp).

(** What one turn of the loop over the channels does to its channel and
    to the others. *)
Lemma commit_channel_spec (p : dt_iop_tonecurve_params_t) (d : data)
    (ch : tonecurve_channel_t) :
  let d' := commit_channel p d ch in
  let r := dt_draw_curve_calc_values (curve_to_sample p d ch) f0 f1 65536
             (sel3 (table d) ch) in
  sel3 (curve d') ch = fst r /\
  sel3 (table d') ch = snd r /\
  sel3 (curve_nodes d') ch = sel3 (tonecurve_nodes p) ch /\
  sel3 (curve_type d') ch = sel3 (tonecurve_type p) ch /\
  autoscale_ab d' = autoscale_ab d /\
  (forall ch', ch' <> ch ->
     sel3 (curve d') ch' = sel3 (curve d) ch' /\
     sel3 (table d') ch' = sel3 (table d) ch' /\
     sel3 (curve_nodes d') ch' = sel3 (curve_nodes d) ch' /\
     sel3 (curve_type d') ch' = sel3 (curve_type d) ch').
Proof.
  intros d' r. subst d' r. unfold commit_channel, curve_to_sample.
  destruct (type_eqb (sel3 (curve_type d) ch) (sel3 (tonecurve_type p) ch)) eqn:Et;
    [destruct (sel3 (curve_nodes d) ch =? sel3 (tonecurve_nodes p) ch) eqn:En|];
    cbn [negb orb andb curve curve_nodes curve_type table autoscale_ab];
    rewrite ?sel3_upd3_same;
    destruct (dt_draw_curve_calc_values _ f0 f1 65536 (sel3 (table d) ch)) as [c tab];
    cbn [fst snd curve curve_nodes curve_type table autoscale_ab];
    rewrite ?sel3_upd3_same;
    try apply type_eqb_eq in Et; try apply Z.eqb_eq in En;
    (repeat split; try assumption; try reflexivity;
     rewrite ?sel3_upd3_other by assumption; reflexivity).
Qed.

Lemma commit_params_fields (p : dt_iop_tonecurve_params_t) (d : data)
    (ch : tonecurve_channel_t) :
  let d' := commit_params p d in
  sel3 (curve d') ch
  = fst (dt_draw_curve_calc_values (curve_to_sample p d ch) f0 f1 65536
           (sel3 (table d) ch)) /\
  sel3 (curve_nodes d') ch = sel3 (tonecurve_nodes p) ch /\
  sel3 (curve_type d') ch = sel3 (tonecurve_type p) ch.
Proof.
  intros d'. subst d'. unfold commit_params.
  cbn [curve curve_nodes curve_type].
  pose proof (commit_channel_spec p d ch_L) as (HL1 & _ & HL3 & HL4 & _ & HLo).
  pose proof (commit_channel_spec p (commit_channel p d ch_L) ch_a)
    as (Ha1 & _ & Ha3 & Ha4 & _ & Hao).
  pose proof (commit_channel_spec p (commit_channel p (commit_channel p d ch_L) ch_a) ch_b)
    as (Hb1 & _ & Hb3 & Hb4 & _ & Hbo).
  cbv zeta in *.
  assert (Hsame : forall d1 d2 : data,
            sel3 (curve d1) ch = sel3 (curve d2) ch ->
            sel3 (curve_nodes d1) ch = sel3 (curve_nodes d2) ch ->
            sel3 (curve_type d1) ch = sel3 (curve_type d2) ch ->
            curve_to_sample p d1 ch = curve_to_sample p d2 ch).
  { intros d1 d2 H1 H2 H3. unfold curve_to_sample. rewrite H1, H2, H3. reflexivity. }
  destruct ch.
  - destruct (Hbo ch_L ltac:(discriminate)) as (-> & _ & -> & ->).
    destruct (Hao ch_L ltac:(discriminate)) as (-> & _ & -> & ->).
    auto.
  - destruct (Hbo ch_a ltac:(discriminate)) as (-> & _ & -> & ->).
    rewrite Ha1, Ha3, Ha4.
    destruct (HLo ch_a ltac:(discriminate)) as (Hc & Ht & Hn & Hty).
    rewrite Ht, (Hsame _ d Hc Hn Hty). auto.
  - rewrite Hb1, Hb3, Hb4.
    destruct (Hao ch_b ltac:(discriminate)) as (Hc & Ht & Hn & Hty).
    destruct (HLo ch_b ltac:(discriminate)) as (Hc' & Ht' & Hn' & Hty').
    rewrite Ht, Ht'.
    rewrite (Hsame _ d (eq_trans Hc Hc') (eq_trans Hn Hn') (eq_trans Hty Hty')). auto.
Qed.

(** X15.  After [commit_params] the piece agrees with the parameters: the
    node counts and the curve types it records for the three channels are
    those of the parameters, whichever branch each channel took, and so
    is the autoscale flag. *)
Theorem commit_params_syncs (p : dt_iop_tonecurve_params_t) (d : data) :
  let d' := commit_params p d in
  curve_nodes d' = tonecurve_nodes p /\
  curve_type d' = tonecurve_type p /\
  autoscale_ab d' = tonecurve_autoscale_ab p.
Proof.
  intros d'. split; [|split; [|reflexivity]]; apply chan3_ext; intros ch;
    apply (commit_params_fields p d ch).
Qed.

(** X16.  The channels are committed one by one and do not mix: the
    curve of a channel after the call is the curve the library returns
    from sampling [curve_to_sample] of that channel (the old curve with
    its points set anew when its recorded type and count are those of the
    parameters, a new curve otherwise), whatever the parameters and the
    old data of the other two channels are. *)
Theorem commit_params_per_channel (p : dt_iop_tonecurve_params_t) (d : data)
    (ch : tonecurve_channel_t) :
  let t := sel3 (tonecurve p) ch in
  let n := sel3 (tonecurve_nodes p) ch in
  let ty := sel3 (tonecurve_type p) ch in
  let c0 := if negb (type_eqb (sel3 (curve_type d) ch) ty)
               || negb (sel3 (curve_nodes d) ch =? n)
            then add_points (Z.to_nat n) 0 t (dt_draw_curve_new f0 f1 ty)
            else set_points (Z.to_nat n) 0 t (sel3 (curve d) ch) in
  sel3 (curve (commit_params p d)) ch
  = fst (dt_draw_curve_calc_values c0 f0 f1 65536 (sel3 (table d) ch)).
Proof. intros t n ty c0. apply (commit_params_fields p d ch). Qed.

(** X17.  A second commit updates in place: once parameters have been
    committed, committing parameters with the same curve types and node
    counts makes no new curve; every channel sets the points of the curve
    the first commit left. *)
Theorem commit_params_again (p p' : dt_iop_tonecurve_params_t) (d : data)
    (ch : tonecurve_channel_t) :
  tonecurve_type p' = tonecurve_type p ->
  tonecurve_nodes p' = tonecurve_nodes p ->
  let d1 := commit_params p d in
  sel3 (curve (commit_params p' d1)) ch
  = fst (dt_draw_curve_calc_values
           (set_points (Z.to_nat (sel3 (tonecurve_nodes p') ch)) 0
              (sel3 (tonecurve p') ch) (sel3 (curve d1) ch))
           f0 f1 65536 (sel3 (table d1) ch)).
Proof.
  intros Hty Hn d1.
  destruct (commit_params_fields p' d1 ch) as (Hc & _ & _). rewrite Hc.
  destruct (commit_params_fields p d ch) as (_ & Hn1 & Hty1). fold d1 in Hn1, Hty1.
  unfold curve_to_sample. rewrite Hn1, Hty1, Hty, Hn, Z.eqb_refl.
  replace (type_eqb _ _) with true by (symmetry; apply type_eqb_eq; reflexivity).
  reflexivity.
Qed.

Lemma aget_map_range {A : Type} (d0 : A) (n : nat) (f : A -> A) (a : list A) (k : Z) :
  0 <= k < Z.of_nat n -> k < Z.of_nat (length a) ->
  aget d0 (map_range n f a) k = f (aget d0 a k).
Proof.
  intros Hk Hlen. unfold aget, map_range.
  replace (k <? 0) with false by (symmetry; apply Z.ltb_ge; lia).
  rewrite app_nth1 by (rewrite length_map, length_firstn; lia).
  rewrite (nth_indep _ d0 (f d0)) by (rewrite length_map, length_firstn; lia).
  rewrite map_nth. f_equal.
  rewrite <- (firstn_skipn n a) at 2.
  rewrite app_nth1 by (rewrite length_firstn; lia). reflexivity.
Qed.

Lemma commit_params_table_of (p : dt_iop_tonecurve_params_t) (d : data)
    (ch : tonecurve_channel_t) :
  let tab := snd (dt_draw_curve_calc_values (curve_to_sample p d ch) f0 f1 65536
                    (sel3 (table d) ch)) in
  sel3 (table (commit_params p d)) ch
  = map_range TABLE_SIZE
      (match ch with
       | ch_L => fun v => F32.mul v f100
       | _ => fun v => F32.sub (F32.mul v f256) f128
       end) tab.
Proof.
  intros tab. subst tab. unfold commit_params. cbn [table].
  pose proof (commit_channel_spec p d ch_L) as (HL1 & HL2 & HL3 & HL4 & _ & HLo).
  pose proof (commit_channel_spec p (commit_channel p d ch_L) ch_a)
    as (Ha1 & Ha2 & Ha3 & Ha4 & _ & Hao).
  pose proof (commit_channel_spec p (commit_channel p (commit_channel p d ch_L) ch_a) ch_b)
    as (Hb1 & Hb2 & Hb3 & Hb4 & _ & Hbo).
  cbv zeta in *.
  assert (Hsame : forall d1 d2 : data,
            sel3 (curve d1) ch = sel3 (curve d2) ch ->
            sel3 (curve_nodes d1) ch = sel3 (curve_nodes d2) ch ->
            sel3 (curve_type d1) ch = sel3 (curve_type d2) ch ->
            curve_to_sample p d1 ch = curve_to_sample p d2 ch).
  { intros d1 d2 H1 H2 H3. unfold curve_to_sample. rewrite H1, H2, H3.
    reflexivity. }
  assert (Htab : sel3 (table (commit_channel p
                                (commit_channel p (commit_channel p d ch_L) ch_a) ch_b)) ch
                 = snd (dt_draw_curve_calc_values (curve_to_sample p d ch) f0 f1 65536
                          (sel3 (table d) ch))).
  { destruct ch.
    - destruct (Hbo ch_L ltac:(discriminate)) as (_ & Ht & _). rewrite Ht.
      destruct (Hao ch_L ltac:(discriminate)) as (_ & Ht' & _). rewrite Ht'.
      exact HL2.
    - destruct (Hbo ch_a ltac:(discriminate)) as (_ & Ht & _). rewrite Ht, Ha2.
      destruct (HLo ch_a ltac:(discriminate)) as (Hc & Ht' & Hn & Hty).
      rewrite Ht', (Hsame _ d Hc Hn Hty). reflexivity.
    - rewrite Hb2.
      destruct (Hao ch_b ltac:(discriminate)) as (Hc & Ht & Hn & Hty).
      destruct (HLo ch_b ltac:(discriminate)) as (Hc' & Ht' & Hn' & Hty').
      rewrite Ht, Ht'.
      rewrite (Hsame _ d (eq_trans Hc Hc') (eq_trans Hn Hn') (eq_trans Hty Hty')).
      reflexivity. }
  rewrite <- Htab. destruct ch; reflexivity.
Qed.

(** X18.  The tables after [commit_params]: entry k of the table of a
    channel, for k below 0x10000 and within what the sampler returned for
    that channel, is the sample k times 100 for the luminance and the
    sample k times 256 minus 128 for a and b; the sampler was given the
    curve of that channel and the old table of that channel. *)
Theorem commit_params_tables (p : dt_iop_tonecurve_params_t) (d : data)
    (ch : tonecurve_channel_t) (k : Z) :
  let tab := snd (dt_draw_curve_calc_values (curve_to_sample p d ch) f0 f1 65536
                    (sel3 (table d) ch)) in
  0 <= k < 65536 -> k < Z.of_nat (length tab) ->
  aget f0 (sel3 (table (commit_params p d)) ch) k
  = match ch with
    | ch_L => F32.mul (aget f0 tab k) f100
    | _ => F32.sub (F32.mul (aget f0 tab k) f256) f128
    end.
Proof.
  intros tab Hk Hlen. rewrite commit_params_table_of. fold tab.
  rewrite aget_map_range by (unfold TABLE_SIZE; lia).
  destruct ch; reflexivity.
Qed.

(** X19.  The first commit on a fresh piece: [init_pipe] records the
    types and counts of the default parameters, so committing parameters
    with those types and counts makes no new curve; every channel sets
    the points of the curve [init_pipe] made from the default nodes, and
    samples it into the identity table of the channel. *)
Theorem commit_params_after_init_pipe (default p : dt_iop_tonecurve_params_t)
    (coeffs : list float) (ch : tonecurve_channel_t) :
  tonecurve_type p = tonecurve_type default ->
  tonecurve_nodes p = tonecurve_nodes default ->
  let d0 := init_pipe dt_draw_curve_new dt_draw_curve_add_point default coeffs in
  let c0 := add_points (Z.to_nat (sel3 (tonecurve_nodes default) ch)) 0
              (sel3 (tonecurve default) ch)
              (dt_draw_curve_new f0 f1 (sel3 (tonecurve_type default) ch)) in
  sel3 (curve d0) ch = c0 /\
  sel3 (curve (commit_params p d0)) ch
  = fst (dt_draw_curve_calc_values
           (set_points (Z.to_nat (sel3 (tonecurve_nodes p) ch)) 0
              (sel3 (tonecurve p) ch) c0)
           f0 f1 65536
           (match ch with ch_L => init_table_L | _ => init_table_ab end)).
Proof.
  intros Hty Hn d0 c0.
  assert (Hc0 : sel3 (curve d0) ch = c0) by (destruct ch; reflexivity).
  split; [exact Hc0|].
  destruct (commit_params_fields p d0 ch) as (Hc & _ & _). rewrite Hc.
  unfold curve_to_sample. rewrite Hc0.
  replace (sel3 (curve_type d0) ch) with (sel3 (tonecurve_type default) ch)
    by reflexivity.
  replace (sel3 (curve_nodes d0) ch) with (sel3 (tonecurve_nodes default) ch)
    by reflexivity.
  rewrite Hty, Hn, Z.eqb_refl.
  replace (type_eqb _ _) with true by (symmetry; apply type_eqb_eq; reflexivity).
  cbn [negb orb]. destruct ch; reflexivity.
Qed.

(** C7.  [commit_params] recomputes the luminance table (the curve of the
    luminance channel, with the points of the parameters set or added,
    sampled at 0x10000 positions, every sample times 100) and fits the
    coefficients to four entries of that table, taken at 0.7 xmax,
    0.8 xmax, 0.9 xmax and xmax, where xmax is the x of the last control
    point of the luminance channel; the entry for position v is the one of
    index (int)(v * 0x10000) clamped to [0, 65535]. *)
Theorem commit_params_refit (p : dt_iop_tonecurve_params_t) (d : data) :
  let t := sel3 (tonecurve p) ch_L in
  let n := sel3 (tonecurve_nodes p) ch_L in
  let ty := sel3 (tonecurve_type p) ch_L in
  let xmax := x (nget t (n - 1)) in
  valid_binary F32.prec F32.emax xmax = true ->
  let d' := commit_params p d in
  let c0 := if negb (type_eqb (sel3 (curve_type d) ch_L) ty)
               || negb (sel3 (curve_nodes d) ch_L =? n)
            then add_points (Z.to_nat n) 0 t (dt_draw_curve_new f0 f1 ty)
            else set_points (Z.to_nat n) 0 t (sel3 (curve d) ch_L) in
  let sampled := snd (dt_draw_curve_calc_values c0 f0 f1 65536 (sel3 (table d) ch_L)) in
  let table_L := map_range TABLE_SIZE (fun v => F32.mul v f100) sampled in
  let xs := [F32.mul f0_7 xmax; F32.mul f0_8 xmax; F32.mul f0_9 xmax; xmax] in
  let sample v :=
    aget f0 table_L (CLAMP (to_int (F32.mul v (F32.of_int 65536))) 0 65535) in
  sel3 (table d') ch_L = table_L /\
  unbounded_coeffs d' = dt_iop_estimate_exp xs (map sample xs) 4 (unbounded_coeffs d).
Proof.
  intros t n ty xmax Hvalid d' c0 sampled table_L xs sample.
  assert (Htab : sel3 (table d') ch_L = table_L)
    by exact (commit_params_table_of p d ch_L).
  split; [exact Htab|].
  pose proof (commit_params_coeffs_from_table dt_draw_curve_t dt_draw_curve_new
                dt_draw_curve_add_point dt_draw_curve_set_point
                dt_draw_curve_calc_values dt_iop_estimate_exp p d Hvalid) as Hfit.
  cbv zeta in Hfit. fold t n xmax d' in Hfit. rewrite Htab in Hfit. exact Hfit.
Qed.

End Commit.

Lemma commit_params_refit_witness :
  let p := default_params in
  let d := example_curve_data in
  let t := sel3 (tonecurve p) ch_L in
  let n := sel3 (tonecurve_nodes p) ch_L in
  let ty := sel3 (tonecurve_type p) ch_L in
  let xmax := x (nget t (n - 1)) in
  let d' := example_curve_commit p d in
  let c0 := if negb (type_eqb (sel3 (curve_type d) ch_L) ty)
               || negb (sel3 (curve_nodes d) ch_L =? n)
            then add_points example_curve example_curve_add_point (Z.to_nat n) 0 t
                   (example_curve_new f0 f1 ty)
            else set_points example_curve example_curve_set_point (Z.to_nat n) 0 t
                   (sel3 (curve d) ch_L) in
  let sampled := snd (example_curve_calc_values c0 f0 f1 65536 (sel3 (table d) ch_L)) in
  let table_L := map_range TABLE_SIZE (fun v => F32.mul v f100) sampled in
  let xs := [F32.mul f0_7 xmax; F32.mul f0_8 xmax; F32.mul f0_9 xmax; xmax] in
  let sample v :=
    aget f0 table_L (CLAMP (to_int (F32.mul v (F32.of_int 65536))) 0 65535) in
  sel3 (table d') ch_L = table_L /\
  unbounded_coeffs d'
  = example_estimate_exp xs (map sample xs) 4 (unbounded_coeffs d).
Proof.
  exact (commit_params_refit example_curve example_curve_new example_curve_add_point
           example_curve_set_point example_curve_calc_values example_estimate_exp
           default_params example_curve_data ltac:(vm_compute; reflexivity)).
Defined.

Lemma commit_params_again_witness :
  let p := default_params in
  let p' := params (example_module ch_L 0 (-1)) in
  let d1 := example_curve_commit p example_curve_data in
  sel3 (curve (example_curve_commit p' d1)) ch_a
  = fst (example_curve_calc_values
           (set_points example_curve example_curve_set_point
              (Z.to_nat (sel3 (tonecurve_nodes p') ch_a)) 0
              (sel3 (tonecurve p') ch_a) (sel3 (curve d1) ch_a))
           f0 f1 65536 (sel3 (table d1) ch_a)).
Proof.
  apply (commit_params_again example_curve example_curve_new example_curve_add_point
           example_curve_set_point example_curve_calc_values example_estimate_exp
           default_params (params (example_module ch_L 0 (-1))) example_curve_data ch_a);
    reflexivity.
Defined.

Lemma commit_params_tables_witness :
  let tab := snd (example_curve_calc_values
                    (curve_to_sample example_curve example_curve_new
                       example_curve_add_point example_curve_set_point
                       default_params example_curve_data ch_a)
                    f0 f1 65536 (sel3 (table example_curve_data) ch_a)) in
  aget f0 (sel3 (table (example_curve_commit default_params example_curve_data)) ch_a)
       32768
  = F32.sub (F32.mul (aget f0 tab 32768) f256) f128.
Proof.
  apply (commit_params_tables example_curve example_curve_new example_curve_add_point
           example_curve_set_point example_curve_calc_values example_estimate_exp
           default_params example_curve_data ch_a 32768); [lia|].
  change (32768 < Z.of_nat (length init_table_ab)).
  unfold init_table_ab. rewrite length_tabulate. unfold TABLE_SIZE. lia.
Defined.

Lemma commit_params_after_init_pipe_witness :
  let p := params (example_module ch_L 0 (-1)) in
  let c0 := add_points example_curve example_curve_add_point
              (Z.to_nat (sel3 (tonecurve_nodes default_params) ch_L)) 0
              (sel3 (tonecurve default_params) ch_L)
              (example_curve_new f0 f1 (sel3 (tonecurve_type default_params) ch_L)) in
  sel3 (curve example_curve_data) ch_L = c0 /\
  sel3 (curve (example_curve_commit p example_curve_data)) ch_L
  = fst (example_curve_calc_values
           (set_points example_curve example_curve_set_point
              (Z.to_nat (sel3 (tonecurve_nodes p) ch_L)) 0 (sel3 (tonecurve p) ch_L) c0)
           f0 f1 65536 init_table_L).
Proof.
  apply (commit_params_after_init_pipe example_curve example_curve_new
           example_curve_add_point example_curve_set_point example_curve_calc_values
           example_estimate_exp default_params (params (example_module ch_L 0 (-1)))
           [f1; f100; f1] ch_L); reflexivity.
Defined.

(** ** The migrated parameters in the editor *)

Lemma legacy_params_nodes (o : dt_iop_tonecurve_1_params_t)
    (n : dt_iop_tonecurve_params_t) (k : Z) :
  0 <= k < 6 ->
  nget (sel3 (tonecurve (fst (legacy_params o 1 n 3))) ch_L) k
  = Node (aget f0 (tonecurve_x o) k) (aget f0 (tonecurve_y o) k).
Proof.
  intros Hk. unfold legacy_params. simpl.
  destruct (small_index k Hk) as [-> | [-> | [-> | [-> | [-> | ->]]]]]; reflexivity.
Qed.

(** X20.  What the migration hands to the editor.  The migrated
    parameters always have the shape the editor keeps (arrays of 20
    places, 6, 3 and 3 nodes in use), and every channel has strictly
    increasing x exactly when the six old x increase strictly: the
    migration copies the old nodes as they are and does not sort or check
    them.  With ordered old x the editor starts in good shape. *)
Theorem legacy_params_keeps_order (o : dt_iop_tonecurve_1_params_t)
    (n : dt_iop_tonecurve_params_t) :
  let p := fst (legacy_params o 1 n 3) in
  let ordered :=
    forall j, 0 <= j < 5 ->
      flt (aget f0 (tonecurve_x o) j) (aget f0 (tonecurve_x o) (j + 1)) = true in
  shape_ok p = true /\
  ((forall ch, channel_ok p ch = true) <-> ordered) /\
  (ordered -> editor_ok {| params := p; gui_data := gui_init_data |} = true).
Proof.
  intros p ordered.
  assert (Hshape : shape_ok p = true) by reflexivity.
  assert (Hiff : (forall ch, channel_ok p ch = true) <-> ordered).
  { split.
    - intros Hok j Hj. specialize (Hok ch_L). unfold channel_ok in Hok.
      apply curve_ok_spec in Hok as (_ & _ & Hinc).
      rewrite strictly_increasing_spec in Hinc.
      specialize (Hinc j ltac:(lia)).
      replace (sel3 (tonecurve_nodes p) ch_L) with 6 in Hinc by reflexivity.
      specialize (Hinc ltac:(lia)). subst p.
      rewrite !legacy_params_nodes in Hinc by lia. exact Hinc.
    - intros Hord ch. destruct ch; [|reflexivity|reflexivity].
      unfold channel_ok. apply curve_ok_spec.
      split; [reflexivity|]. split; [cbn; unfold MAXNODES; lia|].
      apply strictly_increasing_spec. intros j Hj0 Hj1.
      replace (sel3 (tonecurve_nodes p) ch_L) with 6 in Hj1 by reflexivity.
      subst p. rewrite !legacy_params_nodes by lia. apply Hord. lia. }
  split; [exact Hshape|]. split; [exact Hiff|].
  intros Hord. apply editor_ok_spec. split; [apply Hiff; exact Hord|].
  cbn. lia.
Qed.

(** ** The colour picker *)

Lemma fle_not_nan (a b : float) : fle a b = true -> is_nan a = false /\ is_nan b = false.
Proof. destruct a, b; simpl; try discriminate; split; reflexivity. Qed.

Lemma fle_refl (a : float) : is_nan a = false -> fle a a = true.
Proof.
  intros Ha. unfold fle, SFleb. pose proof (SFcompare_antisym a a) as H.
  destruct (SFcompare_some a a Ha Ha) as [c Hc]. rewrite Hc in *.
  destruct c; simpl in H; congruence.
Qed.

Lemma flt_fle (a b : float) : flt a b = true -> fle a b = true.
Proof. unfold flt, fle, SFltb, SFleb. destruct (SFcompare a b) as [[]|]; congruence. Qed.

(** glib's [CLAMP] on floating point operands: a number comes out
    between the bounds, and NaN comes out as NaN. *)
Lemma fCLAMP_bounds (v low high : float) :
  fle low high = true ->
  (is_nan v = false ->
   fle low (fCLAMP v low high) = true /\ fle (fCLAMP v low high) high = true) /\
  (is_nan v = true -> fCLAMP v low high = v).
Proof.
  intros Hlh. destruct (fle_not_nan _ _ Hlh) as [Hl Hh]. split.
  - intros Hv. unfold fCLAMP.
    destruct (fgt v high) eqn:E1; [split; [exact Hlh | apply fle_refl; exact Hh]|].
    destruct (flt v low) eqn:E2; [split; [apply fle_refl; exact Hl | exact Hlh]|].
    split.
    + destruct (fle low v) eqn:E3; [reflexivity|].
      rewrite (not_fle_flt v low Hv Hl E3) in E2. discriminate.
    + apply not_fgt_fle; assumption.
  - intros Hv. destruct v; try discriminate.
    unfold fCLAMP, fgt, flt, SFltb. destruct high, low; reflexivity.
Qed.

Lemma picker_scale_get (in_ out : list float) (c : Z) :
  0 <= c < 3 -> c < Z.of_nat (length out) ->
  aget f0 (picker_scale in_ out) c = fCLAMP (picker_scaled in_ c) f0 f1.
Proof.
  intros Hc Hlen. unfold picker_scale, picker_scaled.
  assert (Hcases : c = 0 \/ c = 1 \/ c = 2) by lia.
  destruct Hcases as [-> | [-> | ->]]; cbn [Z.eqb]; array_simpl; reflexivity.
Qed.

(** X21.  [picker_scale] writes the first three floats of its output and
    nothing else; each of them is the scaled input (L / 100, (a + 128) /
    256, (b + 128) / 256) clamped, so it lies between 0 and 1, unless the
    scaled input is NaN, which comes out as NaN. *)
Theorem picker_scale_range (in_ out : list float) (c : Z) :
  3 <= Z.of_nat (length out) ->
  let out' := picker_scale in_ out in
  length out' = length out /\
  (0 <= c < 3 ->
   (is_nan (picker_scaled in_ c) = false ->
    fle f0 (aget f0 out' c) = true /\ fle (aget f0 out' c) f1 = true) /\
   (is_nan (picker_scaled in_ c) = true -> is_nan (aget f0 out' c) = true)) /\
  (c < 0 \/ 3 <= c -> aget f0 out' c = aget f0 out c).
Proof.
  intros Hlen out'. split; [|split].
  - unfold out', picker_scale. rewrite !length_aset. reflexivity.
  - intros Hc. unfold out'. rewrite picker_scale_get by lia.
    destruct (fCLAMP_bounds (picker_scaled in_ c) f0 f1 eq_refl) as [Hnum Hnan].
    split; [exact Hnum|]. intros Hv. rewrite (Hnan Hv). exact Hv.
  - intros Hc. unfold out', picker_scale. array_simpl. reflexivity.
Qed.

Lemma picker_scale_range_witness :
  let in_ := [F32.of_int 150; F32.of_int (-200); S754_nan] in
  let out' := picker_scale in_ [f0_5; f0_5; f0_5; f0_5] in
  (fle f0 (aget f0 out' 1) = true /\ fle (aget f0 out' 1) f1 = true) /\
  is_nan (aget f0 out' 2) = true /\
  aget f0 out' 3 = f0_5.
Proof.
  destruct (picker_scale_range [F32.of_int 150; F32.of_int (-200); S754_nan]
              [f0_5; f0_5; f0_5; f0_5] 1 ltac:(cbn; lia)) as (_ & H1 & _).
  destruct (picker_scale_range [F32.of_int 150; F32.of_int (-200); S754_nan]
              [f0_5; f0_5; f0_5; f0_5] 2 ltac:(cbn; lia)) as (_ & H2 & _).
  destruct (picker_scale_range [F32.of_int 150; F32.of_int (-200); S754_nan]
              [f0_5; f0_5; f0_5; f0_5] 3 ltac:(cbn; lia)) as (_ & _ & H3).
  split; [apply H1; [lia | vm_compute; reflexivity]|].
  split; [apply H2; [lia | vm_compute; reflexivity] | apply H3; lia].
Defined.

(** ** The crossing events *)

(** Rounding keeps the sign: the result is a zero, a finite number or an
    infinity of the sign it was given, or NaN. *)
Lemma binary_round_sign (prec emax : Z) (s : bool) (m : positive) (e : Z) :
  let r := binary_round prec emax s m e in
  r = S754_nan \/ r = S754_zero s \/ r = S754_infinity s \/
  exists m' e', r = S754_finite s m' e'.
Proof.
  intros r. subst r. unfold binary_round, binary_round_aux.
  destruct (shl_align _ _ _) as [mz ez].
  destruct (shr_fexp _ _ _ _ _) as [mrs' e'].
  destruct (shr_fexp _ _ _ _ _) as [mrs'' e''].
  destruct (shr_m mrs'') as [|m'|m']; [tauto| |tauto].
  destruct (e'' <=? emax - prec); [|tauto].
  right. right. right. exists m', e''. reflexivity.
Qed.

Lemma convert_sign (prec emax : Z) (a : spec_float) :
  let r := convert prec emax a in
  match a with
  | S754_nan => r = S754_nan
  | S754_zero s => r = S754_zero s
  | S754_infinity s => r = S754_infinity s
  | S754_finite s _ _ =>
      r = S754_nan \/ r = S754_zero s \/ r = S754_infinity s \/
      exists m' e', r = S754_finite s m' e'
  end.
Proof.
  destruct a as [s|s| |s m e]; try reflexivity.
  cbn [convert]. unfold binary_normalize.
  destruct s; cbn [cond_Zopp Z.opp]; apply binary_round_sign.
Qed.

Lemma widened_abs_not_negative (a : double) :
  flt (double_of_float (fabsf (float_of_double a))) (S754_zero false) = false.
Proof.
  unfold double_of_float.
  pose proof (convert_sign F64.prec F64.emax (fabsf (float_of_double a))) as H.
  cbv zeta in H.
  destruct (float_of_double a) as [s|s| |s m e]; cbn [fabsf SFabs] in *.
  - rewrite H. reflexivity.
  - rewrite H. reflexivity.
  - rewrite H. reflexivity.
  - destruct H as [-> | [-> | [-> | (m' & e' & ->)]]]; reflexivity.
Qed.

Lemma widened_minus_abs_not_positive (a : double) :
  fgt (double_of_float (SFopp (fabsf (float_of_double a)))) (S754_zero false) = false.
Proof.
  unfold double_of_float.
  pose proof (convert_sign F64.prec F64.emax (SFopp (fabsf (float_of_double a)))) as H.
  cbv zeta in H.
  destruct (float_of_double a) as [s|s| |s m e]; cbn [fabsf SFabs SFopp negb] in *.
  - rewrite H. reflexivity.
  - rewrite H. reflexivity.
  - rewrite H. reflexivity.
  - destruct H as [-> | [-> | [-> | (m' & e' & ->)]]]; reflexivity.
Qed.

(** X22.  The sign of the stored pointer position tells whether the
    pointer is in the drawing area: after the pointer left, neither
    coordinate is above zero, and after it entered, neither is below
    zero, whatever was stored before (NaN stays NaN).  Neither event
    touches the tab or the selection. *)
Theorem crossing_sets_sign (c : dt_iop_tonecurve_gui_data_t) :
  let zero : double := S754_zero false in
  let c_in := dt_iop_tonecurve_enter_notify c in
  let c_out := dt_iop_tonecurve_leave_notify c in
  (fgt (mouse_x c_out) zero = false /\ fgt (mouse_y c_out) zero = false) /\
  (flt (mouse_x c_in) zero = false /\ flt (mouse_y c_in) zero = false) /\
  channel c_in = channel c /\ selected c_in = selected c /\
  channel c_out = channel c /\ selected c_out = selected c.
Proof.
  intros zero c_in c_out. repeat split;
    apply widened_minus_abs_not_positive || apply widened_abs_not_negative.
Qed.

(** ** The OpenCL path *)

(** X23.  [process_cl] and the buffers of the device, for every answer of
    the runtime.  Every buffer it obtained is released as often as it was
    obtained, nothing else is released and [NULL] never is; nothing but
    releases follows the first release; the kernel is launched at most
    once, exactly when the four buffers were obtained; and the call
    returns TRUE exactly when the four buffers were obtained and the
    launch succeeded. *)
Theorem process_cl_releases_buffers (autoscale : Z) (dev_in dev_out : cl_mem)
    (roi_in : dt_iop_roi_t) (r : cl_results) :
  let calls := fst (process_cl autoscale dev_in dev_out roi_in r) in
  let ret := snd (process_cl autoscale dev_in dev_out roi_in r) in
  let all_obtained :=
    negb (is_null (res_L r)) && negb (is_null (res_a r))
    && negb (is_null (res_b r)) && negb (is_null (res_coeffs r)) in
  (forall h, count_calls (released h) calls = count_calls (obtained h) calls) /\
  count_calls released_null calls = 0%nat /\
  releases_last calls = true /\
  count_calls is_launch calls = (if all_obtained then 1%nat else 0%nat) /\
  ret = all_obtained && (res_err r =? CL_SUCCESS).
Proof.
  destruct r as [[l|] [a|] [b|] [c|] err]; unfold process_cl; cbn;
    try (destruct (err =? CL_SUCCESS); cbn);
    (split; [intros h; unfold count_calls; cbn;
             repeat match goal with
             | |- context [?u =? h] => destruct (u =? h); cbn
             end; reflexivity
            | repeat split ]).
Qed.

(** * Properties of the database functions *)

Lemma substring_length_le (m : nat) (s : string) :
  (String.length (String.substring 0 m s) <= m)%nat.
Proof.
  revert s. induction m as [|m IH]; intros [|c s]; cbn; try lia.
  specialize (IH s). lia.
Qed.

Lemma substring_fits (m : nat) (s : string) :
  (String.length s <= m)%nat -> String.substring 0 m s = s.
Proof.
  revert s. induction m as [|m IH]; intros [|c s]; cbn; intros H;
    try reflexivity; try lia.
  rewrite IH by lia. reflexivity.
Qed.

Section DatabaseFacts.

Variable DT_MAX_PATH_LEN : nat.
Hypothesis buffer_not_empty : (0 < DT_MAX_PATH_LEN)%nat.

Local Abbreviation snprintf := (snprintf DT_MAX_PATH_LEN).
Local Abbreviation migrate := (_database_migrate_to_xdg_structure DT_MAX_PATH_LEN).
Local Abbreviation delete_mipmaps := (_database_delete_mipmaps_files DT_MAX_PATH_LEN).
Local Abbreviation database_filename := (database_filename DT_MAX_PATH_LEN).
Local Abbreviation world_after_helpers := (world_after_helpers DT_MAX_PATH_LEN).
Local Abbreviation dt_database_init := (dt_database_init DT_MAX_PATH_LEN).
Local Abbreviation migration_applies := (migration_applies DT_MAX_PATH_LEN).

Lemma snprintf_length (s : string) :
  (String.length (snprintf s) < DT_MAX_PATH_LEN)%nat.
Proof.
  unfold snprintf.
  pose proof (substring_length_le (DT_MAX_PATH_LEN - 1) s). lia.
Qed.

Lemma snprintf_fits (s : string) :
  (String.length s < DT_MAX_PATH_LEN)%nat -> snprintf s = s.
Proof. intros H. apply substring_fits. lia. Qed.

Lemma database_filename_length (alternative : option string) (loc : dt_loc_t)
    (w : world) :
  (String.length (database_filename alternative loc w) < DT_MAX_PATH_LEN)%nat.
Proof.
  unfold database_filename.
  destruct alternative; [apply snprintf_length|].
  destruct (conf_database w); [|apply snprintf_length].
  destruct (negb _); apply snprintf_length.
Qed.

(** The three ways out of [dt_database_init]. *)
Lemma dt_database_init_cases (alternative : option string) (loc : dt_loc_t)
    (a : db_answers) (w : world) :
  let w' := world_after_helpers loc a w in
  let name := database_filename alternative loc w' in
  let db locked := {| is_new_database := negb (file_regular w' name);
                      already_locked := locked;
                      dbfilename := name; handle := open_connection a |} in
  dt_database_init alternative loc a w
  = if negb (open_status a =? 0) then
      (None,
       [SqliteOpen name; SqliteClose (open_connection a); FreeDbname; FreeDb], w')
    else if lock_status a >? SQLITE_ERROR then
      (Some (db true),
       [SqliteOpen name; SqliteExec "delete from lock";
        SqliteClose (open_connection a); FreeDbname], w')
    else
      (Some (db false),
       [SqliteOpen name; SqliteExec "delete from lock";
        SqliteExec "attach database ':memory:' as memory";
        SqliteExec "PRAGMA synchronous = OFF";
        SqliteExec "PRAGMA journal_mode = MEMORY";
        SqliteExec "PRAGMA page_size = 32768"; FreeDbname], w').
Proof.
  intros w' name db. unfold dt_database_init.
  fold (world_after_helpers loc a w). fold w'. fold name.
  destruct (negb (open_status a =? 0));
    [|destruct (lock_status a >? SQLITE_ERROR)];
    destruct (file_regular w' name); reflexivity.
Qed.

(** X24.  What [dt_database_init] returns, for every answer of the
    world.  It returns [NULL] exactly when [sqlite3_open] fails.
    Otherwise the database it returns is marked as locked exactly when
    the statement on the lock table returns more than [SQLITE_ERROR], is
    marked as new exactly when the file is not a regular file after the
    two helpers ran, and names the file that was opened; that name is
    shorter than the buffer, and an alternative that fits the buffer is
    opened as it is given, whatever the configuration says. *)
Theorem dt_database_init_outcome (alternative : option string) (loc : dt_loc_t)
    (a : db_answers) (w : world) :
  let r := dt_database_init alternative loc a w in
  let w' := snd r in
  let calls := snd (fst r) in
  (fst (fst r) = None <-> open_status a <> 0) /\
  w' = world_after_helpers loc a w /\
  (forall db, fst (fst r) = Some db ->
     already_locked db = (lock_status a >? SQLITE_ERROR) /\
     is_new_database db = negb (file_regular w' (dbfilename db)) /\
     handle db = open_connection a /\
     hd_error calls = Some (SqliteOpen (dbfilename db)) /\
     (String.length (dbfilename db) < DT_MAX_PATH_LEN)%nat /\
     (forall alt, alternative = Some alt ->
        (String.length alt < DT_MAX_PATH_LEN)%nat -> dbfilename db = alt)).
Proof.
  intros r w' calls. subst calls w' r. rewrite dt_database_init_cases.
  pose proof (database_filename_length alternative loc (world_after_helpers loc a w))
    as Hlen.
  assert (Halt : forall alt, alternative = Some alt ->
            (String.length alt < DT_MAX_PATH_LEN)%nat ->
            database_filename alternative loc (world_after_helpers loc a w) = alt).
  { intros alt -> Hfit. apply snprintf_fits. exact Hfit. }
  destruct (open_status a =? 0) eqn:Hopen; cbn [negb].
  - apply Z.eqb_eq in Hopen.
    destruct (lock_status a >? SQLITE_ERROR); cbn [fst snd];
      (split; [split; [discriminate | intros H; contradiction]|]);
      (split; [reflexivity|]);
      intros db [= <-]; cbn [already_locked is_new_database handle dbfilename hd_error];
      repeat split; assumption.
  - apply Z.eqb_neq in Hopen. cbn [fst snd].
    split; [split; [intros _; exact Hopen | reflexivity]|].
    split; [reflexivity | intros db H; discriminate H].
Qed.

(** X25.  The calls of [dt_database_init] and of a later
    [dt_database_destroy].  On every way out the name of the database is
    released exactly once, nothing is executed on the connection after it
    was closed, and the database itself is released exactly when [NULL]
    is returned.  The connection is closed inside [dt_database_init]
    exactly when the call fails to open or finds the database locked; so
    a database returned as locked has its connection closed already, and
    [dt_database_destroy] closes it a second time. *)
Theorem dt_database_init_calls (alternative : option string) (loc : dt_loc_t)
    (a : db_answers) (w : world) :
  let r := dt_database_init alternative loc a w in
  let calls := snd (fst r) in
  let closes := count_db (is_close (open_connection a)) in
  count_db is_free_dbname calls = 1%nat /\
  no_exec_after_close calls = true /\
  count_db is_free_db calls = (if negb (open_status a =? 0) then 1%nat else 0%nat) /\
  closes calls
  = (if negb (open_status a =? 0) || (lock_status a >? SQLITE_ERROR)
     then 1%nat else 0%nat) /\
  (forall db, fst (fst r) = Some db ->
     closes (calls ++ dt_database_destroy db)
     = (if already_locked db then 2%nat else 1%nat)).
Proof.
  intros r calls closes. subst closes calls r. rewrite dt_database_init_cases.
  destruct (open_status a =? 0); cbn [negb orb];
    [destruct (lock_status a >? SQLITE_ERROR)|]; cbn [fst snd];
    unfold count_db, dt_database_destroy; cbn;
    rewrite ?Z.eqb_refl; cbn;
    (repeat split; try reflexivity);
    intros db H; try discriminate H;
    injection H as <-; cbn; rewrite ?Z.eqb_refl; reflexivity.
Qed.

(** What the migration does when it applies and when it does not. *)
Lemma migrate_cases (loc : dt_loc_t) (answer : rename_answer_t) (w : world) :
  migrate loc answer w
  = if migration_applies loc w
    then match conf_database w with
         | Some conf_db =>
             dt_conf_set_database "library.db"
               (rename (snprintf (home loc +:+ "/" +:+ conf_db))
                       (snprintf (datadir loc +:+ "/" +:+ "library.db")) answer w)
         | None => w
         end
    else w.
Proof.
  unfold _database_migrate_to_xdg_structure, migration_applies.
  destruct (conf_database w) as [conf_db|]; [|reflexivity].
  destruct (negb (is_absolute conf_db)); [|reflexivity].
  destruct (file_exists w _); [|reflexivity].
  destruct (negb (file_exists w _)); reflexivity.
Qed.

Lemma migrate_sets_conf (loc : dt_loc_t) (answer : rename_answer_t) (w : world) :
  migration_applies loc w = true ->
  conf_database (migrate loc answer w) = Some "library.db".
Proof.
  intros Happ. rewrite migrate_cases, Happ.
  unfold migration_applies in Happ.
  destruct (conf_database w); [reflexivity | discriminate].
Qed.

Lemma delete_mipmaps_conf (loc : dt_loc_t) (ok ok' : bool) (w : world) :
  conf_database (delete_mipmaps loc ok ok' w) = conf_database w.
Proof.
  assert (Hunlink : forall p b v, conf_database (unlink p b v) = conf_database v)
    by (intros p [] v; reflexivity).
  unfold _database_delete_mipmaps_files. cbv zeta.
  destruct (file_exists w _); [|reflexivity].
  destruct (file_exists (unlink _ ok w) _); rewrite ?Hunlink; reflexivity.
Qed.

(** X26.  The migration to the new directory structure.  It changes the
    world only when it applies (the configured name is relative, the path
    it names under the home directory exists and library.db in the data
    directory does not): so it asks for no rename over an existing
    library.db and never touches an absolute configured name.  When it
    applies, it asks for one rename, of the path under the home directory
    to library.db in the data directory, and the configured name becomes
    "library.db", also when the rename fails; the file system afterwards
    is the one that rename left, the old one if it failed.  If library.db
    exists in the data directory afterwards, a second run, whatever it is
    answered, changes nothing more. *)
Theorem migrate_moves_once (loc : dt_loc_t) (answer answer' : rename_answer_t)
    (w : world) :
  let w' := migrate loc answer w in
  let dest := snprintf (datadir loc +:+ "/" +:+ "library.db") in
  (migration_applies loc w = false -> w' = w) /\
  (file_exists w dest = true -> w' = w) /\
  (forall conf_db, conf_database w = Some conf_db -> is_absolute conf_db = true ->
     w' = w) /\
  (migration_applies loc w = true ->
     conf_database w' = Some "library.db" /\
     (forall conf_db, conf_database w = Some conf_db ->
        match answer (snprintf (home loc +:+ "/" +:+ conf_db)) dest with
        | Some f => file_exists w' = exists_after f /\ file_regular w' = regular_after f
        | None => file_exists w' = file_exists w /\ file_regular w' = file_regular w
        end) /\
     (file_exists w' dest = true -> migrate loc answer' w' = w')).
Proof.
  intros w' dest. subst w' dest. rewrite migrate_cases.
  split; [intros ->; reflexivity|]. split; [|split].
  - intros Hdest. unfold migration_applies.
    destruct (conf_database w) as [conf_db|]; [|reflexivity].
    rewrite Hdest, andb_false_r. reflexivity.
  - intros conf_db Hconf Habs. unfold migration_applies.
    rewrite Hconf, Habs. reflexivity.
  - intros Happ. rewrite Happ.
    pose proof Happ as Happ'. unfold migration_applies in Happ'.
    destruct (conf_database w) as [conf_db|] eqn:Hconf; [|discriminate].
    split; [reflexivity|]. split.
    + intros conf_db' [= <-]. unfold rename.
      destruct (answer _ _); split; reflexivity.
    + intros Hdest. rewrite migrate_cases. unfold migration_applies.
      cbn [conf_database dt_conf_set_database].
      cbn [file_exists dt_conf_set_database] in Hdest |- *.
      rewrite Hdest, andb_false_r. reflexivity.
Qed.

(** X27.  The removal of the old mipmap files.  It removes files only:
    no path comes into existence, the paths other than the two mipmap
    files and the configuration are as they were.  The fallback file is
    looked at only when the file mipmaps exists; without that file the
    world is as it was, a fallback file included.  When the file exists
    and both removals succeed, neither file exists afterwards. *)
Theorem delete_mipmaps_removes_only (loc : dt_loc_t) (ok ok' : bool) (w : world) :
  let w' := delete_mipmaps loc ok ok' w in
  let mipmaps := snprintf (user_cache_dir loc +:+ "/mipmaps") in
  let fallback := snprintf (user_cache_dir loc +:+ "/mipmaps.fallback") in
  conf_database w' = conf_database w /\
  (forall p, file_exists w' p = true -> file_exists w p = true) /\
  (forall p, p <> mipmaps -> p <> fallback ->
     file_exists w' p = file_exists w p /\ file_regular w' p = file_regular w p) /\
  (file_exists w mipmaps = false -> w' = w) /\
  (file_exists w mipmaps = true -> ok = true -> ok' = true ->
     file_exists w' mipmaps = false /\ file_exists w' fallback = false).
Proof.
  intros w' mipmaps fallback. subst w'.
  unfold _database_delete_mipmaps_files. fold mipmaps fallback.
  destruct (file_exists w mipmaps) eqn:Hmip.
  - destruct ok, ok'; cbn [unlink file_exists file_regular conf_database];
      repeat match goal with
      | |- context [if ?b then _ else _] => destruct b eqn:?
      end;
      cbn [unlink file_exists file_regular conf_database];
      (split; [reflexivity|]);
      (split; [intros p; try (destruct (String.eqb_spec p mipmaps));
               try (destruct (String.eqb_spec p fallback)); congruence|]);
      (split; [intros p Hp1 Hp2; apply String.eqb_neq in Hp1, Hp2;
               rewrite ?Hp1, ?Hp2; split; reflexivity|]);
      (split; [discriminate|]);
      intros _ Hok Hok'; try discriminate;
      rewrite ?String.eqb_refl;
      repeat match goal with
      | |- context [String.eqb ?a ?b] => destruct (String.eqb_spec a b)
      end; split; congruence.
  - split; [reflexivity|]. split; [auto|]. split; [auto|].
    split; [reflexivity | discriminate].
Qed.

(** X28.  The migration and the file that is opened.  When the
    migration applies and no alternative is given, [dt_database_init]
    opens library.db of the user configuration directory, whatever the
    configured name was and whether the rename succeeded or not, since
    the migration leaves "library.db" as the configured name; the rename
    the migration asked for has library.db of the data directory as its
    destination, which is another path unless the two directories are
    the same. *)
Theorem dt_database_init_after_migration (loc : dt_loc_t) (a : db_answers)
    (w : world) :
  migration_applies loc w = true ->
  let r := dt_database_init None loc a w in
  let opened := snprintf (user_config_dir loc +:+ "/library.db") in
  conf_database (snd r) = Some "library.db" /\
  hd_error (snd (fst r)) = Some (SqliteOpen opened) /\
  (forall db, fst (fst r) = Some db ->
     dbfilename db = opened /\
     is_new_database db = negb (file_regular (snd r) opened)) /\
  (forall conf_db, conf_database w = Some conf_db ->
     migrate loc (rename_answers a) w
     = dt_conf_set_database "library.db"
         (rename (snprintf (home loc +:+ "/" +:+ conf_db))
                 (snprintf (datadir loc +:+ "/" +:+ "library.db"))
                 (rename_answers a) w)).
Proof.
  intros Happ r opened. subst r. rewrite dt_database_init_cases.
  assert (Hconf : conf_database (world_after_helpers loc a w) = Some "library.db").
  { unfold world_after_helpers. rewrite delete_mipmaps_conf.
    apply migrate_sets_conf. exact Happ. }
  assert (Hname : database_filename None loc (world_after_helpers loc a w) = opened).
  { unfold database_filename. rewrite Hconf. reflexivity. }
  rewrite Hname.
  assert (Hmig : forall conf_db, conf_database w = Some conf_db ->
            migrate loc (rename_answers a) w
            = dt_conf_set_database "library.db"
                (rename (snprintf (home loc +:+ "/" +:+ conf_db))
                        (snprintf (datadir loc +:+ "/" +:+ "library.db"))
                        (rename_answers a) w)).
  { intros conf_db Hc. rewrite migrate_cases, Happ, Hc. reflexivity. }
  destruct (negb (open_status a =? 0)); [|destruct (lock_status a >? SQLITE_ERROR)];
    cbn [fst snd hd_error];
    (split; [exact Hconf|]); (split; [reflexivity|]);
    (split; [|exact Hmig]); intros db H; try discriminate H;
    injection H as <-; split; reflexivity.
Qed.

End DatabaseFacts.

Lemma dt_database_init_outcome_witness :
  let r := dt_database_init 1024 (Some "/tmp/other.db") example_loc example_answers
             example_world in
  (fst (fst r) = None <-> open_status example_answers <> 0) /\
  exists db, fst (fst r) = Some db /\
    dbfilename db = "/tmp/other.db" /\ already_locked db = false /\
    is_new_database db = true.
Proof.
  destruct (dt_database_init_outcome 1024 ltac:(lia) (Some "/tmp/other.db") example_loc
              example_answers example_world) as (Hnull & _ & Hdb).
  split; [exact Hnull|].
  eexists. split; [vm_compute; reflexivity|].
  destruct (Hdb _ ltac:(vm_compute; reflexivity)) as (Hlock & Hnew & _ & _ & _ & Halt).
  split; [apply (Halt "/tmp/other.db" eq_refl); vm_compute; lia|].
  split; [exact Hlock | vm_compute; reflexivity].
Defined.

Lemma dt_database_init_after_migration_witness :
  let r := dt_database_init 1024 None example_loc example_answers example_world in
  (conf_database (snd r) = Some "library.db" /\
   hd_error (snd (fst r))
   = Some (SqliteOpen "/home/u/.config/darktable/library.db")) /\
  (file_exists (snd r) "/usr/share/darktable/library.db" = true /\
   file_exists (snd r) "/home/u/.config/darktable/library.db" = false).
Proof.
  destruct (dt_database_init_after_migration 1024 example_loc example_answers
              example_world ltac:(vm_compute; reflexivity)) as (Hconf & Hopen & _).
  split; [split; [exact Hconf | exact Hopen]|].
  vm_compute. split; reflexivity.
Defined.

(** ** The stored pointer position *)

Lemma motion_notify_pointer (self : dt_iop_module_t) (widget : GtkAllocation)
    (event : GdkEventMotion) :
  chroma_locked (params self) (gui_data self) = false ->
  let c' := gui_data (dt_iop_tonecurve_motion_notify self widget event) in
  mouse_x c' = pointer_x widget event /\ mouse_y c' = pointer_y widget event.
Proof.
  intros Hlock. unfold dt_iop_tonecurve_motion_notify. rewrite Hlock.
  cbn [selected channel mouse_x mouse_y].
  destruct (button1 event); [|split; reflexivity].
  destruct (selected (gui_data self) >=? 0).
  - destruct (_ && _); split; reflexivity.
  - destruct (_ && _); split; reflexivity.
Qed.

(** X29.  On a tab that is not locked every pointer move stores the
    pointer position clamped to the drawing area: for an area whose width
    and height are not negative, the stored x lies between 0 and the
    width and the stored y between 0 and the height, wherever the event
    says the pointer is, unless the coordinate of the event is NaN, which
    is stored as NaN. *)
Theorem motion_notify_pointer_in_area (self : dt_iop_module_t)
    (widget : GtkAllocation) (event : GdkEventMotion) :
  let c' := gui_data (dt_iop_tonecurve_motion_notify self widget event) in
  let zero := F64.of_int 0 in
  let inset := F64.of_int DT_GUI_CURVE_EDITOR_INSET in
  let w := F64.of_int (area_width widget) in
  let h := F64.of_int (area_height widget) in
  chroma_locked (params self) (gui_data self) = false ->
  fle zero w = true -> fle zero h = true ->
  (is_nan (F64.sub (event_x event) inset) = false ->
   fle zero (mouse_x c') = true /\ fle (mouse_x c') w = true) /\
  (is_nan (F64.sub (event_y event) inset) = false ->
   fle zero (mouse_y c') = true /\ fle (mouse_y c') h = true) /\
  (is_nan (F64.sub (event_x event) inset) = true -> is_nan (mouse_x c') = true) /\
  (is_nan (F64.sub (event_y event) inset) = true -> is_nan (mouse_y c') = true).
Proof.
  intros c' zero inset w h Hlock Hw Hh.
  destruct (motion_notify_pointer self widget event Hlock) as [Hx Hy].
  fold c' in Hx, Hy. rewrite Hx, Hy. unfold pointer_x, pointer_y.
  fold zero inset w h.
  destruct (fCLAMP_bounds (F64.sub (event_x event) inset) zero w Hw) as [Hxn Hxnan].
  destruct (fCLAMP_bounds (F64.sub (event_y event) inset) zero h Hh) as [Hyn Hynan].
  split; [exact Hxn|]. split; [exact Hyn|]. split.
  - intros Hnan. rewrite (Hxnan Hnan). exact Hnan.
  - intros Hnan. rewrite (Hynan Hnan). exact Hnan.
Qed.

Lemma motion_notify_pointer_in_area_witness :
  let c' := gui_data (dt_iop_tonecurve_motion_notify (example_module ch_L 1 (-1))
                        example_widget (example_move 1000 (-50) 0)) in
  (fle (F64.of_int 0) (mouse_x c') = true /\
   fle (mouse_x c') (F64.of_int (area_width example_widget)) = true) /\
  (fle (F64.of_int 0) (mouse_y c') = true /\
   fle (mouse_y c') (F64.of_int (area_height example_widget)) = true).
Proof.
  destruct (motion_notify_pointer_in_area (example_module ch_L 1 (-1)) example_widget
              (example_move 1000 (-50) 0))
    as (Hx & Hy & _); [vm_compute; reflexivity ..|].
  split; [apply Hx | apply Hy]; vm_compute; reflexivity.
Defined.

(** ** The threshold of the extrapolation *)

Section Threshold.

Variable dt_draw_curve_t : Type.
Variable dt_draw_curve_new : float -> float -> curve_type_t -> dt_draw_curve_t.
Variable dt_draw_curve_add_point :
  dt_draw_curve_t -> float -> float -> dt_draw_curve_t.
Variable dt_draw_curve_set_point :
  dt_draw_curve_t -> Z -> float -> float -> dt_draw_curve_t.
Variable dt_draw_curve_calc_values :
  dt_draw_curve_t -> float -> float -> Z -> list float ->
  dt_draw_curve_t * list float.
Variable dt_iop_estimate_exp :
  list float -> list float -> Z -> list float -> list float.
Variable dt_iop_eval_exp : list float -> float -> float.

Local Abbreviation data := (dt_iop_tonecurve_data_t dt_draw_curve_t).
Local Abbreviation memory := (memory dt_draw_curve_t).
Local Abbreviation process := (process dt_iop_eval_exp).
Local Abbreviation commit_params :=
  (commit_params dt_draw_curve_new dt_draw_curve_add_point
     dt_draw_curve_set_point dt_draw_curve_calc_values dt_iop_estimate_exp).


End Threshold.


